(** * GitLab MR Flow: the create-merge-request command of [extension.js]

    A shallow embedding of [src/extension.js] (the command handler registered
    by [activate], with its helpers [runGitCommand], [getOrigin],
    [getTargetBranch] and [getCurrentBranch]) and the properties of the
    workflow proved or refuted on it.  The earlier text of the extension,
    [src/unnamed/part_002], is embedded in the module [First].

    Conventions of the model.
    - A JavaScript string is a [string]: a sequence of code units below 256.
      The white-space class of JavaScript ([\s], [trim]) restricted to that
      range is [is_space].
    - A file-system path is the list of its segments from the root;
      [path.dirname] drops the last segment and [path.join] appends some.
    - [outputChannel.appendLine] only writes to a log that is never read
      back; the log lines are left out.  Every other effect of the handler
      (git commands, file access, pick lists, opening a URL, notifications)
      is an event of the program. *)

From Stdlib Require Import String Ascii List ZArith Bool Arith Lia DecimalString.
Import ListNotations.
Open Scope string_scope.
Open Scope list_scope.
Open Scope nat_scope.

(** String concatenation, the [+] and the template literals of the source. *)
Infix "+++" := String.append (right associativity, at level 60).

(* ===================================================================== *)
(** ** Strings as JavaScript uses them *)
(* ===================================================================== *)

Module Js.

(** [\s] of a regular expression and the characters [trim] removes:
    TAB, LF, VT, FF, CR, SPACE and NBSP. *)
Definition is_space (c : ascii) : bool :=
  let n := nat_of_ascii c in
  ((9 <=? n) && (n <=? 13)) || (n =? 32) || (n =? 160).

Definition non_space (c : ascii) : bool := negb (is_space c).

(** [s.startsWith(p)] *)
Definition startsWith (p s : string) : bool := String.prefix p s.

(** [s.includes(needle)] *)
Fixpoint includes (needle s : string) : bool :=
  String.prefix needle s ||
  match s with
  | EmptyString => false
  | String _ s' => includes needle s'
  end.

(** [s.endsWith(suffix)] *)
Definition endsWith (suffix s : string) : bool :=
  (String.length suffix <=? String.length s) &&
  String.eqb (substring (String.length s - String.length suffix)
                        (String.length suffix) s) suffix.

(** [s.slice(0, -n)] *)
Definition dropLast (n : nat) (s : string) : string :=
  substring 0 (String.length s - n) s.

(** [s.split(sep)] for a one-character separator. *)
Fixpoint split (sep : ascii) (s : string) : list string :=
  match s with
  | EmptyString => [EmptyString]
  | String c s' =>
      if Ascii.eqb c sep then EmptyString :: split sep s'
      else match split sep s' with
           | [] => [String c EmptyString]
           | l :: ls => String c l :: ls
           end
  end.

Fixpoint trimStart (s : string) : string :=
  match s with
  | EmptyString => EmptyString
  | String c s' => if is_space c then trimStart s' else s
  end.

Fixpoint trimEnd (s : string) : string :=
  match s with
  | EmptyString => EmptyString
  | String c s' =>
      match trimEnd s' with
      | EmptyString => if is_space c then EmptyString else String c EmptyString
      | t => String c t
      end
  end.

(** [s.trim()] *)
Definition trim (s : string) : string := trimEnd (trimStart s).

(** Every character of [s] satisfies [p]. *)
Fixpoint every (p : ascii -> bool) (s : string) : bool :=
  match s with
  | EmptyString => true
  | String c s' => p c && every p s'
  end.

(** [s] is empty or starts with a character for which [p] fails. *)
Definition stopsAt (p : ascii -> bool) (s : string) : bool :=
  match s with
  | EmptyString => true
  | String c _ => negb (p c)
  end.

(** Truthiness of a string: a string is falsy exactly when it is empty. *)
Definition truthy (s : string) : bool :=
  match s with EmptyString => false | _ => true end.

(** [a || b] on strings. *)
Definition orElse (a b : string) : string := if truthy a then a else b.

End Js.

(* ===================================================================== *)
(** ** The regular expressions of the source

    The five regular expressions of [extension.js] are sequences of
    literals, one optional literal, quantified character classes and one or
    two capture groups without nesting.  [matchAt] is the backtracking
    matcher of JavaScript for such sequences: alternatives are tried in the
    order of the language (a greedy quantifier longest first, a lazy one
    shortest first) and the first success wins. *)
(* ===================================================================== *)

Module Re.

Inductive atom : Type :=
| Lit (c : ascii)                       (* the character c *)
| LitI (c : ascii)                      (* c under the /i flag *)
| OptI (c : ascii)                      (* c? under the /i flag *)
| One (p : ascii -> bool)               (* one character of a class *)
| Star (p : ascii -> bool)              (* class*  (greedy) *)
| StarLazy (p : ascii -> bool)          (* class*? (lazy) *)
| GOpen                                 (* a capture group opens *)
| GClose.                               (* the capture group closes *)

Definition regex := list atom.

(** ASCII lower-casing; under /i a code unit above 127 never matches an
    ASCII letter. *)
Definition lower (c : ascii) : ascii :=
  let n := nat_of_ascii c in
  if (65 <=? n) && (n <=? 90) then ascii_of_nat (n + 32) else c.

Definition eqI (c x : ascii) : bool := Ascii.eqb (lower c) (lower x).

Definition lits (s : string) : regex := map Lit (list_ascii_of_string s).
Definition litsI (s : string) : regex := map LitI (list_ascii_of_string s).

(** The text captured so far by the group that is open, if one is. *)
Definition push (cur : option string) (x : ascii) : option string :=
  match cur with
  | None => None
  | Some g => Some (g +++ String x EmptyString)
  end.

(** [push] for each character of [a] in turn. *)
Definition pushAll (cur : option string) (a : string) : option string :=
  match cur with
  | None => None
  | Some g => Some (g +++ a)
  end.

(** [matchAt r s cur caps]: match [r] at the start of [s]; on success the
    captured groups in order and the input left after the match. *)
Fixpoint matchAt (r : regex) (s : string) (cur : option string)
         (caps : list string) {struct r} : option (list string * string) :=
  match r with
  | [] => Some (caps, s)
  | Lit c :: r' =>
      match s with
      | String x s' =>
          if Ascii.eqb c x then matchAt r' s' (push cur x) caps else None
      | EmptyString => None
      end
  | LitI c :: r' =>
      match s with
      | String x s' =>
          if eqI c x then matchAt r' s' (push cur x) caps else None
      | EmptyString => None
      end
  | OptI c :: r' =>
      match s with
      | String x s' =>
          if eqI c x then
            match matchAt r' s' (push cur x) caps with
            | Some m => Some m
            | None => matchAt r' s cur caps
            end
          else matchAt r' s cur caps
      | EmptyString => matchAt r' s cur caps
      end
  | One p :: r' =>
      match s with
      | String x s' =>
          if p x then matchAt r' s' (push cur x) caps else None
      | EmptyString => None
      end
  | Star p :: r' =>
      (fix star (s : string) (cur : option string) {struct s} :=
         match s with
         | String x s' =>
             if p x then
               match star s' (push cur x) with
               | Some m => Some m
               | None => matchAt r' s cur caps
               end
             else matchAt r' s cur caps
         | EmptyString => matchAt r' s cur caps
         end) s cur
  | StarLazy p :: r' =>
      (fix star (s : string) (cur : option string) {struct s} :=
         match matchAt r' s cur caps with
         | Some m => Some m
         | None =>
             match s with
             | String x s' => if p x then star s' (push cur x) else None
             | EmptyString => None
             end
         end) s cur
  | GOpen :: r' => matchAt r' s (Some EmptyString) caps
  | GClose :: r' =>
      match cur with
      | Some g => matchAt r' s None (caps ++ [g])
      | None => matchAt r' s None caps
      end
  end.

Definition matchHere (r : regex) (s : string) : option (list string * string) :=
  matchAt r s None [].

(** [s.match(r)] without the g flag: the groups of the leftmost match. *)
Fixpoint search (r : regex) (s : string) : option (list string) :=
  match matchHere r s with
  | Some (caps, _) => Some caps
  | None =>
      match s with
      | EmptyString => None
      | String _ s' => search r s'
      end
  end.

(** The loop [while ((m = r.exec(s)) !== null) ...] of a /g expression:
    the groups of every match, each search starting where the match before
    it ended.  [skip] counts the characters of the last match that are still
    to be passed. *)
Fixpoint execAll (r : regex) (skip : nat) (s : string) : list (list string) :=
  match s with
  | EmptyString => []
  | String _ s' =>
      match skip with
      | S n => execAll r n s'
      | O =>
          match matchHere r s with
          | Some (caps, rest) =>
              caps :: execAll r (String.length s - String.length rest - 1) s'
          | None => execAll r 0 s'
          end
      end
  end.

Definition notBracket (c : ascii) : bool := negb (Ascii.eqb c "[").
Definition urlChar (c : ascii) : bool :=
  negb (Js.is_space c) && negb (Ascii.eqb c "#").

(** [url\s*=\s*([^\s#]+)], the tail of both remote expressions. *)
Definition urlTail : regex :=
  lits "url" ++ [Star Js.is_space; Lit "="; Star Js.is_space;
                 GOpen; One urlChar; Star urlChar; GClose].

(** The double quote, written \x22 in the comments below. *)
Definition dq : ascii := ascii_of_nat 34.

(** [/\[remote\s+\x22origin\x22\][^\[]*?url\s*=\s*([^\s#]+)/g] *)
Definition remoteOriginRegex : regex :=
  lits "[remote" ++ [One Js.is_space; Star Js.is_space; Lit dq] ++
  lits "origin" ++ [Lit dq; Lit "]"; StarLazy notBracket] ++ urlTail.

(** [/\[remote\s+\x22(\S+)\x22\][^\[]*?url\s*=\s*([^\s#]+)/g] *)
Definition remoteRegex : regex :=
  lits "[remote" ++ [One Js.is_space; Star Js.is_space; Lit dq;
                     GOpen; One Js.non_space; Star Js.non_space; GClose;
                     Lit dq; Lit "]"; StarLazy notBracket] ++ urlTail.

(** [/HEAD branch:\s*(\S+)/] *)
Definition headBranchRegex : regex :=
  lits "HEAD branch:" ++
  [Star Js.is_space; GOpen; One Js.non_space; Star Js.non_space; GClose].

(** [/^\s*origin\/(\S+)/] without its anchor: used with [matchHere]. *)
Definition originBranchRegex : regex :=
  [Star Js.is_space] ++ lits "origin/" ++
  [GOpen; One Js.non_space; Star Js.non_space; GClose].

(** [/remote:\s+(https?:\/\/[^\s]+)/i] *)
Definition urlRegex : regex :=
  litsI "remote:" ++ [One Js.is_space; Star Js.is_space; GOpen] ++
  litsI "http" ++ [OptI "s"] ++ litsI "://" ++
  [One Js.non_space; Star Js.non_space; GClose].

End Re.

(** The line feed. *)
Definition nl : string := String (ascii_of_nat 10) EmptyString.

(** The double quote as a string. *)
Definition dquote : string := String Re.dq EmptyString.

(* ===================================================================== *)
(** ** Data of the workflow *)
(* ===================================================================== *)

Definition Path := list string.

(** The result of [execa]: [{ stdout, stderr, exitCode }]; [exitCode] is
    [None] when the process gave no exit code. *)
Record GitResult : Type := mkResult
  { stdout : string; stderr : string; exitCode : option Z }.

(** [{ remoteName, remoteUrl }] *)
Record Remote : Type := mkRemote
  { remoteName : string; remoteUrl : string }.

(** An entry of a pick list: [{ label, description }]. *)
Record QuickPickItem : Type := mkItem
  { label : string; description : string }.

(** [showInformationMessage], [showWarningMessage], [showErrorMessage]. *)
Inductive Level : Type := Information | Warning | Error.

(** The argument of the command: [undefined], or a repository handle with
    or without a [rootUri] (whose [fsPath] is the path). *)
Record Repository : Type := mkRepository { rootUri : option Path }.

(** [r.exitCode === 0] *)
Definition exitOk (r : GitResult) : bool :=
  match exitCode r with
  | Some z => Z.eqb z 0
  | None => false
  end.

(** The text of [${r.exitCode}] in a template literal. *)
Definition showExitCode (c : option Z) : string :=
  match c with
  | Some z => NilZero.string_of_int (Z.to_int z)
  | None => "undefined"
  end.

(* ===================================================================== *)
(** ** Programs with effects

    A program issues requests to the editor, the file system and git, and
    continues with the reply.  [Prog] is the tree of these requests; a
    [World] answers each request from the history of the run, and [run]
    plays a program against a world and records the events in order. *)
(* ===================================================================== *)

Inductive Prog (A : Type) : Type :=
| Ret (a : A)
| Git (args : list string) (cwd : Path) (k : option GitResult -> Prog A)
    (* execa('git', args, { cwd, reject: false }); None: it threw *)
| FsAccess (p : Path) (k : bool -> Prog A)
    (* fs.access(p); false: it rejected *)
| FsReadFile (p : Path) (k : option string -> Prog A)
    (* fs.readFile(p, 'utf-8'); None: it rejected *)
| QuickPick (items : list QuickPickItem) (k : option nat -> Prog A)
    (* showQuickPick of items; the index picked, None: dismissed *)
| QuickPickStr (items : list string) (k : option nat -> Prog A)
    (* showQuickPick of strings *)
| OpenExternal (url : string) (k : bool -> Prog A)
    (* env.openExternal(Uri.parse(url)); false: it threw *)
| Show (lvl : Level) (msg : string) (k : Prog A).
    (* a notification *)

Arguments Ret {A} a.
Arguments Git {A} args cwd k.
Arguments FsAccess {A} p k.
Arguments FsReadFile {A} p k.
Arguments QuickPick {A} items k.
Arguments QuickPickStr {A} items k.
Arguments OpenExternal {A} url k.
Arguments Show {A} lvl msg k.

Fixpoint bind {A B : Type} (m : Prog A) (f : A -> Prog B) : Prog B :=
  match m with
  | Ret a => f a
  | Git args cwd k => Git args cwd (fun r => bind (k r) f)
  | FsAccess p k => FsAccess p (fun r => bind (k r) f)
  | FsReadFile p k => FsReadFile p (fun r => bind (k r) f)
  | QuickPick items k => QuickPick items (fun r => bind (k r) f)
  | QuickPickStr items k => QuickPickStr items (fun r => bind (k r) f)
  | OpenExternal url k => OpenExternal url (fun r => bind (k r) f)
  | Show lvl msg k => Show lvl msg (bind k f)
  end.

(** A thrown [Error] is its message. *)
Definition Exn := string.

(** A computation that returns a value or throws. *)
Definition M (A : Type) : Type := Prog (Exn + A).

Definition ret {A : Type} (a : A) : M A := Ret (inr a).
Definition throw {A : Type} (e : Exn) : M A := Ret (inl e).

(** [await m] followed by [f]: a throw of [m] propagates. *)
Definition bindE {A B : Type} (m : M A) (f : A -> M B) : M B :=
  bind m (fun r => match r with inl e => Ret (inl e) | inr a => f a end).

(** [try { m } catch (error) { h error }] *)
Definition tryCatch {A : Type} (m : M A) (h : Exn -> M A) : M A :=
  bind m (fun r => match r with inl e => h e | inr a => Ret (inr a) end).

(** A notification, then the rest. *)
Definition show {A : Type} (lvl : Level) (msg : string) (k : M A) : M A :=
  Show lvl msg k.

Declare Scope prog_scope.
Delimit Scope prog_scope with prog.
Notation "x <- m ;; k" := (bindE m (fun x => k))
  (at level 61, m at next level, right associativity) : prog_scope.

(** What a run records: each request with its reply. *)
Inductive Event : Type :=
| EvGit (args : list string) (cwd : Path) (r : option GitResult)
| EvAccess (p : Path) (ok : bool)
| EvReadFile (p : Path) (r : option string)
| EvPick (items : list QuickPickItem) (r : option nat)
| EvPickStr (items : list string) (r : option nat)
| EvOpen (url : string) (ok : bool)
| EvShow (lvl : Level) (msg : string).

(** The environment: every reply may depend on all that happened before. *)
Record World : Type := mkWorld
  { git : list Event -> list string -> Path -> option GitResult;
    access : list Event -> Path -> bool;
    readFile : list Event -> Path -> option string;
    pick : list Event -> list QuickPickItem -> option nat;
    pickStr : list Event -> list string -> option nat;
    openUrl : list Event -> string -> bool }.

(** [run w h p]: play [p] in [w] after the history [h]; the value of [p]
    and the events of [p] in order. *)
Fixpoint run {A : Type} (w : World) (h : list Event) (p : Prog A)
  : A * list Event :=
  match p with
  | Ret a => (a, [])
  | Git args cwd k =>
      let r := git w h args cwd in
      let e := EvGit args cwd r in
      let (a, t) := run w (h ++ [e]) (k r) in (a, e :: t)
  | FsAccess p k =>
      let r := access w h p in
      let e := EvAccess p r in
      let (a, t) := run w (h ++ [e]) (k r) in (a, e :: t)
  | FsReadFile p k =>
      let r := readFile w h p in
      let e := EvReadFile p r in
      let (a, t) := run w (h ++ [e]) (k r) in (a, e :: t)
  | QuickPick items k =>
      let r := pick w h items in
      let e := EvPick items r in
      let (a, t) := run w (h ++ [e]) (k r) in (a, e :: t)
  | QuickPickStr items k =>
      let r := pickStr w h items in
      let e := EvPickStr items r in
      let (a, t) := run w (h ++ [e]) (k r) in (a, e :: t)
  | OpenExternal url k =>
      let r := openUrl w h url in
      let e := EvOpen url r in
      let (a, t) := run w (h ++ [e]) (k r) in (a, e :: t)
  | Show lvl msg k =>
      let e := EvShow lvl msg in
      let (a, t) := run w (h ++ [e]) k in (a, e :: t)
  end.

(** The entry a pick list returns for a reply: none when the list was
    dismissed (a reply outside the list is no pick). *)
Definition picked {A : Type} (items : list A) (r : option nat) : option A :=
  match r with
  | Some i => nth_error items i
  | None => None
  end.

(* ===================================================================== *)
(** ** The helpers of [extension.js] *)
(* ===================================================================== *)

Open Scope prog_scope.

(** [runGitCommand(args, cwd, commandDesc)] *)
Definition runGitCommand (args : list string) (cwd : Path)
           (commandDesc : string) : M GitResult :=
  Git args cwd (fun r =>
    match r with
    | Some result => ret result
    | None =>
        show Error ("Failed to run git command: " +++ commandDesc +++
                    ". Check Output channel for details.")
             (throw ("Git command failed: " +++ commandDesc))
    end).

(** The entries of a pick list of remotes:
    [remotes.map(r => ({ label: r.remoteName, description: r.remoteUrl }))] *)
Definition remoteItems (remotes : list Remote) : list QuickPickItem :=
  map (fun r => mkItem (remoteName r) (remoteUrl r)) remotes.

(** [remotes.find(r => r.remoteName === label)] *)
Definition findByName (name : string) (remotes : list Remote) : option Remote :=
  find (fun r => String.eqb (remoteName r) name) remotes.

(** The matches of [remoteOriginRegex] in the configuration:
    [{ remoteName: 'origin', remoteUrl: match[1] }] for each. *)
Definition originRemotesOf (configContent : string) : list Remote :=
  map (fun caps => mkRemote "origin" (nth 0 caps EmptyString))
      (Re.execAll Re.remoteOriginRegex 0 configContent).

(** The matches of [remoteRegex]:
    [{ remoteName: remoteMatch[1], remoteUrl: remoteMatch[2] }] for each. *)
Definition allRemotesOf (configContent : string) : list Remote :=
  map (fun caps => mkRemote (nth 0 caps EmptyString) (nth 1 caps EmptyString))
      (Re.execAll Re.remoteRegex 0 configContent).

(** Reading a field of [undefined]. *)
Definition typeErrorRemoteUrl : Exn :=
  "Cannot read properties of undefined (reading 'remoteUrl')".

(** The prompt among several remotes and what is made of the answer
    (lines 88-100 and 108-120). *)
Definition selectRemote (remotes : list Remote) (cancelled : Exn) : M Remote :=
  QuickPick (remoteItems remotes) (fun reply =>
    match picked (remoteItems remotes) reply with
    | None => throw cancelled
    | Some selectedRemote =>
        match findByName (label selectedRemote) remotes with
        | Some selected => ret selected
        | None => throw typeErrorRemoteUrl
        end
    end).

(** The candidate remotes of a configuration: the entries named origin
    when there are some, all the entries otherwise. *)
Definition candidateRemotes (configContent : string) : list Remote :=
  match originRemotesOf configContent with
  | [] => allRemotesOf configContent
  | originRemotes => originRemotes
  end.

(** [getOrigin(workspaceRoot)] *)
Definition getOrigin (workspaceRoot : Path) : M Remote :=
  FsReadFile (workspaceRoot ++ [".git"; "config"]) (fun r =>
    match r with
    | None => throw "Could not read .git/config file."
    | Some configContent =>
        match originRemotesOf configContent with
        | [] =>
            match allRemotesOf configContent with
            | [] => throw "No remote URLs found in .git/config."
            | [only] => ret only
            | allRemotes =>
                selectRemote allRemotes "Remote selection cancelled by user."
            end
        | [only] => ret only
        | originRemotes =>
            selectRemote originRemotes "Origin selection cancelled by user."
        end
    end).

(** [stdout.match(/HEAD branch:\s*(\S+)/)] with the test
    [headBranchMatch && headBranchMatch[1]]. *)
Definition headBranchOf (out : string) : option string :=
  match Re.search Re.headBranchRegex out with
  | Some caps =>
      let b := nth 0 caps EmptyString in
      if Js.truthy b then Some b else None
  | None => None
  end.

(** Attempt 1 of [getTargetBranch], lines 136-158: the default branch that
    [git remote show] reports, if it reports one. *)
Definition advertisedHead (workspaceRoot : Path) (remote : string)
  : Prog (option string) :=
  bind (runGitCommand ["remote"; "show"; remote] workspaceRoot
                      ("show remote " +++ remote))
       (fun r =>
          match r with
          | inl _ => Ret None
          | inr remoteShowResult =>
              if exitOk remoteShowResult && Js.truthy (stdout remoteShowResult)
              then
                match headBranchOf (stdout remoteShowResult) with
                | Some defaultBranch =>
                    if negb (String.eqb defaultBranch "(unknown)")
                    then Ret (Some defaultBranch)
                    else Ret None
                | None => Ret None
                end
              else Ret None
          end).

(** The body of [lines.forEach] at lines 168-175 for one line. *)
Definition originBranchOf (line : string) : option string :=
  if Js.includes "->" line then None
  else
    match Re.matchHere Re.originBranchRegex line with
    | Some (caps, _) =>
        let b := nth 0 caps EmptyString in
        if Js.truthy b then Some b else None
    | None => None
    end.

(** [remoteBranches] after the loop over [stdout.split('\n')]. *)
Fixpoint collectBranches (lines : list string) : list string :=
  match lines with
  | [] => []
  | line :: rest =>
      match originBranchOf line with
      | Some b => b :: collectBranches rest
      | None => collectBranches rest
      end
  end.

Definition remoteBranchesOf (out : string) : list string :=
  collectBranches (Js.split (ascii_of_nat 10) out).

Definition noRemoteBranches : Exn := "No remote branches found for origin.".
Definition targetBranchCancelled : Exn :=
  "Target branch selection cancelled by user.".
Definition targetBranchFailed : Exn := "Failed to determine target branch.".

(** The [try] block of attempt 2, lines 164-198. *)
Definition listAndPick (workspaceRoot : Path) : M string :=
  branchRResult <- runGitCommand ["branch"; "-r"] workspaceRoot
                                 "list remote branches" ;;
  if exitOk branchRResult && Js.truthy (stdout branchRResult) then
    let remoteBranches := remoteBranchesOf (stdout branchRResult) in
    match remoteBranches with
    | [] => throw noRemoteBranches
    | _ =>
        QuickPickStr remoteBranches (fun reply =>
          match picked remoteBranches reply with
          | Some selectedBranch =>
              if Js.truthy selectedBranch then ret selectedBranch
              else throw targetBranchCancelled
          | None => throw targetBranchCancelled
          end)
    end
  else throw "Could not list remote branches using 'git branch -r'.".

(** Attempt 2 with its [catch], lines 160-208. *)
Definition fallbackTargetBranch (workspaceRoot : Path) : M string :=
  tryCatch (listAndPick workspaceRoot) (fun error =>
    if Js.includes "cancelled by user" error then throw error
    else throw targetBranchFailed).

(** [getTargetBranch(workspaceRoot, remoteName)] *)
Definition getTargetBranch (workspaceRoot : Path) (remote : string) : M string :=
  bind (advertisedHead workspaceRoot remote) (fun found =>
    match found with
    | Some defaultBranch => ret defaultBranch
    | None => fallbackTargetBranch workspaceRoot
    end).

Definition showCurrent : list string := ["branch"; "--show-current"].

(** [getCurrentBranch(workspaceRoot)] *)
Definition getCurrentBranch (workspaceRoot : Path) : M string :=
  tryCatch
    (r <- runGitCommand showCurrent workspaceRoot "get current branch" ;;
     if exitOk r && Js.truthy (stdout r) then
       let currentBranch := Js.trim (stdout r) in
       if Js.truthy currentBranch then ret currentBranch
       else throw ("Could not determine current branch (empty output). " +++
                   "Possibly in detached HEAD state?")
     else throw "Failed to get current branch name.")
    (fun error => throw ("Failed to determine current branch: " +++ error)).

(* ===================================================================== *)
(** ** The command handler of [activate]

    The function registered for [gitlab-mr-flow.createMergeRequest],
    lines 258-443, cut along its step comments. *)
(* ===================================================================== *)

(** The loop of lines 273-283 from the reversed segments of [dir]:
    [while (dir !== path.dirname(dir))], looking for [dir/.git]. *)
Fixpoint findGitRootRev (revDir : list string) : Prog (option Path) :=
  match revDir with
  | [] => Ret None
  | _ :: up =>
      FsAccess (rev revDir ++ [".git"]) (fun ok =>
        if ok then Ret (Some (rev revDir)) else findGitRootRev up)
  end.

(** [path.dirname] *)
Definition dirname (p : Path) : Path := removelast p.

(** Step 1, lines 264-291: the workspace root, [None] for the empty
    string that [!workspaceRoot] tests. *)
Definition locateRoot (repository : Repository) (activeTextEditor : option Path)
  : Prog (option Path) :=
  match rootUri repository with
  | Some fsPath => Ret (Some fsPath)
  | None =>
      match activeTextEditor with
      | Some activeFile => findGitRootRev (rev (dirname activeFile))
      | None => Ret None
      end
  end.

(** Line 341: [mergeResult.stderr || mergeResult.stdout || ''] *)
Definition errorOutputOf (mergeResult : GitResult) : string :=
  Js.orElse (stderr mergeResult) (Js.orElse (stdout mergeResult) EmptyString).

Definition conflictMarker : string :=
  "Automatic merge failed; fix conflicts and then commit the result.".

Definition msgMergeConflict : string :=
  "Merge conflicts detected. Please resolve them manually (e.g., using " +++
  "VS Code's Source Control view), commit the merge, and then run the " +++
  "command again.".

Definition msgDivergent : string :=
  "Error: Divergent branches. This shouldn't happen with fetch+merge. " +++
  "Check Git status and Output channel.".

Definition msgMergeFailed (remote targetBranch : string) : string :=
  "Git merge of " +++ remote +++ "/" +++ targetBranch +++
  " failed. Check Output channel for details.".

(** Lines 340-358: the notification after a merge that did not exit with 0. *)
Definition mergeFailureMessage (origin : Remote) (targetBranch : string)
           (mergeResult : GitResult) : string :=
  let errorOutput := errorOutputOf mergeResult in
  if Js.includes "Merge conflict" errorOutput ||
     Js.includes conflictMarker errorOutput
  then msgMergeConflict
  else if Js.includes
            "fatal: Need to specify how to reconcile divergent branches."
            errorOutput
  then msgDivergent
  else msgMergeFailed (remoteName origin) targetBranch.

(** Lines 363-371. *)
Definition pushArgs (origin : Remote) (targetBranch currentBranch : string)
  : list string :=
  [ "push"; remoteName origin; currentBranch;
    "-o"; "merge_request.create";
    "-o"; "merge_request.target=" +++ targetBranch;
    "-o"; "merge_request.remove_source_branch=false";
    "-o"; "merge_request.title=" +++ currentBranch ].

(** Lines 379-383: the URL found in the output of the push. *)
Definition mrUrlOf (pushResult : GitResult) : option string :=
  let output := stdout pushResult +++ nl +++ stderr pushResult in
  match Re.search Re.urlRegex output with
  | Some caps =>
      let u := nth 0 caps EmptyString in
      if Js.truthy u then Some u else None
  | None => None
  end.

(** Step 9, lines 413-430. *)
Definition switchToTarget (workspaceRoot : Path) (targetBranch : string)
  : M unit :=
  tryCatch
    (checkoutResult <- runGitCommand ["checkout"; targetBranch] workspaceRoot
                                     ("checkout " +++ targetBranch) ;;
     if exitOk checkoutResult then
       show Information ("Switched local branch to " +++ targetBranch +++ ".")
            (ret tt)
     else
       show Warning
            ("Merge request created, but failed to switch local branch " +++
             "back to " +++ targetBranch +++ ". Check Output channel.")
            (ret tt))
    (fun _ =>
       show Warning
            ("Merge request created, but encountered an error switching " +++
             "local branch back to " +++ targetBranch +++
             ". Check Output channel.")
            (ret tt)).

(** Line 399 and 400: the listing URL made from the URL of a remote. *)
Definition constructedMrUrl (url : string) : string :=
  let baseUrl := if Js.endsWith ".git" url then Js.dropLast 4 url else url in
  baseUrl +++ "/-/merge_requests".

(** Lines 395-411: no URL in the output of the push. *)
Definition openListing (workspaceRoot : Path) (currentBranch : string)
  : M unit :=
  tryCatch
    (origin <- getOrigin workspaceRoot ;;
     OpenExternal (constructedMrUrl (remoteUrl origin)) (fun ok =>
       if ok then
         show Information
              ("Successfully pushed " +++ currentBranch +++
               " and navigated to Merge Requests page in your browser. " +++
               "Local branch remains " +++ currentBranch +++ ".")
              (ret tt)
       else throw "openExternal"))
    (fun _ =>
       show Error
            ("Push successful, but could not confirm Merge Request " +++
             "creation or open MR page. Please check GitLab manually. " +++
             "Local branch remains " +++ currentBranch +++ ".")
            (ret tt)).

(** Lines 383-394 followed by step 9: the URL was found. *)
Definition openCreated (workspaceRoot : Path)
           (targetBranch currentBranch mrUrl : string) : M unit :=
  OpenExternal mrUrl (fun ok =>
    show Information
         (if ok then
            "Successfully created Merge Request targeting " +++ targetBranch
            +++ " and opened it in your browser."
          else
            "Successfully pushed " +++ currentBranch +++
            " and initiated Merge Request creation targeting " +++
            targetBranch +++ ". Failed to open URL.")
         (switchToTarget workspaceRoot targetBranch)).

(** Steps 7 to 9, lines 361-436. *)
Definition pushAndCreate (workspaceRoot : Path) (origin : Remote)
           (targetBranch currentBranch : string) : M unit :=
  pushResult <- runGitCommand (pushArgs origin targetBranch currentBranch)
                              workspaceRoot "push and create merge request" ;;
  if exitOk pushResult then
    match mrUrlOf pushResult with
    | Some mrUrl => openCreated workspaceRoot targetBranch currentBranch mrUrl
    | None => openListing workspaceRoot currentBranch
    end
  else
    show Error
         ("Failed to push or create Merge Request. Exit Code: " +++
          showExitCode (exitCode pushResult) +++
          ". Check Output channel for details.")
         (ret tt).

(** Steps 6 to 9, lines 324-436. *)
Definition syncAndPublish (workspaceRoot : Path) (origin : Remote)
           (targetBranch currentBranch : string) : M unit :=
  fetchResult <- runGitCommand ["fetch"; remoteName origin] workspaceRoot
                               ("fetch " +++ remoteName origin) ;;
  if negb (exitOk fetchResult) then
    show Error "Git fetch from origin failed. Check Output channel for details."
         (ret tt)
  else
    mergeResult <- runGitCommand
                     ["merge"; remoteName origin +++ "/" +++ targetBranch]
                     workspaceRoot
                     ("merge " +++ remoteName origin +++ "/" +++ targetBranch) ;;
    if negb (exitOk mergeResult) then
      show Error (mergeFailureMessage origin targetBranch mergeResult) (ret tt)
    else pushAndCreate workspaceRoot origin targetBranch currentBranch.

(** The [try] block of lines 301-437. *)
Definition automatedFlow (workspaceRoot : Path) (currentBranch : string)
  : M unit :=
  FsAccess (workspaceRoot ++ [".git"]) (fun ok =>
    if ok then
      origin <- getOrigin workspaceRoot ;;
      targetBranch <- getTargetBranch workspaceRoot (remoteName origin) ;;
      syncAndPublish workspaceRoot origin targetBranch currentBranch
    else
      show Error "Current workspace is not a Git repository." (ret tt)).

Definition msgNotFeat : string :=
  "Merge Requests can only be created from feature branches with the " +++
  dquote +++ "feat" +++ dquote +++ " prefix. e.g. feature/abc".

Definition msgStarting : string := "Starting GitLab MR Flow...".

(** Line 296: the branches the automated flow runs on. *)
Definition acceptedBranch (currentBranch : string) : bool :=
  Js.startsWith "feat" currentBranch.

(** Line 440: the notification of the [catch] of line 438. *)
Definition msgFlowFailed (error : Exn) : string :=
  "GitLab MR Flow failed: " +++ Js.orElse error "Unknown error" +++
  ". Check Output channel.".

(** Lines 294-442: from the current branch on. *)
Definition fromRoot (workspaceRoot : Path) : M unit :=
  currentBranch <- getCurrentBranch workspaceRoot ;;
  if negb (acceptedBranch currentBranch) then
    show Error msgNotFeat (ret tt)
  else
    tryCatch (automatedFlow workspaceRoot currentBranch) (fun error =>
      show Error (msgFlowFailed error) (ret tt)).

(** The handler of the command.  Line 260 reads [repository.rootUri]
    before anything else, which throws without a repository. *)
Definition createMergeRequest (repository : option Repository)
           (activeTextEditor : option Path) : M unit :=
  match repository with
  | None => throw "Cannot read properties of undefined (reading 'rootUri')"
  | Some repo =>
      show Information msgStarting
        (bind (locateRoot repo activeTextEditor) (fun found =>
           match found with
           | None => show Error "No Git repository found." (ret tt)
           | Some workspaceRoot => fromRoot workspaceRoot
           end))
  end.

(** The events of a run of the handler in a world. *)
Definition trace (w : World) (repository : option Repository)
           (activeTextEditor : option Path) : list Event :=
  snd (run w [] (createMergeRequest repository activeTextEditor)).


(* ===================================================================== *)
(** ** Reading a trace *)
(* ===================================================================== *)

(** A git command whose first argument is [verb]. *)
Definition isGit (verb : string) (e : Event) : bool :=
  match e with
  | EvGit (v :: _) _ _ => String.eqb v verb
  | _ => false
  end.

Definition isOpen (e : Event) : bool :=
  match e with EvOpen _ _ => true | _ => false end.

Definition isShow (e : Event) : bool :=
  match e with EvShow _ _ => true | _ => false end.

(** The events that change the repository or open a page: fetch, merge,
    push, checkout, and the opening of a URL. *)
Definition acts (e : Event) : bool :=
  isGit "fetch" e || isGit "merge" e || isGit "push" e ||
  isGit "checkout" e || isOpen e.

(** No event of [t] satisfies [p]. *)
Definition none (p : Event -> bool) (t : list Event) : bool :=
  forallb (fun e => negb (p e)) t.

(** The URLs a trace opens, in order. *)
Fixpoint opened (t : list Event) : list string :=
  match t with
  | [] => []
  | EvOpen url _ :: rest => url :: opened rest
  | _ :: rest => opened rest
  end.

(** The history after the first notification of the handler. *)
Definition started : list Event := [EvShow Information msgStarting].

(** The handler arrives at step 6: the root was located as [root], the
    current branch resolved to [cur] and accepted, the root validated, the
    remote resolved to [origin] and the target branch to [target]; [h] is
    the history at that point. *)
Definition Reached (w : World) (repository : option Repository)
           (activeTextEditor : option Path) (root : Path) (cur : string)
           (origin : Remote) (target : string) (h : list Event) : Prop :=
  exists repo t1 t2 t3 t4,
    repository = Some repo /\
    run w started (locateRoot repo activeTextEditor) = (Some root, t1) /\
    run w (started ++ t1) (getCurrentBranch root) = (inr cur, t2) /\
    acceptedBranch cur = true /\
    access w (started ++ t1 ++ t2) (root ++ [".git"]) = true /\
    run w (started ++ t1 ++ t2 ++ [EvAccess (root ++ [".git"]) true])
        (getOrigin root) = (inr origin, t3) /\
    run w (started ++ t1 ++ t2 ++ [EvAccess (root ++ [".git"]) true] ++ t3)
        (getTargetBranch root (remoteName origin)) = (inr target, t4) /\
    h = started ++ t1 ++ t2 ++ [EvAccess (root ++ [".git"]) true] ++ t3 ++ t4.

(** What the [catch] of line 438 adds for the outcome of the [try] block. *)
Definition closing (r : Exn + unit) : list Event :=
  match r with
  | inl error => [EvShow Error (msgFlowFailed error)]
  | inr _ => []
  end.

(** A line of the listing of remote branches that names a branch of
    origin: after its indentation it starts with origin/. *)
Definition underOrigin (line : string) : bool :=
  String.prefix "origin/" (Js.trimStart line).

(** Validation before the branch query: whenever the current branch is
    queried, a successful file access came before. *)
Definition validatedBeforeBranchQuery (t : list Event) : Prop :=
  forall pre cwd reply post,
    t = pre ++ EvGit showCurrent cwd reply :: post ->
    exists p, In (EvAccess p true) pre.

(* ===================================================================== *)
(** ** Concrete worlds

    A scenario fixes what the repository and the user answer, whatever
    happened before. *)
(* ===================================================================== *)

Module Demo.

Definition exit0 (out err : string) : option GitResult :=
  Some (mkResult out err (Some 0%Z)).

Definition exit1 (out err : string) : option GitResult :=
  Some (mkResult out err (Some 1%Z)).

Record Scenario : Type := mkScenario
  { currentOut : string;                  (* stdout of branch --show-current *)
    config : string;                      (* the text of .git/config *)
    remoteShow : option GitResult;        (* git remote show *)
    branchR : option GitResult;           (* git branch -r *)
    merged : option GitResult;            (* git merge *)
    pushed : option GitResult;            (* git push *)
    choice : option nat }.                (* the answer to every pick list *)

Definition gitOf (s : Scenario) (args : list string) : option GitResult :=
  match args with
  | "branch" :: "--show-current" :: _ => exit0 (currentOut s) EmptyString
  | "remote" :: _ => remoteShow s
  | "branch" :: _ => branchR s
  | "fetch" :: _ => exit0 EmptyString EmptyString
  | "merge" :: _ => merged s
  | "push" :: _ => pushed s
  | "checkout" :: _ => exit0 EmptyString "Switched to branch"
  | _ => None
  end.

Definition worldOf (s : Scenario) : World :=
  mkWorld (fun _ args _ => gitOf s args)
          (fun _ _ => true)
          (fun _ _ => Some (config s))
          (fun _ _ => choice s)
          (fun _ _ => choice s)
          (fun _ _ => true).

(** The root of the examples and the handle the editor passes for it. *)
Definition root : Path := ["home"; "dev"; "proj"].
Definition handle : option Repository := Some (mkRepository (Some root)).

Definition tab : string := String (ascii_of_nat 9) EmptyString.

(** A section of a remote with its url line. *)
Definition remoteSection (name url : string) : string :=
  "[remote " +++ dquote +++ name +++ dquote +++ "]" +++ nl +++
  tab +++ "url = " +++ url +++ nl +++
  tab +++ "fetch = +refs/heads/*:refs/remotes/" +++ name +++ "/*" +++ nl.

Definition coreSection : string :=
  "[core]" +++ nl +++ tab +++ "bare = false" +++ nl.

Definition oneOrigin : string :=
  coreSection +++ remoteSection "origin" "https://example.com/group/proj.git".

Definition showMain : option GitResult :=
  exit0 ("* remote origin" +++ nl +++
         "  Fetch URL: https://example.com/group/proj.git" +++ nl +++
         "  HEAD branch: main" +++ nl) EmptyString.

Definition upToDate : option GitResult := exit0 "Already up to date." EmptyString.

(** A push that GitLab answers with the URL of the merge request. *)
Definition pushedWithUrl : option GitResult :=
  exit0 EmptyString
        ("remote: " +++ nl +++
         "remote: View merge request for feat/login:" +++ nl +++
         "remote:   https://example.com/group/proj/-/merge_requests/42" +++ nl +++
         "remote: " +++ nl +++
         "To https://example.com/group/proj.git" +++ nl).

(** A push whose output names no URL. *)
Definition pushedPlain : option GitResult :=
  exit0 EmptyString ("To https://example.com/group/proj.git" +++ nl +++
            " * [new branch]      feat/login -> feat/login" +++ nl).

(** On a branch [b], one origin, everything succeeds, the URL is printed. *)
Definition onBranch (b : string) : Scenario :=
  mkScenario (b +++ nl) oneOrigin showMain None upToDate pushedWithUrl None.

(** The same with a push that prints no URL. *)
Definition plainPush : Scenario :=
  mkScenario ("feat/login" +++ nl) oneOrigin showMain None upToDate
             pushedPlain None.

(** Two sections named origin with different URLs; the user picks the
    second entry of the list. *)
Definition urlA : string := "https://example.com/group/proj.git".
Definition urlB : string := "git@mirror.example.com:group/proj.git".

Definition twoOrigins : string :=
  coreSection +++ remoteSection "origin" urlA +++ remoteSection "origin" urlB.

Definition pickSecond : Scenario :=
  mkScenario ("feat/login" +++ nl) twoOrigins showMain None upToDate
             pushedWithUrl (Some 1).

(** A merge stopped by a conflict in a binary file: git reports the
    conflict on stdout and a warning on stderr. *)
Definition binaryConflict : GitResult :=
  mkResult
    ("Auto-merging assets/logo.png" +++ nl +++
     "CONFLICT (content): Merge conflict in assets/logo.png" +++ nl +++
     "Automatic merge failed; fix conflicts and then commit the result.")
    "warning: Cannot merge binary files: assets/logo.png (HEAD vs. origin/main)"
    (Some 1%Z).

Definition conflicting : Scenario :=
  mkScenario ("feat/login" +++ nl) oneOrigin showMain None
             (Some binaryConflict) pushedWithUrl None.

(** The remote does not advertise its HEAD; the listing has two branches
    of origin and the user picks the second. *)
Definition showUnknown : option GitResult :=
  exit0 ("* remote origin" +++ nl +++
         "  Fetch URL: https://example.com/group/proj.git" +++ nl +++
         "  HEAD branch: (unknown)" +++ nl) EmptyString.

Definition listingOrigin : option GitResult :=
  exit0 ("  origin/HEAD -> origin/main" +++ nl +++
         "  origin/main" +++ nl +++
         "  origin/develop") EmptyString.

Definition unknownHead : Scenario :=
  mkScenario ("feat/login" +++ nl) oneOrigin showUnknown listingOrigin
             upToDate pushedWithUrl (Some 1).

(** A single remote named upstream that does not advertise its HEAD; the
    listing has its two branches. *)
Definition oneUpstream : string :=
  coreSection +++ remoteSection "upstream" "https://example.com/group/proj.git".

Definition listingUpstream : GitResult :=
  mkResult ("  upstream/main" +++ nl +++ "  upstream/develop") EmptyString (Some 0%Z).

Definition upstreamOnly : Scenario :=
  mkScenario ("feat/login" +++ nl) oneUpstream
             (exit1 EmptyString "fatal: unable to access the remote")
             (Some listingUpstream) upToDate pushedWithUrl (Some 0).

End Demo.

(* ===================================================================== *)
(** ** Tactics *)
(* ===================================================================== *)

(** Case analysis on what the next [match] or [if] of the goal inspects. *)
Ltac break_match :=
  match goal with
  | |- context [match ?x with _ => _ end] =>
      lazymatch x with
      | context [match _ with _ => _ end] => fail
      | _ => destruct x eqn:?
      end
  end.

Ltac run_cases := repeat (simpl; try reflexivity; break_match).


(* ===================================================================== *)
(** ** Further readings of the source *)
(* ===================================================================== *)

(** The notifications of step 9, lines 420, 424 and 429. *)
Definition msgSwitched (target : string) : string :=
  "Switched local branch to " +++ target +++ ".".

Definition msgSwitchFailed (target : string) : string :=
  "Merge request created, but failed to switch local branch back to " +++
  target +++ ". Check Output channel.".

Definition msgSwitchError (target : string) : string :=
  "Merge request created, but encountered an error switching local branch " +++
  "back to " +++ target +++ ". Check Output channel.".

(** What follows the checkout of step 9, by its reply. *)
Definition afterCheckout (target : string) (reply : option GitResult)
  : list Event :=
  match reply with
  | Some r =>
      if exitOk r then [EvShow Information (msgSwitched target)]
      else [EvShow Warning (msgSwitchFailed target)]
  | None =>
      [ EvShow Error ("Failed to run git command: " +++
                      ("checkout " +++ target) +++
                      ". Check Output channel for details.");
        EvShow Warning (msgSwitchError target) ]
  end.


(** Every git request a program can issue, whatever the replies, satisfies
    [Q]. *)
Fixpoint allGit {A : Type} (Q : list string -> Path -> Prop) (p : Prog A)
  : Prop :=
  match p with
  | Ret _ => True
  | Git args cwd k => Q args cwd /\ forall r, allGit Q (k r)
  | FsAccess _ k => forall r, allGit Q (k r)
  | FsReadFile _ k => forall r, allGit Q (k r)
  | QuickPick _ k => forall r, allGit Q (k r)
  | QuickPickStr _ k => forall r, allGit Q (k r)
  | OpenExternal _ k => forall r, allGit Q (k r)
  | Show _ _ k => allGit Q k
  end.

(** The git commands of the source, all run in [root]: the seven argument
    lists of lines 137, 164, 220, 326, 337, 363-371 and 417. *)
Definition knownCommand (root : Path) (args : list string) (cwd : Path)
  : Prop :=
  cwd = root /\
  (args = showCurrent \/
   (exists remote, args = ["remote"; "show"; remote]) \/
   args = ["branch"; "-r"] \/
   (exists remote, args = ["fetch"; remote]) \/
   (exists ref, args = ["merge"; ref]) \/
   (exists origin target cur, args = pushArgs origin target cur) \/
   (exists target, args = ["checkout"; target])).

(** The notifications of lines 404 and 408. *)
Definition msgNavigated (cur : string) : string :=
  "Successfully pushed " +++ cur +++
  " and navigated to Merge Requests page in your browser. " +++
  "Local branch remains " +++ cur +++ ".".

Definition msgNotConfirmed (cur : string) : string :=
  "Push successful, but could not confirm Merge Request " +++
  "creation or open MR page. Please check GitLab manually. " +++
  "Local branch remains " +++ cur +++ ".".

(** What the specification says of a push that prints no URL: whenever the
    push exited with 0, its output holds no URL to take, and the URL of the
    remote resolved at step 3 is [base] followed by .git, the listing
    [base]/-/merge_requests is opened after it and no checkout follows. *)
Definition listingOpenedAfterPlainPush (w : World)
           (repository : option Repository) (ed : option Path) : Prop :=
  forall root cur origin target h pre post pushResult base,
    Reached w repository ed root cur origin target h ->
    trace w repository ed =
    pre ++ EvGit (pushArgs origin target cur) root (Some pushResult) :: post ->
    exitOk pushResult = true ->
    mrUrlOf pushResult = None ->
    remoteUrl origin = base +++ ".git" ->
    In (base +++ "/-/merge_requests") (opened post) /\
    none (isGit "checkout") post = true.

(** The git commands of steps 6 to 9 (lines 326, 337, 363-371 and 417)
    for the remote, the target branch and the current branch in use. *)
Definition publishCommand (origin : Remote) (target cur : string)
           (args : list string) : Prop :=
  args = ["fetch"; remoteName origin] \/
  args = ["merge"; remoteName origin +++ "/" +++ target] \/
  args = pushArgs origin target cur \/
  args = ["checkout"; target].

(** The directories the loop of lines 273-283 can probe, from the reversed
    segments of the directory of the active file: the directory itself,
    then each parent in turn; the file-system root (no segment) is not
    among them. *)
Fixpoint ancestorsRev (revDir : list string) : list Path :=
  match revDir with
  | [] => []
  | _ :: up => rev revDir :: ancestorsRev up
  end.

Definition ancestors (dir : Path) : list Path := ancestorsRev (rev dir).

(** The probe of [dir/.git] and its outcome. *)
Definition probe (ok : bool) (dir : Path) : Event :=
  EvAccess (dir ++ [".git"]) ok.

(** No match of [r] starts at a position inside [pre] when [pre] is
    followed by [s]. *)
Fixpoint noStart (r : Re.regex) (pre s : string) : bool :=
  match pre with
  | EmptyString => true
  | String c pre' =>
      match Re.matchHere r (pre +++ s) with
      | Some _ => false
      | None => noStart r pre' s
      end
  end.

(** The text of a section of the remote origin up to the end of its URL:
    the header with white space [s0 ss] before the name, white space [gap]
    up to the key url, white space [sp1] and [sp2] around the equals sign,
    and the URL. *)
Definition originSection (s0 : ascii) (ss gap sp1 sp2 url : string) : string :=
  "[remote" +++ String s0 ss +++
  String Re.dq ("origin" +++ String Re.dq (String "]"
    (gap +++ "url" +++ sp1 +++ String "=" (sp2 +++ url)))).

(** Lines joined by line feeds, as git prints them. *)
Fixpoint unlines (lines : list string) : string :=
  match lines with
  | [] => EmptyString
  | [l] => l
  | l :: rest => l +++ nl +++ unlines rest
  end.

(** The line of [git branch -r] for the branch [b] of origin. *)
Definition originLine (b : string) : string := "  origin/" +++ b.

(** A branch name as the expression of line 167 captures it: not empty
    and without white space. *)
Definition branchName (b : string) : bool :=
  Js.truthy b && Js.every Js.non_space b.

(** A line of a listing: a line that holds an arrow (the pointer of HEAD),
    or the line of a branch of origin. *)
Definition listingLine (x : string + string) : string :=
  match x with
  | inl pointer => pointer
  | inr b => originLine b
  end.

Fixpoint branchesOf (entries : list (string + string)) : list string :=
  match entries with
  | [] => []
  | inl _ :: rest => branchesOf rest
  | inr b :: rest => b :: branchesOf rest
  end.

Definition noLineFeed (l : string) : bool :=
  Js.every (fun c => negb (Ascii.eqb c (ascii_of_nat 10))) l.

(** A pointer line holds an arrow; a branch line holds a branch name and
    no arrow. *)
Definition listingEntry (x : string + string) : bool :=
  match x with
  | inl pointer => Js.includes "->" pointer && noLineFeed pointer
  | inr b => branchName b && negb (Js.includes "->" (originLine b))
  end.

(* ===================================================================== *)
(** ** More concrete worlds *)
(* ===================================================================== *)

Module Cases.

(** A setup fixes every reply: the output of the branch query, the
    configuration, the replies of the git commands, the answer to every
    pick list, and the one directory that holds a [.git] entry. *)
Record Setup : Type := mkSetup
  { current : string;
    config : string;
    remoteShow : option GitResult;
    branchR : option GitResult;
    fetched : option GitResult;
    merged : option GitResult;
    pushed : option GitResult;
    checkedOut : option GitResult;
    choice : option nat;
    repoAt : Path }.

Definition gitOf (s : Setup) (args : list string) : option GitResult :=
  match args with
  | "branch" :: "--show-current" :: _ => Demo.exit0 (current s) EmptyString
  | "remote" :: _ => remoteShow s
  | "branch" :: _ => branchR s
  | "fetch" :: _ => fetched s
  | "merge" :: _ => merged s
  | "push" :: _ => pushed s
  | "checkout" :: _ => checkedOut s
  | _ => None
  end.

Definition samePath (p q : Path) : bool :=
  if list_eq_dec string_dec p q then true else false.

Definition worldOf (s : Setup) : World :=
  mkWorld (fun _ args _ => gitOf s args)
          (fun _ p => samePath p (repoAt s ++ [".git"]))
          (fun _ _ => Some (config s))
          (fun _ _ => choice s)
          (fun _ _ => choice s)
          (fun _ _ => true).

Definition ok : option GitResult := Demo.exit0 EmptyString EmptyString.

(** Everything succeeds on the branch feat/login of a repository with one
    origin. *)
Definition healthy : Setup :=
  mkSetup ("feat/login" +++ nl) Demo.oneOrigin Demo.showMain None ok
          Demo.upToDate Demo.pushedWithUrl ok None Demo.root.

(** The fetch exits with 128. *)
Definition fetchFails : Setup :=
  mkSetup ("feat/login" +++ nl) Demo.oneOrigin Demo.showMain None
          (Some (mkResult EmptyString
                          "fatal: unable to access the remote" (Some 128%Z)))
          Demo.upToDate Demo.pushedWithUrl ok None Demo.root.

(** The merge stops on a conflict reported on stdout, stderr empty. *)
Definition plainConflict : GitResult :=
  mkResult
    ("Auto-merging README.md" +++ nl +++
     "CONFLICT (content): Merge conflict in README.md" +++ nl +++
     "Automatic merge failed; fix conflicts and then commit the result.")
    EmptyString (Some 1%Z).

Definition mergeConflicts : Setup :=
  mkSetup ("feat/login" +++ nl) Demo.oneOrigin Demo.showMain None ok
          (Some plainConflict) Demo.pushedWithUrl ok None Demo.root.

(** The push is rejected by the server. *)
Definition pushRejected : GitResult :=
  mkResult EmptyString
           "remote: GitLab: You are not allowed to push code to this project."
           (Some 1%Z).

Definition pushFails : Setup :=
  mkSetup ("feat/login" +++ nl) Demo.oneOrigin Demo.showMain None ok
          Demo.upToDate (Some pushRejected) ok None Demo.root.

(** The checkout of the target branch fails. *)
Definition checkoutRefused : GitResult :=
  mkResult EmptyString
           "error: Your local changes would be overwritten by checkout"
           (Some 1%Z).

Definition checkoutFails : Setup :=
  mkSetup ("feat/login" +++ nl) Demo.oneOrigin Demo.showMain None ok
          Demo.upToDate Demo.pushedWithUrl (Some checkoutRefused) None
          Demo.root.

(** The branch query prints nothing (a detached HEAD). *)
Definition detached : Setup :=
  mkSetup EmptyString Demo.oneOrigin Demo.showMain None ok
          Demo.upToDate Demo.pushedWithUrl ok None Demo.root.

(** Two remotes, none named origin; the user picks the second. *)
Definition twoRemotes : string :=
  Demo.coreSection +++
  Demo.remoteSection "upstream" "https://example.com/group/proj.git" +++
  Demo.remoteSection "fork" "https://example.com/me/proj.git".

Definition pickFork : Setup :=
  mkSetup ("feat/login" +++ nl) twoRemotes Demo.showMain None ok
          Demo.upToDate Demo.pushedWithUrl ok (Some 1) Demo.root.

(** The same two remotes with the prompt dismissed. *)
Definition dismissed : Setup :=
  mkSetup ("feat/login" +++ nl) twoRemotes Demo.showMain None ok
          Demo.upToDate Demo.pushedWithUrl ok None Demo.root.

(** A configuration without any remote. *)
Definition noRemote : Setup :=
  mkSetup ("feat/login" +++ nl) Demo.coreSection Demo.showMain None ok
          Demo.upToDate Demo.pushedWithUrl ok None Demo.root.

(** A directory that is no repository, and a file below it. *)
Definition elsewhere : Path := ["home"; "dev"; "notes"].
Definition strayFile : Path := elsewhere ++ ["todo.md"].

(** Two sections of origin and a push that prints no URL: the prompt of
    step 3 is answered with the first entry, the prompt that line 398
    brings up after the push is dismissed. *)
Definition plainTwoOrigins : Setup :=
  mkSetup ("feat/login" +++ nl) Demo.twoOrigins Demo.showMain None ok
          Demo.upToDate Demo.pushedPlain ok None Demo.root.

Definition askedTwice : World :=
  mkWorld (fun _ args _ => gitOf plainTwoOrigins args)
          (fun _ p => samePath p (Demo.root ++ [".git"]))
          (fun _ _ => Some Demo.twoOrigins)
          (fun h _ => if existsb (isGit "push") h then None else Some 0)
          (fun _ _ => None)
          (fun _ _ => true).

(** One remote given by its SSH address, a push that prints no URL, and an
    editor that cannot open what is made of that address. *)
Definition sshOrigin : string :=
  Demo.coreSection +++ Demo.remoteSection "origin" Demo.urlB.

Definition sshPlain : Setup :=
  mkSetup ("feat/login" +++ nl) sshOrigin Demo.showMain None ok
          Demo.upToDate Demo.pushedPlain ok None Demo.root.

Definition cannotOpen : World :=
  mkWorld (fun _ args _ => gitOf sshPlain args)
          (fun _ p => samePath p (Demo.root ++ [".git"]))
          (fun _ _ => Some sshOrigin)
          (fun _ _ => None)
          (fun _ _ => None)
          (fun _ _ => false).

(** An active file two directories below the repository. *)
Definition activeFile : Path := Demo.root ++ ["src"; "ui"; "panel.js"].

End Cases.

(** Solves a goal [Reached] in a concrete world by running the steps. *)
Ltac reached_here :=
  unfold Reached; do 5 eexists;
  repeat (split; [first [reflexivity | vm_compute; reflexivity] |]);
  reflexivity.

(** No request of a program, whatever the replies, opens a URL. *)
Fixpoint neverOpens {A : Type} (p : Prog A) : Prop :=
  match p with
  | Ret _ => True
  | Git _ _ k => forall r, neverOpens (k r)
  | FsAccess _ k => forall r, neverOpens (k r)
  | FsReadFile _ k => forall r, neverOpens (k r)
  | QuickPick _ k => forall r, neverOpens (k r)
  | QuickPickStr _ k => forall r, neverOpens (k r)
  | OpenExternal _ _ => False
  | Show _ _ k => neverOpens k
  end.

(* ===================================================================== *)
(** ** The first version of the extension

    [src/unnamed/part_002] is the earlier text of [extension.js].
    [runGitCommand] and [getCurrentBranch] are the same text as in the
    later version; [getTargetBranch] is the later text with [origin] in
    place of [remoteName]; [getOriginUrl] and the handler differ. *)
(* ===================================================================== *)

Module First.

(** The matches of [remoteOriginRegex] at lines 65-68:
    [originUrls.push(match[1])]. *)
Definition originUrlsOf (configContent : string) : list string :=
  map (fun caps => nth 0 caps EmptyString)
      (Re.execAll Re.remoteOriginRegex 0 configContent).

Definition noOriginUrl : Exn :=
  "No remote " +++ dquote +++ "origin" +++ dquote +++
  " URL found in .git/config.".

Definition originCancelled : Exn := "Origin selection cancelled by user.".

(** [getOriginUrl(workspaceRoot)], lines 50-94.  The pick list holds the
    URLs themselves and the picked one is returned. *)
Definition getOriginUrl (workspaceRoot : Path) : M string :=
  FsReadFile (workspaceRoot ++ [".git"; "config"]) (fun r =>
    match r with
    | None => throw "Could not read .git/config file."
    | Some configContent =>
        match originUrlsOf configContent with
        | [] => throw noOriginUrl
        | [only] => ret only
        | originUrls =>
            QuickPickStr originUrls (fun reply =>
              match picked originUrls reply with
              | Some selectedUrl =>
                  if Js.truthy selectedUrl then ret selectedUrl
                  else throw originCancelled
              | None => throw originCancelled
              end)
        end
    end).

(** [getTargetBranch(workspaceRoot)], lines 104-182. *)
Definition getTargetBranch (workspaceRoot : Path) : M string :=
  getTargetBranch workspaceRoot "origin".

(** Lines 306-312. *)
Definition pushArgs (targetBranch currentBranch : string) : list string :=
  [ "push"; "origin"; currentBranch;
    "-o"; "merge_request.create";
    "-o"; "merge_request.target=" +++ targetBranch ].

(** Lines 283-301: the notification after a merge that did not exit with
    0. *)
Definition mergeFailureMessage (targetBranch : string)
           (mergeResult : GitResult) : string :=
  let errorOutput := errorOutputOf mergeResult in
  if Js.includes "Merge conflict" errorOutput ||
     Js.includes conflictMarker errorOutput
  then msgMergeConflict
  else if Js.includes
            "fatal: Need to specify how to reconcile divergent branches."
            errorOutput
  then msgDivergent
  else msgMergeFailed "origin" targetBranch.

Definition msgPushed (targetBranch currentBranch : string) : string :=
  "Successfully pushed " +++ currentBranch +++
  " and initiated Merge Request creation targeting " +++ targetBranch +++ ".".

(** Steps 6 and 7, lines 267-323. *)
Definition syncAndPush (workspaceRoot : Path)
           (targetBranch currentBranch : string) : M unit :=
  fetchResult <- runGitCommand ["fetch"; "origin"] workspaceRoot
                               "fetch origin" ;;
  if negb (exitOk fetchResult) then
    show Error "Git fetch from origin failed. Check Output channel for details."
         (ret tt)
  else
    mergeResult <- runGitCommand ["merge"; "origin/" +++ targetBranch]
                                 workspaceRoot
                                 ("merge origin/" +++ targetBranch) ;;
    if negb (exitOk mergeResult) then
      show Error (mergeFailureMessage targetBranch mergeResult) (ret tt)
    else
      pushResult <- runGitCommand (pushArgs targetBranch currentBranch)
                                  workspaceRoot
                                  "push and create merge request" ;;
      if exitOk pushResult then
        show Information (msgPushed targetBranch currentBranch) (ret tt)
      else
        show Error
             ("Failed to push or create Merge Request. Exit Code: " +++
              showExitCode (exitCode pushResult) +++
              ". Check Output channel for details.")
             (ret tt).

(** Steps 3 to 7, lines 255-323, in a repository. *)
Definition fromRepository (workspaceRoot : Path) : M unit :=
  originUrl <- getOriginUrl workspaceRoot ;;
  targetBranch <- getTargetBranch workspaceRoot ;;
  currentBranch <- getCurrentBranch workspaceRoot ;;
  syncAndPush workspaceRoot targetBranch currentBranch.

(** The [try] block of lines 235-325; [workspaceFolders] is [None] for
    [undefined]. *)
Definition flow (workspaceFolders : option (list Path)) : M unit :=
  match workspaceFolders with
  | Some (workspaceRoot :: _) =>
      FsAccess (workspaceRoot ++ [".git"]) (fun ok =>
        if ok then fromRepository workspaceRoot
        else show Error "Current workspace is not a Git repository." (ret tt))
  | _ => show Error "No workspace folder open." (ret tt)
  end.

(** The handler of the command, lines 230-329. *)
Definition createMergeRequest (workspaceFolders : option (list Path))
  : M unit :=
  show Information msgStarting
    (tryCatch (flow workspaceFolders) (fun error =>
       show Error (msgFlowFailed error) (ret tt))).

Definition trace (w : World) (workspaceFolders : option (list Path))
  : list Event :=
  snd (run w [] (createMergeRequest workspaceFolders)).

(** The git commands of this version, all run in [root]. *)
Definition knownCommand (root : Path) (args : list string) (cwd : Path)
  : Prop :=
  cwd = root /\
  (args = showCurrent \/
   args = ["remote"; "show"; "origin"] \/
   args = ["branch"; "-r"] \/
   args = ["fetch"; "origin"] \/
   (exists target, args = ["merge"; "origin/" +++ target]) \/
   (exists target cur,
       args = [ "push"; "origin"; cur; "-o"; "merge_request.create";
                "-o"; "merge_request.target=" +++ target ])).

End First.
(* ===================================================================== *)
(** ** Facts on strings *)
(* ===================================================================== *)

Lemma substring_prefix (a b : string) :
  substring 0 (String.length a) (a +++ b) = a.
Proof.
  induction a as [| c a IH]; cbn.
  - destruct b; reflexivity.
  - now rewrite IH.
Qed.

Lemma substring_suffix (a b : string) :
  substring (String.length a) (String.length b) (a +++ b) = b.
Proof.
  induction a as [| c a IH]; cbn.
  - induction b as [| c b IHb]; cbn; [reflexivity | now rewrite IHb].
  - exact IH.
Qed.

Lemma length_append (a b : string) :
  String.length (a +++ b) = String.length a + String.length b.
Proof. induction a as [| c a IH]; cbn; [reflexivity | now rewrite IH]. Qed.

(** What a match of the expression for the remote branches says of the
    line. *)
Lemma matchAt_Star (p : ascii -> bool) (r : Re.regex) (s : string)
      (cur : option string) (caps : list string) :
  Re.matchAt (Re.Star p :: r) s cur caps =
  match s with
  | String x s' =>
      if p x then
        match Re.matchAt (Re.Star p :: r) s' (Re.push cur x) caps with
        | Some m => Some m
        | None => Re.matchAt r s cur caps
        end
      else Re.matchAt r s cur caps
  | EmptyString => Re.matchAt r s cur caps
  end.
Proof. destruct s; reflexivity. Qed.

Lemma matchAt_lits_prefix (p : string) (r : Re.regex) :
  forall s cur caps m,
    Re.matchAt (Re.lits p ++ r) s cur caps = Some m ->
    String.prefix p s = true.
Proof.
  induction p as [| c p IH]; intros s cur caps m H.
  - destruct s; reflexivity.
  - cbn in H. destruct s as [| x s]; [discriminate |].
    destruct (Ascii.eqb c x) eqn:Ec; [| discriminate].
    apply Ascii.eqb_eq in Ec. subst x. cbn.
    destruct (ascii_dec c c) as [_ | N]; [| congruence].
    eapply IH; eauto.
Qed.

Lemma spaces_then_lits (c : ascii) (p : string) (r : Re.regex) :
  Js.is_space c = false ->
  forall s cur caps m,
    Re.matchAt (Re.Star Js.is_space :: Re.lits (String c p) ++ r) s cur caps
    = Some m ->
    String.prefix (String c p) (Js.trimStart s) = true.
Proof.
  intros Hc. induction s as [| x s IH]; intros cur caps m H;
    rewrite matchAt_Star in H.
  - apply matchAt_lits_prefix in H. exact H.
  - cbn [Js.trimStart]. destruct (Js.is_space x) eqn:Sx.
    + destruct (Re.matchAt _ s (Re.push cur x) caps) as [m' |] eqn:E.
      * eapply IH; eauto.
      * apply matchAt_lits_prefix in H. cbn in H.
        destruct (ascii_dec c x) as [-> | N]; [congruence | discriminate].
    + apply matchAt_lits_prefix in H. exact H.
Qed.

Lemma append_assoc (a b c : string) : (a +++ b) +++ c = a +++ b +++ c.
Proof. induction a as [| x a IH]; cbn; [reflexivity | now rewrite IH]. Qed.

Lemma append_empty_r (a : string) : a +++ EmptyString = a.
Proof. induction a as [| x a IH]; cbn; [reflexivity | now rewrite IH]. Qed.

Lemma pushAll_push (cur : option string) (x : ascii) (a : string) :
  Re.pushAll (Re.push cur x) a = Re.pushAll cur (String x a).
Proof.
  destruct cur as [g |]; cbn; [| reflexivity].
  now rewrite append_assoc.
Qed.

(** A greedy class star that can take all of [a] and must stop after it
    does so when the rest of the expression then matches. *)
Lemma star_takes_all (p : ascii -> bool) (r : Re.regex) (s : string)
      (caps : list string) (m : list string * string) :
  Js.stopsAt p s = true ->
  forall a cur,
    Js.every p a = true ->
    Re.matchAt r s (Re.pushAll cur a) caps = Some m ->
    Re.matchAt (Re.Star p :: r) (a +++ s) cur caps = Some m.
Proof.
  intros Stop. induction a as [| x a IH]; intros cur Ev H.
  - cbn [String.append]. rewrite matchAt_Star.
    assert (Re.pushAll cur EmptyString = cur) as E
        by (destruct cur; cbn; [now rewrite append_empty_r | reflexivity]).
    rewrite E in H.
    destruct s as [| y s]; [exact H |].
    cbn in Stop. apply negb_true_iff in Stop. now rewrite Stop.
  - cbn [String.append]. rewrite matchAt_Star.
    cbn in Ev. apply andb_true_iff in Ev as [Px Ev]. rewrite Px.
    rewrite (IH (Re.push cur x) Ev); [reflexivity |].
    now rewrite pushAll_push.
Qed.

Lemma eqI_refl (c : ascii) : Re.eqI c c = true.
Proof. unfold Re.eqI. apply Ascii.eqb_refl. Qed.

Lemma matchAt_litsI (p : string) (r : Re.regex) (s : string)
      (caps : list string) :
  forall cur,
    Re.matchAt (Re.litsI p ++ r) (p +++ s) cur caps =
    Re.matchAt r s (Re.pushAll cur p) caps.
Proof.
  induction p as [| c p IH]; intro cur.
  - cbn. destruct cur; cbn; [now rewrite append_empty_r | reflexivity].
  - cbn [Re.litsI list_ascii_of_string map app String.append Re.matchAt].
    rewrite eqI_refl. fold (Re.litsI p). rewrite IH, pushAll_push.
    reflexivity.
Qed.

Lemma matchAt_One (p : ascii -> bool) (r : Re.regex) (x : ascii)
      (s : string) (cur : option string) (caps : list string) :
  p x = true ->
  Re.matchAt (Re.One p :: r) (String x s) cur caps =
  Re.matchAt r s (Re.push cur x) caps.
Proof. intro H. cbn [Re.matchAt]. now rewrite H. Qed.

Lemma matchAt_OptI_skip (c : ascii) (r : Re.regex) (x : ascii) (s : string)
      (cur : option string) (caps : list string) :
  Re.eqI c x = false ->
  Re.matchAt (Re.OptI c :: r) (String x s) cur caps =
  Re.matchAt r (String x s) cur caps.
Proof. intro H. cbn [Re.matchAt]. now rewrite H. Qed.

Lemma matchAt_OptI_take (c : ascii) (r : Re.regex) (x : ascii) (s : string)
      (cur : option string) (caps : list string)
      (m : list string * string) :
  Re.eqI c x = true ->
  Re.matchAt r s (Re.push cur x) caps = Some m ->
  Re.matchAt (Re.OptI c :: r) (String x s) cur caps = Some m.
Proof. intros H M. cbn [Re.matchAt]. now rewrite H, M. Qed.

(** The expression of line 380 at a remote: line: after remote: and some
    white space, a URL with the scheme http or https is captured up to the
    next white space. *)
Lemma urlRegex_at_remote (secure : bool) (w0 : ascii) (ws : string)
      (b0 : ascii) (body rest : string) :
  Js.is_space w0 = true -> Js.every Js.is_space ws = true ->
  Js.non_space b0 = true -> Js.every Js.non_space body = true ->
  Js.stopsAt Js.non_space rest = true ->
  let url := (if secure then "https://" else "http://") +++ String b0 body in
  Re.matchHere Re.urlRegex
               ("remote:" +++ String w0 ws +++ url +++ rest) =
  Some ([url], rest).
Proof.
  intros Hw Hws Hb Hbody Hrest url.
  unfold Re.matchHere, Re.urlRegex.
  rewrite matchAt_litsI. cbn [Re.pushAll app].
  change (String w0 ws +++ url +++ rest)
    with (String w0 (ws +++ url +++ rest)).
  rewrite matchAt_One by exact Hw. cbn [Re.push].
  apply star_takes_all; [| exact Hws |].
  { subst url. destruct secure; reflexivity. }
  cbn [Re.pushAll Re.matchAt].
  assert (forall scheme,
             Re.matchAt [Re.One Js.non_space; Re.Star Js.non_space; Re.GClose]
                        (String b0 body +++ rest) (Some scheme) [] =
             Some ([scheme +++ String b0 body], rest)) as Tail.
  { intro scheme.
    change (String b0 body +++ rest) with (String b0 (body +++ rest)).
    rewrite matchAt_One by exact Hb. cbn [Re.push].
    apply star_takes_all; auto.
    cbn. now rewrite append_assoc. }
  subst url. destruct secure; rewrite append_assoc.
  - change ("https://" +++ String b0 body +++ rest)
      with ("http" +++ String "s" ("://" +++ String b0 body +++ rest)).
    rewrite matchAt_litsI. cbn [Re.pushAll app String.append].
    apply matchAt_OptI_take; [reflexivity |].
    change (String ":" (String "/" (String "/" (String b0 (body +++ rest)))))
      with ("://" +++ String b0 body +++ rest).
    rewrite matchAt_litsI. cbn [Re.pushAll Re.push String.append].
    apply (Tail "https://").
  - change ("http://" +++ String b0 body +++ rest)
      with ("http" +++ String ":" ("//" +++ String b0 body +++ rest)).
    rewrite matchAt_litsI. cbn [Re.pushAll app String.append].
    rewrite matchAt_OptI_skip by reflexivity.
    change (String ":" (String "/" (String "/" (String b0 (body +++ rest)))))
      with ("://" +++ String b0 body +++ rest).
    rewrite matchAt_litsI. cbn [Re.pushAll String.append].
    apply (Tail "http://").
Qed.

(** [search] returns the groups of the leftmost match. *)
Lemma search_leftmost (r : Re.regex) (s : string) (caps : list string)
      (rest : string) :
  Re.matchHere r s = Some (caps, rest) ->
  forall a,
    (forall a1 a2, a = a1 +++ a2 -> a2 <> EmptyString ->
                   Re.matchHere r (a2 +++ s) = None) ->
    Re.search r (a +++ s) = Some caps.
Proof.
  intros M. induction a as [| x a IH]; intro No.
  - cbn [String.append]. destruct s; cbn; now rewrite M.
  - cbn [String.append Re.search].
    assert (Re.matchHere r (String x (a +++ s)) = None) as N
        by (apply (No EmptyString (String x a)); [reflexivity | discriminate]).
    rewrite N. apply IH. intros a1 a2 E Ne.
    apply (No (String x a1) a2); [cbn; now rewrite E | exact Ne].
Qed.


(* ===================================================================== *)
(** ** Running composed programs *)
(* ===================================================================== *)

Section RunLaws.

Variable w : World.

Lemma run_bind (A B : Type) (m : Prog A) (f : A -> Prog B) :
  forall h,
    run w h (bind m f) =
    let (a, t1) := run w h m in
    let (b, t2) := run w (h ++ t1) (f a) in (b, t1 ++ t2).
Proof.
  induction m as [a | args cwd k IH | p k IH | p k IH | items k IH
                  | items k IH | url k IH | lvl msg k IH];
    intro h; simpl.
  - rewrite app_nil_r. destruct (run w h (f a)); reflexivity.
  - rewrite IH. destruct (run w _ (k _)) as [a t1].
    rewrite <- app_assoc. simpl. destruct (run w _ (f a)); reflexivity.
  - rewrite IH. destruct (run w _ (k _)) as [a t1].
    rewrite <- app_assoc. simpl. destruct (run w _ (f a)); reflexivity.
  - rewrite IH. destruct (run w _ (k _)) as [a t1].
    rewrite <- app_assoc. simpl. destruct (run w _ (f a)); reflexivity.
  - rewrite IH. destruct (run w _ (k _)) as [a t1].
    rewrite <- app_assoc. simpl. destruct (run w _ (f a)); reflexivity.
  - rewrite IH. destruct (run w _ (k _)) as [a t1].
    rewrite <- app_assoc. simpl. destruct (run w _ (f a)); reflexivity.
  - rewrite IH. destruct (run w _ (k _)) as [a t1].
    rewrite <- app_assoc. simpl. destruct (run w _ (f a)); reflexivity.
  - rewrite IH. destruct (run w _ k) as [a t1].
    rewrite <- app_assoc. simpl. destruct (run w _ (f a)); reflexivity.
Qed.

Lemma run_bindE (A B : Type) (m : M A) (f : A -> M B) (h : list Event) :
  run w h (bindE m f) =
  match run w h m with
  | (inl e, t1) => (inl e, t1)
  | (inr a, t1) => let (b, t2) := run w (h ++ t1) (f a) in (b, t1 ++ t2)
  end.
Proof.
  unfold bindE. rewrite run_bind.
  destruct (run w h m) as [[e | a] t1]; simpl.
  - rewrite app_nil_r. reflexivity.
  - reflexivity.
Qed.

Lemma run_tryCatch (A : Type) (m : M A) (c : Exn -> M A) (h : list Event) :
  run w h (tryCatch m c) =
  match run w h m with
  | (inl e, t1) => let (b, t2) := run w (h ++ t1) (c e) in (b, t1 ++ t2)
  | (inr a, t1) => (inr a, t1)
  end.
Proof.
  unfold tryCatch. rewrite run_bind.
  destruct (run w h m) as [[e | a] t1]; simpl.
  - reflexivity.
  - rewrite app_nil_r. reflexivity.
Qed.

End RunLaws.

(* ===================================================================== *)
(** ** The helpers leave the repository alone *)
(* ===================================================================== *)

Lemma none_app (p : Event -> bool) (a b : list Event) :
  none p (a ++ b) = none p a && none p b.
Proof. unfold none. apply forallb_app. Qed.

Lemma none_cons (p : Event -> bool) (e : Event) (t : list Event) :
  none p (e :: t) = negb (p e) && none p t.
Proof. reflexivity. Qed.

Lemma none_In (p : Event -> bool) (t : list Event) (e : Event) :
  none p t = true -> In e t -> p e = false.
Proof.
  unfold none. rewrite forallb_forall. intros H Hin.
  apply H in Hin. now apply negb_true_iff in Hin.
Qed.

(** An event that satisfies [p] and is the only one of its list that does
    is found at one place only. *)
Lemma only_occurrence (p : Event -> bool) (a c : list Event) (y : Event) :
  none p a = true -> none p c = true ->
  forall pre x post,
    a ++ y :: c = pre ++ x :: post -> p x = true ->
    pre = a /\ x = y /\ post = c.
Proof.
  intros Ha Hc. induction a as [| a0 a IH]; intros pre x post E Hx.
  - destruct pre as [| p0 pre]; simpl in E.
    + inversion E; subst. auto.
    + inversion E; subst.
      assert (p x = false) as F
          by (apply (none_In p (pre ++ x :: post)); auto using in_elt).
      congruence.
  - simpl in Ha. apply andb_true_iff in Ha as [Ha0 Ha].
    destruct pre as [| p0 pre]; simpl in E.
    + inversion E; subst. rewrite Hx in Ha0. discriminate.
    + inversion E; subst.
      destruct (IH Ha pre x post H1 Hx) as (-> & -> & ->). auto.
Qed.

Lemma none_weaken (p q : Event -> bool) (t : list Event) :
  (forall e, p e = true -> q e = true) -> none q t = true -> none p t = true.
Proof.
  intros Hpq. unfold none. rewrite !forallb_forall. intros H e Hin.
  specialize (H e Hin). destruct (p e) eqn:P; auto.
  rewrite (Hpq e P) in H. discriminate.
Qed.

Lemma acts_push (e : Event) : isGit "push" e = true -> acts e = true.
Proof. unfold acts. intros ->. now rewrite !orb_true_r. Qed.

Lemma acts_checkout (e : Event) : isGit "checkout" e = true -> acts e = true.
Proof. unfold acts. intros ->. now rewrite !orb_true_r. Qed.

Lemma acts_open (e : Event) : isOpen e = true -> acts e = true.
Proof. unfold acts. intros ->. now rewrite !orb_true_r. Qed.

Arguments Js.includes : simpl never.
Arguments Js.startsWith : simpl never.
Arguments Js.endsWith : simpl never.
Arguments Js.dropLast : simpl never.
Arguments Js.trim : simpl never.
Arguments Js.split : simpl never.
Arguments Js.orElse : simpl never.
Arguments Js.truthy : simpl never.
Arguments Re.search : simpl never.
Arguments Re.matchHere : simpl never.
Arguments Re.execAll : simpl never.
Arguments String.append : simpl never.
Arguments String.eqb : simpl never.
Arguments originRemotesOf : simpl never.
Arguments allRemotesOf : simpl never.
Arguments remoteBranchesOf : simpl never.
Arguments headBranchOf : simpl never.
Arguments mrUrlOf : simpl never.
Arguments exitOk : simpl never.
Arguments acceptedBranch : simpl never.
Arguments mergeFailureMessage : simpl never.
Arguments constructedMrUrl : simpl never.
Arguments showExitCode : simpl never.
Arguments pushArgs : simpl never.
Arguments findByName : simpl never.
Arguments picked : simpl never.
Arguments remoteItems : simpl never.
Arguments none : simpl never.
Arguments runGitCommand : simpl never.
Arguments selectRemote : simpl never.
Arguments getOrigin : simpl never.
Arguments advertisedHead : simpl never.
Arguments listAndPick : simpl never.
Arguments fallbackTargetBranch : simpl never.
Arguments getTargetBranch : simpl never.
Arguments getCurrentBranch : simpl never.
Arguments locateRoot : simpl never.
Arguments switchToTarget : simpl never.
Arguments openListing : simpl never.
Arguments openCreated : simpl never.
Arguments pushAndCreate : simpl never.
Arguments syncAndPublish : simpl never.
Arguments automatedFlow : simpl never.
Arguments fromRoot : simpl never.

(** Goals saying that a list of events has none of some kind. *)
Ltac quiet :=
  unfold ret, throw, show; cbn [run snd fst app];
  repeat (rewrite none_cons || rewrite none_app);
  repeat match goal with
         | H : none _ _ = true |- _ => rewrite H
         end;
  try reflexivity.

Section Helpers.

Variable w : World.

Lemma run_runGitCommand (args : list string) (cwd : Path) (desc : string)
      (h : list Event) :
  run w h (runGitCommand args cwd desc) =
  match git w h args cwd with
  | Some result => (inr result, [EvGit args cwd (Some result)])
  | None =>
      (inl ("Git command failed: " +++ desc),
       [EvGit args cwd None;
        EvShow Error ("Failed to run git command: " +++ desc +++
                      ". Check Output channel for details.")])
  end.
Proof.
  unfold runGitCommand. simpl. destruct (git w h args cwd); reflexivity.
Qed.

Lemma getOrigin_quiet (root : Path) (h : list Event) :
  none acts (snd (run w h (getOrigin root))) = true.
Proof. unfold getOrigin, selectRemote, ret, throw. run_cases. Qed.

Lemma advertisedHead_quiet (root : Path) (remote : string) (h : list Event) :
  none acts (snd (run w h (advertisedHead root remote))) = true.
Proof.
  unfold advertisedHead. rewrite run_bind, run_runGitCommand.
  run_cases.
Qed.

Lemma listAndPick_quiet (root : Path) (h : list Event) :
  none acts (snd (run w h (listAndPick root))) = true.
Proof.
  unfold listAndPick. rewrite run_bindE, run_runGitCommand.
  unfold ret, throw. run_cases.
Qed.

Lemma fallbackTargetBranch_quiet (root : Path) (h : list Event) :
  none acts (snd (run w h (fallbackTargetBranch root))) = true.
Proof.
  unfold fallbackTargetBranch. rewrite run_tryCatch.
  pose proof (listAndPick_quiet root h) as Q.
  destruct (run w h (listAndPick root)) as [[e | b] t]; simpl in *; auto.
  unfold throw. destruct (Js.includes _ e); simpl; rewrite app_nil_r; auto.
Qed.

Lemma getTargetBranch_quiet (root : Path) (remote : string) (h : list Event) :
  none acts (snd (run w h (getTargetBranch root remote))) = true.
Proof.
  unfold getTargetBranch. rewrite run_bind.
  pose proof (advertisedHead_quiet root remote h) as Q1.
  destruct (run w h (advertisedHead root remote)) as [[b |] t]; cbn [snd] in *.
  - simpl. rewrite app_nil_r. auto.
  - pose proof (fallbackTargetBranch_quiet root (h ++ t)) as Q2.
    destruct (run w (h ++ t) (fallbackTargetBranch root)) as [r t2].
    cbn [snd] in *. rewrite none_app, Q1, Q2. reflexivity.
Qed.

Lemma getCurrentBranch_quiet (root : Path) (h : list Event) :
  none acts (snd (run w h (getCurrentBranch root))) = true.
Proof.
  unfold getCurrentBranch. rewrite run_tryCatch, run_bindE, run_runGitCommand.
  unfold ret, throw. run_cases.
Qed.

Lemma findGitRootRev_quiet (revDir : list string) :
  forall h, none acts (snd (run w h (findGitRootRev revDir))) = true.
Proof.
  induction revDir as [| d up IH]; intro h; simpl; auto.
  destruct (access w h _); simpl; auto.
  specialize (IH (h ++ [EvAccess ((rev up ++ [d]) ++ [".git"]) false])).
  destruct (run w _ (findGitRootRev up)); simpl in *; auto.
Qed.

Lemma locateRoot_quiet (repo : Repository) (ed : option Path) (h : list Event) :
  none acts (snd (run w h (locateRoot repo ed))) = true.
Proof.
  unfold locateRoot. destruct (rootUri repo); simpl; auto.
  destruct ed; simpl; auto. apply findGitRootRev_quiet.
Qed.

End Helpers.

(* ===================================================================== *)
(** ** The steps after the remote and the branches are resolved *)
(* ===================================================================== *)

Section Steps.

Variable w : World.

(** Step 9 issues the checkout and then only notifies; it never throws. *)
Lemma run_switchToTarget (root : Path) (target : string) (h : list Event) :
  exists shows,
    run w h (switchToTarget root target) =
    (inr tt,
     EvGit ["checkout"; target] root (git w h ["checkout"; target] root)
     :: shows) /\
    forallb isShow shows = true.
Proof.
  unfold switchToTarget.
  rewrite run_tryCatch, run_bindE, run_runGitCommand.
  destruct (git w h ["checkout"; target] root) as [r |].
  - destruct (exitOk r); simpl; eexists; split; reflexivity.
  - simpl. eexists; split; reflexivity.
Qed.

(** The URL was found: it is opened, a notification follows, then step 9. *)
Lemma run_openCreated (root : Path) (target cur url : string) (h : list Event) :
  exists msg shows,
    let ok := openUrl w h url in
    let h' := h ++ [EvOpen url ok; EvShow Information msg] in
    run w h (openCreated root target cur url) =
    (inr tt,
     EvOpen url ok :: EvShow Information msg ::
     EvGit ["checkout"; target] root (git w h' ["checkout"; target] root)
     :: shows) /\
    forallb isShow shows = true.
Proof.
  unfold openCreated, show. cbn.
  rewrite <- app_assoc. cbn.
  match goal with
  | |- context [run w ?hh (switchToTarget root target)] =>
      destruct (run_switchToTarget root target hh) as (shows & E & S)
  end.
  rewrite E. eexists; exists shows. split; [reflexivity | exact S].
Qed.

(** No URL was found: the remote is resolved again; when that succeeds its
    listing URL is opened; nothing else is done and nothing is thrown. *)
Lemma run_openListing (root : Path) (cur : string) (h : list Event) :
  match run w h (getOrigin root) with
  | (inr origin, tO) =>
      exists shows,
        run w h (openListing root cur) =
        (inr tt,
         tO ++ EvOpen (constructedMrUrl (remoteUrl origin))
                      (openUrl w (h ++ tO) (constructedMrUrl (remoteUrl origin)))
               :: shows) /\
        forallb isShow shows = true
  | (inl _, tO) =>
      exists shows,
        run w h (openListing root cur) = (inr tt, tO ++ shows) /\
        forallb isShow shows = true
  end.
Proof.
  unfold openListing. rewrite run_tryCatch, run_bindE.
  destruct (run w h (getOrigin root)) as [[e | origin] tO].
  - simpl. eexists; split; reflexivity.
  - simpl. destruct (openUrl w (h ++ tO) _); simpl.
    + eexists; split; reflexivity.
    + eexists; split; [rewrite <- app_assoc; reflexivity | reflexivity].
Qed.

Lemma shows_none (p : Event -> bool) (shows : list Event) :
  (forall lvl msg, p (EvShow lvl msg) = false) ->
  forallb isShow shows = true -> none p shows = true.
Proof.
  intros Hp. unfold none. rewrite !forallb_forall. intros H e Hin.
  specialize (H e Hin). destruct e; try discriminate. now rewrite Hp.
Qed.

Lemma openListing_no_git (root : Path) (cur : string) (h : list Event) :
  fst (run w h (openListing root cur)) = inr tt /\
  none (isGit "push") (snd (run w h (openListing root cur))) = true /\
  none (isGit "checkout") (snd (run w h (openListing root cur))) = true.
Proof.
  pose proof (run_openListing root cur h) as R.
  pose proof (getOrigin_quiet w root h) as Q.
  destruct (run w h (getOrigin root)) as [[e | origin] tO];
    destruct R as (shows & -> & S); cbn [fst snd] in *; split; auto.
  - rewrite !none_app.
    rewrite (@none_weaken _ _ _ acts_push Q), (@none_weaken _ _ _ acts_checkout Q).
    rewrite !shows_none; auto.
  - rewrite !none_app.
    rewrite (@none_weaken _ _ _ acts_push Q), (@none_weaken _ _ _ acts_checkout Q).
    rewrite !none_cons. cbn [isGit negb andb].
    rewrite !shows_none; auto.
Qed.

(** Step 7 and what follows it, by the reply to the push. *)
Lemma run_pushAndCreate (root : Path) (origin : Remote) (target cur : string)
      (h : list Event) :
  let reply := git w h (pushArgs origin target cur) root in
  let ev := EvGit (pushArgs origin target cur) root reply in
  run w h (pushAndCreate root origin target cur) =
  match reply with
  | Some pushResult =>
      if exitOk pushResult then
        match mrUrlOf pushResult with
        | Some mrUrl =>
            let (r, t) := run w (h ++ [ev]) (openCreated root target cur mrUrl)
            in (r, ev :: t)
        | None =>
            let (r, t) := run w (h ++ [ev]) (openListing root cur)
            in (r, ev :: t)
        end
      else
        (inr tt,
         [ev; EvShow Error
                ("Failed to push or create Merge Request. Exit Code: " +++
                 showExitCode (exitCode pushResult) +++
                 ". Check Output channel for details.")])
  | None =>
      (inl "Git command failed: push and create merge request",
       [ev; EvShow Error
              ("Failed to run git command: push and create merge request" +++
               ". Check Output channel for details.")])
  end.
Proof.
  intros reply ev. unfold pushAndCreate.
  rewrite run_bindE, run_runGitCommand. fold reply.
  destruct reply as [pr |]; [| reflexivity].
  fold ev. destruct (exitOk pr); [| reflexivity].
  destruct (mrUrlOf pr); cbn [app];
    match goal with
    | |- context [run w ?hh ?p] => destruct (run w hh p)
    end; reflexivity.
Qed.

(** The events of step 7 and later: one push, and no other after it. *)
Lemma pushAndCreate_one_push (root : Path) (origin : Remote)
      (target cur : string) (h : list Event) :
  exists rest,
    snd (run w h (pushAndCreate root origin target cur)) =
    EvGit (pushArgs origin target cur) root
          (git w h (pushArgs origin target cur) root) :: rest /\
    none (isGit "push") rest = true.
Proof.
  rewrite run_pushAndCreate. cbv zeta.
  destruct (git w h _ root) as [pr |]; [| eexists; split; reflexivity].
  destruct (exitOk pr); [| eexists; split; reflexivity].
  destruct (mrUrlOf pr) as [url |].
  - match goal with
    | |- context [run w ?hh (openCreated _ _ _ _)] =>
        destruct (run_openCreated root target cur url hh) as (m & shows & E & S)
    end.
    cbv zeta in E. rewrite E. eexists; split; [reflexivity |].
    rewrite !none_cons. cbn [isGit negb andb].
    replace (String.eqb "checkout" "push") with false by reflexivity.
    apply (shows_none (isGit "push")); auto.
  - match goal with
    | |- context [run w ?hh (openListing _ _)] =>
        destruct (openListing_no_git root cur hh) as (_ & N & _);
        destruct (run w hh (openListing root cur)) as [r t]
    end.
    eexists; split; [reflexivity | exact N].
Qed.

End Steps.

Section Flow.

Variable w : World.

(** Step 6 and what follows it, by the replies to the fetch and the merge. *)
Lemma run_syncAndPublish (root : Path) (origin : Remote) (target cur : string)
      (h : list Event) :
  let fa := ["fetch"; remoteName origin] in
  let ma := ["merge"; remoteName origin +++ "/" +++ target] in
  run w h (syncAndPublish root origin target cur) =
  match git w h fa root with
  | None =>
      (inl ("Git command failed: " +++ "fetch " +++ remoteName origin),
       [EvGit fa root None;
        EvShow Error ("Failed to run git command: " +++
                      ("fetch " +++ remoteName origin) +++
                      ". Check Output channel for details.")])
  | Some fr =>
      let ef := EvGit fa root (Some fr) in
      if exitOk fr then
        match git w (h ++ [ef]) ma root with
        | None =>
            (inl ("Git command failed: " +++ "merge " +++ remoteName origin
                  +++ "/" +++ target),
             [ef; EvGit ma root None;
              EvShow Error ("Failed to run git command: " +++
                            ("merge " +++ remoteName origin +++ "/" +++ target)
                            +++ ". Check Output channel for details.")])
        | Some mr =>
            let em := EvGit ma root (Some mr) in
            if exitOk mr then
              let (r, t) := run w (h ++ [ef; em])
                                (pushAndCreate root origin target cur)
              in (r, ef :: em :: t)
            else
              (inr tt,
               [ef; em; EvShow Error (mergeFailureMessage origin target mr)])
        end
      else
        (inr tt,
         [ef; EvShow Error
                "Git fetch from origin failed. Check Output channel for details."])
  end.
Proof.
  intros fa ma. unfold syncAndPublish.
  rewrite run_bindE, run_runGitCommand. fold fa.
  destruct (git w h fa root) as [fr |]; [| reflexivity].
  destruct (exitOk fr); cbn [negb]; [| reflexivity].
  rewrite run_bindE, run_runGitCommand. fold ma.
  destruct (git w _ ma root) as [mr |]; [| reflexivity].
  destruct (exitOk mr); cbn [negb]; [| reflexivity].
  rewrite <- app_assoc. cbn [app].
  destruct (run w _ (pushAndCreate root origin target cur)). reflexivity.
Qed.

(** Every run of the handler either leaves the repository alone and opens
    nothing, or arrives at step 6 with the remote and the branches
    resolved. *)
Lemma trace_cases (repository : option Repository) (ed : option Path) :
  none acts (trace w repository ed) = true \/
  exists root cur origin target h res tS,
    Reached w repository ed root cur origin target h /\
    none acts h = true /\
    run w h (syncAndPublish root origin target cur) = (res, tS) /\
    trace w repository ed = h ++ tS ++ closing res.
Proof.
  unfold trace, createMergeRequest.
  destruct repository as [repo |]; [| left; reflexivity].
  unfold show. cbn [run].
  change ([] ++ [EvShow Information msgStarting]) with started.
  rewrite run_bind.
  pose proof (locateRoot_quiet w repo ed started) as Q1.
  destruct (run w started (locateRoot repo ed)) as [[root |] t1] eqn:E1;
    cbn [snd] in Q1.
  2:{ left. cbn [run]. quiet. }
  unfold fromRoot. rewrite run_bindE.
  pose proof (getCurrentBranch_quiet w root (started ++ t1)) as Q2.
  destruct (run w (started ++ t1) (getCurrentBranch root))
    as [[e | cur] t2] eqn:E2; cbn [snd] in Q2.
  { left. cbn [run]. quiet. }
  destruct (acceptedBranch cur) eqn:Acc; cbn [negb].
  2:{ left. cbn [run]. quiet. }
  rewrite run_tryCatch. unfold automatedFlow. cbn [run].
  repeat rewrite <- app_assoc.
  destruct (access w (started ++ t1 ++ t2) (root ++ [".git"])) eqn:Ac.
  2:{ left. cbn [run]. quiet. }
  rewrite run_bindE; repeat rewrite <- app_assoc.
  pose proof (getOrigin_quiet w root
                (started ++ t1 ++ t2 ++ [EvAccess (root ++ [".git"]) true]))
    as Q3.
  destruct (run w _ (getOrigin root)) as [[e | origin] t3] eqn:E3;
    cbn [snd] in Q3.
  { left. cbn [run]. quiet. }
  rewrite run_bindE; repeat rewrite <- app_assoc.
  pose proof (getTargetBranch_quiet w root (remoteName origin)
                (started ++ t1 ++ t2 ++ [EvAccess (root ++ [".git"]) true]
                 ++ t3)) as Q4.
  destruct (run w _ (getTargetBranch root (remoteName origin)))
    as [[e | target] t4] eqn:E4; cbn [snd] in Q4.
  { left. cbn [run]. quiet. }
  right.
  rewrite <- !app_assoc.
  set (h := started ++ t1 ++ t2 ++ [EvAccess (root ++ [".git"]) true]
            ++ t3 ++ t4).
  destruct (run w h (syncAndPublish root origin target cur)) as [res tS] eqn:E5.
  exists root, cur, origin, target, h, res, tS.
  split; [| split; [| split]].
  - exists repo, t1, t2, t3, t4. repeat split; auto.
  - unfold h, started. rewrite !none_app, Q1, Q2, Q3, Q4. reflexivity.
  - exact E5.
  - unfold h, started. destruct res as [e | []]; cbn;
      repeat (rewrite <- app_assoc; cbn); rewrite ?app_nil_r; reflexivity.
Qed.

End Flow.

Section Push.

Variable w : World.

Lemma closing_shows (res : Exn + unit) : forallb isShow (closing res) = true.
Proof. destruct res; reflexivity. Qed.

Lemma in_not_none (p : Event -> bool) (pre post : list Event) (e : Event) :
  p e = true -> none p (pre ++ e :: post) = true -> False.
Proof.
  intros He Hn.
  assert (p e = false) by (apply (none_In p (pre ++ e :: post)); auto using in_elt).
  congruence.
Qed.

(** Where a push stands in a run of the handler: at the end of step 6,
    after a fetch and a merge that both exited with 0, with the arguments
    of line 363; what follows it is the rest of step 7 and the steps after
    it. *)
Lemma trace_push (repository : option Repository) (ed : option Path)
      (pre post : list Event) (args : list string) (cwd : Path)
      (reply : option GitResult) :
  trace w repository ed = pre ++ EvGit args cwd reply :: post ->
  isGit "push" (EvGit args cwd reply) = true ->
  exists root cur origin target h fr mr res rest,
    Reached w repository ed root cur origin target h /\
    exitOk fr = true /\ exitOk mr = true /\
    pre = h ++ [EvGit ["fetch"; remoteName origin] root (Some fr);
                EvGit ["merge"; remoteName origin +++ "/" +++ target] root
                      (Some mr)] /\
    args = pushArgs origin target cur /\ cwd = root /\
    reply = git w pre args root /\
    run w pre (pushAndCreate root origin target cur) =
    (res, EvGit args cwd reply :: rest) /\
    post = rest ++ closing res.
Proof.
  intros E P.
  destruct (trace_cases w repository ed) as
      [Q | (root & cur & origin & target & h & res & tS & R & Qh & E5 & T)].
  { rewrite E in Q. exfalso.
    apply (in_not_none acts pre post (EvGit args cwd reply)); auto.
    now apply acts_push. }
  assert (none (isGit "push") h = true) as Ph
      by (apply (@none_weaken _ _ _ acts_push Qh)).
  assert (forall shows tail : list Event,
             tS = shows -> none (isGit "push") shows = true -> False) as No.
  { intros shows tail -> N. rewrite E in T.
    apply (in_not_none (isGit "push") pre post (EvGit args cwd reply)); auto.
    rewrite T, !none_app, Ph, N.
    apply (shows_none (isGit "push")); auto using closing_shows. }
  rewrite run_syncAndPublish in E5. cbv zeta in E5.
  destruct (git w h _ root) as [fr |] eqn:Gf.
  2:{ inversion E5; subst. exfalso. eapply No; reflexivity || exact []. }
  destruct (exitOk fr) eqn:Of.
  2:{ inversion E5; subst. exfalso. eapply No; reflexivity || exact []. }
  destruct (git w (h ++ _) _ root) as [mr |] eqn:Gm.
  2:{ inversion E5; subst. exfalso. eapply No; reflexivity || exact []. }
  destruct (exitOk mr) eqn:Om.
  2:{ inversion E5; subst. exfalso. eapply No; reflexivity || exact []. }
  match type of E5 with
  | context [run w ?hh (pushAndCreate root origin target cur)] =>
      destruct (pushAndCreate_one_push w root origin target cur hh)
        as (rest & Ep & Np);
      destruct (run w hh (pushAndCreate root origin target cur))
        as [r t] eqn:Er
  end.
  cbn [snd] in Ep. subst t. inversion E5; subst res tS. clear E5.
  rewrite E in T.
  assert (pre = h ++ [EvGit ["fetch"; remoteName origin] root (Some fr);
                      EvGit ["merge"; remoteName origin +++ "/" +++ target]
                            root (Some mr)] /\
          EvGit args cwd reply =
          EvGit (pushArgs origin target cur) root
                (git w (h ++ [EvGit ["fetch"; remoteName origin] root (Some fr);
                              EvGit ["merge"; remoteName origin +++ "/" +++ target]
                                    root (Some mr)])
                     (pushArgs origin target cur) root) /\
          post = rest ++ closing r) as (-> & Ev & ->).
  { apply (only_occurrence (isGit "push")); auto.
    - rewrite none_app, Ph. reflexivity.
    - rewrite none_app, Np.
      apply (shows_none (isGit "push")); auto using closing_shows.
    - rewrite T. rewrite <- !app_assoc. reflexivity. }
  inversion Ev; subst args cwd reply.
  exists root, cur, origin, target, h, fr, mr, r, rest.
  repeat split; auto.
Qed.

End Push.

(* ===================================================================== *)
(** ** The check of the branch name (lines 294-299) *)
(* ===================================================================== *)

(** X25.  When the current branch does not start with feat the handler
    shows an error and stops: the events are those of locating the root and of the
    branch query, then the notification. *)
Lemma other_branch_stops (w : World) (repo : Repository) (ed : option Path)
      (root : Path) (cur : string) (t1 t2 : list Event) :
  run w started (locateRoot repo ed) = (Some root, t1) ->
  run w (started ++ t1) (getCurrentBranch root) = (inr cur, t2) ->
  acceptedBranch cur = false ->
  trace w (Some repo) ed = started ++ t1 ++ t2 ++ [EvShow Error msgNotFeat] /\
  none acts (trace w (Some repo) ed) = true.
Proof.
  intros E1 E2 Acc.
  assert (trace w (Some repo) ed =
          started ++ t1 ++ t2 ++ [EvShow Error msgNotFeat]) as T.
  { unfold trace, createMergeRequest, show. cbn [run].
    change ([] ++ [EvShow Information msgStarting]) with started.
    rewrite run_bind, E1. unfold fromRoot.
    rewrite run_bindE, E2, Acc. reflexivity. }
  split; [exact T |].
  pose proof (locateRoot_quiet w repo ed started) as Q1.
  pose proof (getCurrentBranch_quiet w root (started ++ t1)) as Q2.
  rewrite E1 in Q1. rewrite E2 in Q2. cbn [snd] in *.
  rewrite T. unfold started. quiet.
Qed.

(** C1, at the branch main.  The handler shows the error of line 297 and
    stops: no merge, no push, no checkout, but also no URL is opened,
    where the README (usage, item 4) and the change log (1.1.0) say the
    merge-requests page is opened for such a branch. *)
Theorem C1_other_branch_opens_no_listing :
  acceptedBranch "main" = false /\
  trace (Demo.worldOf (Demo.onBranch "main")) Demo.handle None =
  [ EvShow Information msgStarting;
    EvGit showCurrent Demo.root (Demo.exit0 ("main" +++ nl) EmptyString);
    EvShow Error msgNotFeat ] /\
  opened (trace (Demo.worldOf (Demo.onBranch "main")) Demo.handle None) = [].
Proof. vm_compute. repeat split; reflexivity. Qed.

(** C2, at the branch fix/login.  The name starts with fix, yet line 296
    accepts the prefix feat only: the handler shows the error and stops
    before the remote is resolved, where the README (features) and the
    change log (1.1.1) say fix branches are treated as feature branches. *)
Theorem C2_fix_branch_rejected :
  Js.startsWith "fix" "fix/login" = true /\
  acceptedBranch "fix/login" = false /\
  trace (Demo.worldOf (Demo.onBranch "fix/login")) Demo.handle None =
  [ EvShow Information msgStarting;
    EvGit showCurrent Demo.root (Demo.exit0 ("fix/login" +++ nl) EmptyString);
    EvShow Error msgNotFeat ].
Proof. vm_compute. repeat split; reflexivity. Qed.

(* ===================================================================== *)
(** ** The push and what follows it (steps 7 to 9) *)
(* ===================================================================== *)

(** X26.  The URL taken from the output of a push is the one of the
    first remote: line that carries one: when the output reads [before], then
    remote:, white space and a URL that ends at white space or at the end,
    and no match of the expression starts inside [before]. *)
Lemma mrUrlOf_remote_line (pushResult : GitResult) (before : string)
      (secure : bool) (w0 : ascii) (ws : string) (b0 : ascii)
      (body rest : string) :
  let url := (if secure then "https://" else "http://") +++ String b0 body in
  let line := "remote:" +++ String w0 ws +++ url +++ rest in
  stdout pushResult +++ nl +++ stderr pushResult = before +++ line ->
  Js.is_space w0 = true -> Js.every Js.is_space ws = true ->
  Js.non_space b0 = true -> Js.every Js.non_space body = true ->
  Js.stopsAt Js.non_space rest = true ->
  (forall a1 a2, before = a1 +++ a2 -> a2 <> EmptyString ->
                 Re.matchHere Re.urlRegex (a2 +++ line) = None) ->
  mrUrlOf pushResult = Some url.
Proof.
  intros url line E Hw Hws Hb Hbody Hrest No.
  unfold mrUrlOf. rewrite E.
  rewrite (search_leftmost Re.urlRegex line [url] rest).
  - subst url. destruct secure; reflexivity.
  - apply urlRegex_at_remote; auto.
  - exact No.
Qed.

(** A remote: line with the URL of a merge request, alone on stderr. *)
Example mrUrlOf_merge_request_42 :
  mrUrlOf (mkResult EmptyString
                    "remote: https://example.com/group/proj/-/merge_requests/42"
                    (Some 0%Z)) =
  Some "https://example.com/group/proj/-/merge_requests/42".
Proof. reflexivity. Qed.

(** C7.  Every push command of every run of the handler has the arguments
    of lines 363-371: the remote and the current branch, then four options,
    each after its own -o: merge_request.create, merge_request.target= with
    the target branch that [getTargetBranch] returned,
    merge_request.remove_source_branch=false, and merge_request.title= with
    the branch that [getCurrentBranch] returned. *)
Theorem C7_push_options (w : World) (repository : option Repository)
        (ed : option Path) (pre post : list Event) (args : list string)
        (cwd : Path) (reply : option GitResult) :
  trace w repository ed = pre ++ EvGit args cwd reply :: post ->
  isGit "push" (EvGit args cwd reply) = true ->
  exists root cur origin target h,
    Reached w repository ed root cur origin target h /\
    args = [ "push"; remoteName origin; cur;
             "-o"; "merge_request.create";
             "-o"; "merge_request.target=" +++ target;
             "-o"; "merge_request.remove_source_branch=false";
             "-o"; "merge_request.title=" +++ cur ].
Proof.
  intros E P.
  destruct (trace_push w repository ed pre post args cwd reply E P)
    as (root & cur & origin & target & h & fr & mr & res & rest &
        R & _ & _ & _ & A & _).
  exists root, cur, origin, target, h. split; [exact R |].
  rewrite A. reflexivity.
Qed.

(** C5.  After a push that exits with 0 and whose output holds a URL after
    remote: ([mrUrlOf], the leftmost match of line 380 in stdout, a line
    feed, stderr), the handler opens that URL and no other, notifies, and
    issues the checkout of the target branch that [getTargetBranch]
    returned; only notifications follow. *)
Theorem C5_url_opened_then_checkout (w : World)
        (repository : option Repository) (ed : option Path)
        (pre post : list Event) (args : list string) (cwd : Path)
        (pushResult : GitResult) (url : string) :
  trace w repository ed = pre ++ EvGit args cwd (Some pushResult) :: post ->
  isGit "push" (EvGit args cwd (Some pushResult)) = true ->
  exitOk pushResult = true ->
  mrUrlOf pushResult = Some url ->
  exists root cur origin target h ok msg r shows,
    Reached w repository ed root cur origin target h /\
    post = EvOpen url ok :: EvShow Information msg ::
           EvGit ["checkout"; target] root r :: shows /\
    forallb isShow shows = true /\
    opened post = [url].
Proof.
  intros E P Ok U.
  destruct (trace_push w repository ed pre post args cwd _ E P)
    as (root & cur & origin & target & h & fr & mr & res & rest &
        R & _ & _ & Epre & A & C & Rep & Run & Post).
  subst args cwd.
  rewrite run_pushAndCreate in Run. cbv zeta in Run.
  rewrite <- Rep, Ok, U in Run.
  match type of Run with
  | context [run w ?hh (openCreated _ _ _ _)] =>
      destruct (run_openCreated w root target cur url hh)
        as (msg & shows & Eo & S)
  end.
  cbv zeta in Eo. rewrite Eo in Run. inversion Run; subst res rest.
  exists root, cur, origin, target, h. do 4 eexists.
  split; [exact R |]. subst post. cbn [app closing].
  rewrite app_nil_r. split; [reflexivity |]. split; [exact S |].
  cbn [opened]. clear - S.
  induction shows as [| e shows IH]; [reflexivity |].
  cbn [forallb] in S. apply andb_true_iff in S as [Se S].
  destruct e; try discriminate. cbn [opened]. auto.
Qed.

Lemma C5_witness :
  exists root cur origin target h ok msg r shows,
    Reached (Demo.worldOf (Demo.onBranch "feat/login")) Demo.handle None
            root cur origin target h /\
    [ EvOpen "https://example.com/group/proj/-/merge_requests/42" true;
      EvShow Information
        "Successfully created Merge Request targeting main and opened it in your browser.";
      EvGit ["checkout"; "main"] Demo.root (Demo.exit0 EmptyString "Switched to branch");
      EvShow Information "Switched local branch to main." ] =
    EvOpen "https://example.com/group/proj/-/merge_requests/42" ok ::
    EvShow Information msg :: EvGit ["checkout"; target] root r :: shows /\
    forallb isShow shows = true /\
    opened
      [ EvOpen "https://example.com/group/proj/-/merge_requests/42" true;
        EvShow Information
          "Successfully created Merge Request targeting main and opened it in your browser.";
        EvGit ["checkout"; "main"] Demo.root (Demo.exit0 EmptyString "Switched to branch");
        EvShow Information "Switched local branch to main." ] =
    ["https://example.com/group/proj/-/merge_requests/42"].
Proof.
  apply (C5_url_opened_then_checkout
           (Demo.worldOf (Demo.onBranch "feat/login")) Demo.handle None
           (firstn 7 (trace (Demo.worldOf (Demo.onBranch "feat/login"))
                            Demo.handle None))
           _
           (pushArgs (mkRemote "origin" "https://example.com/group/proj.git")
                     "main" "feat/login")
           Demo.root
           (mkResult EmptyString
                     (match Demo.pushedWithUrl with
                      | Some r => stderr r
                      | None => EmptyString
                      end) (Some 0%Z))).
  - vm_compute. reflexivity.
  - vm_compute. reflexivity.
  - vm_compute. reflexivity.
  - vm_compute. reflexivity.
Defined.

Lemma C7_witness :
  exists root cur origin target h,
    Reached (Demo.worldOf (Demo.onBranch "feat/login")) Demo.handle None
            root cur origin target h /\
    [ "push"; "origin"; "feat/login";
      "-o"; "merge_request.create";
      "-o"; "merge_request.target=main";
      "-o"; "merge_request.remove_source_branch=false";
      "-o"; "merge_request.title=feat/login" ] =
    [ "push"; remoteName origin; cur;
      "-o"; "merge_request.create";
      "-o"; "merge_request.target=" +++ target;
      "-o"; "merge_request.remove_source_branch=false";
      "-o"; "merge_request.title=" +++ cur ].
Proof.
  apply (C7_push_options
           (Demo.worldOf (Demo.onBranch "feat/login")) Demo.handle None
           (firstn 7 (trace (Demo.worldOf (Demo.onBranch "feat/login"))
                            Demo.handle None))
           (skipn 8 (trace (Demo.worldOf (Demo.onBranch "feat/login"))
                           Demo.handle None))
           _ Demo.root Demo.pushedWithUrl).
  - vm_compute. reflexivity.
  - vm_compute. reflexivity.
Defined.

(** Stripping a trailing .git and appending the listing path. *)
Lemma constructedMrUrl_git (base : string) :
  constructedMrUrl (base +++ ".git") = base +++ "/-/merge_requests".
Proof.
  unfold constructedMrUrl, Js.endsWith, Js.dropLast.
  rewrite length_append.
  change (String.length ".git") with 4.
  replace (String.length base + 4 - 4) with (String.length base) by lia.
  pose proof (substring_suffix base ".git") as S.
  change (String.length ".git") with 4 in S.
  rewrite S, substring_prefix, String.eqb_refl.
  replace (4 <=? String.length base + 4) with true
    by (symmetry; apply Nat.leb_le; lia).
  reflexivity.
Qed.

(** Resolving the remote again gives the remote resolved before when the
    configuration file and the answer to the prompt are the same. *)
Lemma getOrigin_again (w : World) (h h' : list Event) (root : Path) :
  readFile w h (root ++ [".git"; "config"]) =
  readFile w h' (root ++ [".git"; "config"]) ->
  (forall content items,
      pick w (h ++ [EvReadFile (root ++ [".git"; "config"]) content]) items =
      pick w (h' ++ [EvReadFile (root ++ [".git"; "config"]) content]) items) ->
  fst (run w h (getOrigin root)) = fst (run w h' (getOrigin root)).
Proof.
  intros Rd Pk. unfold getOrigin. cbn [run]. rewrite <- Rd.
  destruct (readFile w h _) as [configContent |]; [| reflexivity].
  unfold selectRemote, ret, throw.
  destruct (originRemotesOf configContent) as [| o1 [| o2 os]].
  - destruct (allRemotesOf configContent) as [| a1 [| a2 as']];
      try reflexivity.
    cbn [run]. rewrite <- Pk.
    destruct (picked _ _) as [sel |]; [| reflexivity].
    destruct (findByName _ _); reflexivity.
  - reflexivity.
  - cbn [run]. rewrite <- Pk.
    destruct (picked _ _) as [sel |]; [| reflexivity].
    destruct (findByName _ _); reflexivity.
Qed.


(* ===================================================================== *)
(** ** Resolving the remote (lines 50-122) *)
(* ===================================================================== *)

Lemma remoteItems_length (remotes : list Remote) :
  length (remoteItems remotes) = length remotes.
Proof. unfold remoteItems. apply length_map. Qed.

Lemma picked_remoteItems (remotes : list Remote) (reply : option nat) :
  picked (remoteItems remotes) reply =
  option_map (fun r => mkItem (remoteName r) (remoteUrl r))
             (picked remotes reply).
Proof.
  unfold picked, remoteItems. destruct reply as [i |]; [| reflexivity].
  apply nth_error_map.
Qed.

(** With several candidates the prompt lists them all, in order; a
    dismissed prompt throws; a pick returns the first candidate that has
    the name of the entry picked. *)
Lemma getOrigin_prompt (w : World) (h : list Event) (root : Path)
      (configContent : string) :
  readFile w h (root ++ [".git"; "config"]) = Some configContent ->
  2 <= length (candidateRemotes configContent) ->
  let remotes := candidateRemotes configContent in
  let h' := h ++ [EvReadFile (root ++ [".git"; "config"]) (Some configContent)] in
  let reply := pick w h' (remoteItems remotes) in
  exists res,
    run w h (getOrigin root) =
    (res, [EvReadFile (root ++ [".git"; "config"]) (Some configContent);
           EvPick (remoteItems remotes) reply]) /\
    length (remoteItems remotes) = length remotes /\
    match picked remotes reply with
    | None => exists e, res = inl e /\ Js.includes "cancelled by user" e = true
    | Some r => res = match findByName (remoteName r) remotes with
                      | Some first => inr first
                      | None => inl typeErrorRemoteUrl
                      end
    end.
Proof.
  intros Rd Len remotes h' reply.
  unfold getOrigin. cbn [run]. rewrite Rd. fold h'.
  unfold candidateRemotes in *. subst remotes reply.
  destruct (originRemotesOf configContent) as [| o1 [| o2 os]] eqn:EO.
  - destruct (allRemotesOf configContent) as [| a1 [| a2 as']] eqn:EA;
      cbn [length] in Len; try lia.
    unfold selectRemote. cbn [run].
    rewrite picked_remoteItems.
    destruct (picked (a1 :: a2 :: as') _) as [r |]; cbn [option_map label].
    + eexists. split; [| split; [apply remoteItems_length | reflexivity]].
      destruct (findByName _ _); reflexivity.
    + eexists. split; [reflexivity |].
      split; [apply remoteItems_length |]. eexists. split; reflexivity.
  - cbn [length] in Len. lia.
  - unfold selectRemote. cbn [run].
    rewrite picked_remoteItems.
    destruct (picked (o1 :: o2 :: os) _) as [r |]; cbn [option_map label].
    + eexists. split; [| split; [apply remoteItems_length | reflexivity]].
      destruct (findByName _ _); reflexivity.
    + eexists. split; [reflexivity |].
      split; [apply remoteItems_length |]. eexists. split; reflexivity.
Qed.

(** When the candidates have different names the entry picked is the one
    returned. *)
Lemma findByName_distinct (remotes : list Remote) (i : nat) (r : Remote) :
  NoDup (map remoteName remotes) ->
  nth_error remotes i = Some r ->
  findByName (remoteName r) remotes = Some r.
Proof.
  unfold findByName. revert i.
  induction remotes as [| r0 rs IH]; intros i ND Nth.
  - destruct i; discriminate.
  - cbn [map] in ND. inversion ND as [| ? ? Hnot ND']; subst.
    destruct i as [| i]; cbn [nth_error] in Nth.
    + inversion Nth; subst. cbn [find]. now rewrite String.eqb_refl.
    + cbn [find].
      destruct (String.eqb (remoteName r0) (remoteName r)) eqn:Eq.
      * apply String.eqb_eq in Eq. exfalso. apply Hnot. rewrite Eq.
        apply in_map. eapply nth_error_In; eauto.
      * eapply IH; eauto.
Qed.

(** C3, at a configuration with two sections named origin and a user who
    picks the second entry.  The prompt shows the two entries, but line 118
    looks the answer up by its name, which both entries share: the remote
    returned is the first entry, not the one picked.  (The doc comment of
    the function says it returns the selected remote.) *)
Theorem C3_same_name_pick_returns_first :
  candidateRemotes Demo.twoOrigins =
  [mkRemote "origin" Demo.urlA; mkRemote "origin" Demo.urlB] /\
  picked (remoteItems (candidateRemotes Demo.twoOrigins)) (Some 1) =
  Some (mkItem "origin" Demo.urlB) /\
  run (Demo.worldOf Demo.pickSecond) [] (getOrigin Demo.root) =
  (inr (mkRemote "origin" Demo.urlA),
   [ EvReadFile (Demo.root ++ [".git"; "config"]) (Some Demo.twoOrigins);
     EvPick [mkItem "origin" Demo.urlA; mkItem "origin" Demo.urlB] (Some 1) ]).
Proof. vm_compute. repeat split; reflexivity. Qed.

(* ===================================================================== *)
(** ** A merge that fails (lines 340-358) *)
(* ===================================================================== *)

(** After a merge that did not exit with 0 the handler shows one error and
    stops: no push is issued. *)
Lemma merge_failure_stops (w : World) (h : list Event) (root : Path)
      (origin : Remote) (target cur : string) (fr mr : GitResult) :
  git w h ["fetch"; remoteName origin] root = Some fr ->
  exitOk fr = true ->
  git w (h ++ [EvGit ["fetch"; remoteName origin] root (Some fr)])
      ["merge"; remoteName origin +++ "/" +++ target] root = Some mr ->
  exitOk mr = false ->
  run w h (syncAndPublish root origin target cur) =
  (inr tt,
   [ EvGit ["fetch"; remoteName origin] root (Some fr);
     EvGit ["merge"; remoteName origin +++ "/" +++ target] root (Some mr);
     EvShow Error (mergeFailureMessage origin target mr) ]).
Proof.
  intros Gf Of Gm Om. rewrite run_syncAndPublish. cbv zeta.
  rewrite Gf, Of, Gm, Om. reflexivity.
Qed.

(** The conflict notification is shown when the text inspected at line 341
    holds one of the two conflict markers. *)
Lemma conflict_in_errorOutput (origin : Remote) (target : string)
      (mr : GitResult) :
  Js.includes "Merge conflict" (errorOutputOf mr) = true \/
  Js.includes conflictMarker (errorOutputOf mr) = true ->
  mergeFailureMessage origin target mr = msgMergeConflict.
Proof.
  unfold mergeFailureMessage. intros [-> | ->]; [| rewrite orb_true_r];
    reflexivity.
Qed.

(** C4, at a merge that exits with 1, reports the conflict on stdout and
    prints a warning on stderr.  Line 341 takes stderr alone when stderr is
    not empty (its comment says the outputs are combined), the markers are
    not found there, and the handler shows the generic failure of line 355
    instead of the conflict notification.  No push is issued. *)
Theorem C4_conflict_on_stdout_not_reported :
  exitOk Demo.binaryConflict = false /\
  Js.includes conflictMarker (stdout Demo.binaryConflict) = true /\
  Js.includes "Merge conflict" (stdout Demo.binaryConflict) = true /\
  errorOutputOf Demo.binaryConflict = stderr Demo.binaryConflict /\
  skipn 6 (trace (Demo.worldOf Demo.conflicting) Demo.handle None) =
  [ EvGit ["merge"; "origin/main"] Demo.root (Some Demo.binaryConflict);
    EvShow Error "Git merge of origin/main failed. Check Output channel for details." ] /\
  existsb (fun e => match e with
                    | EvShow _ msg => String.eqb msg msgMergeConflict
                    | _ => false
                    end)
          (trace (Demo.worldOf Demo.conflicting) Demo.handle None) = false /\
  none (isGit "push") (trace (Demo.worldOf Demo.conflicting) Demo.handle None)
  = true.
Proof. vm_compute. repeat split; reflexivity. Qed.

(* ===================================================================== *)
(** ** Resolving the target branch (lines 132-209) *)
(* ===================================================================== *)

Lemma originBranchOf_line (line b : string) :
  originBranchOf line = Some b ->
  Js.includes "->" line = false /\ underOrigin line = true.
Proof.
  unfold originBranchOf, underOrigin.
  destruct (Js.includes "->" line); [discriminate |].
  destruct (Re.matchHere Re.originBranchRegex line) as [[caps rest] |] eqn:E;
    [| discriminate].
  intros _. split; [reflexivity |].
  unfold Re.matchHere, Re.originBranchRegex in E.
  change ([Re.Star Js.is_space] ++ Re.lits "origin/" ++
          [Re.GOpen; Re.One Js.non_space; Re.Star Js.non_space; Re.GClose])
    with (Re.Star Js.is_space ::
          Re.lits "origin/" ++
          [Re.GOpen; Re.One Js.non_space; Re.Star Js.non_space; Re.GClose])
    in E.
  eapply spaces_then_lits; [| exact E]. reflexivity.
Qed.

Lemma collectBranches_In (lines : list string) (b : string) :
  In b (collectBranches lines) ->
  exists line, In line lines /\ originBranchOf line = Some b.
Proof.
  induction lines as [| l ls IH]; cbn [collectBranches]; [intros [] |].
  destruct (originBranchOf l) as [b' |] eqn:E.
  - intros [-> | Hin].
    + exists l. split; [now left | exact E].
    + destruct (IH Hin) as (line & Hl & Hb). exists line. split; [now right | exact Hb].
  - intro Hin. destruct (IH Hin) as (line & Hl & Hb).
    exists line. split; [now right | exact Hb].
Qed.

Lemma run_advertisedHead (w : World) (h : list Event) (root : Path)
      (remote : string) :
  let showArgs := ["remote"; "show"; remote] in
  run w h (advertisedHead root remote) =
  match git w h showArgs root with
  | Some r =>
      (if exitOk r && Js.truthy (stdout r) then
         match headBranchOf (stdout r) with
         | Some b => if negb (String.eqb b "(unknown)") then Some b else None
         | None => None
         end
       else None,
       [EvGit showArgs root (Some r)])
  | None =>
      (None,
       [EvGit showArgs root None;
        EvShow Error ("Failed to run git command: " +++
                      ("show remote " +++ remote) +++
                      ". Check Output channel for details.")])
  end.
Proof.
  intro showArgs. unfold advertisedHead.
  rewrite run_bind, run_runGitCommand. fold showArgs.
  destruct (git w h showArgs root) as [r |]; [| reflexivity].
  destruct (exitOk r && Js.truthy (stdout r)); [| reflexivity].
  destruct (headBranchOf (stdout r)) as [b |]; [| reflexivity].
  destruct (negb (String.eqb b "(unknown)")); reflexivity.
Qed.

(** The fallback starts with the listing of the remote branches; when it
    returns a branch, the listing succeeded and the branch is the entry the
    user picked among the branches found in it. *)
Lemma run_fallbackTargetBranch (w : World) (h : list Event) (root : Path) :
  let reply2 := git w h ["branch"; "-r"] root in
  exists rest2,
    snd (run w h (fallbackTargetBranch root)) =
    EvGit ["branch"; "-r"] root reply2 :: rest2 /\
    forall b,
      fst (run w h (fallbackTargetBranch root)) = inr b ->
      exists r2 i,
        reply2 = Some r2 /\
        rest2 = [EvPickStr (remoteBranchesOf (stdout r2)) (Some i)] /\
        nth_error (remoteBranchesOf (stdout r2)) i = Some b.
Proof.
  intro reply2. unfold fallbackTargetBranch, listAndPick.
  rewrite run_tryCatch, run_bindE, run_runGitCommand. fold reply2.
  destruct reply2 as [r2 |] eqn:G.
  2:{ unfold throw. cbn. eexists. split; [reflexivity |].
      intros b. destruct (Js.includes _ _); discriminate. }
  destruct (exitOk r2 && Js.truthy (stdout r2)).
  2:{ unfold throw. cbn. eexists. split; [reflexivity | discriminate]. }
  destruct (remoteBranchesOf (stdout r2)) as [| b0 bs] eqn:EB.
  { unfold throw. cbn. eexists. split; [reflexivity | discriminate]. }
  cbn [run app]. unfold ret, throw.
  destruct (pickStr w _ (b0 :: bs)) as [i |] eqn:Pk; unfold picked.
  2:{ cbn. eexists. split; [reflexivity | discriminate]. }
  destruct (nth_error (b0 :: bs) i) as [sel |] eqn:Nth.
  2:{ cbn. eexists. split; [reflexivity | discriminate]. }
  destruct (Js.truthy sel).
  2:{ cbn. eexists. split; [reflexivity | discriminate]. }
  cbn. eexists. split; [reflexivity |].
  intros b Hb. inversion Hb; subst b.
  exists r2, i. rewrite EB. repeat split; auto.
Qed.


(** The candidates of the fallback come only from lines that, after their
    indentation, start with origin/ and hold no arrow, whatever the remote
    is named. *)
Lemma remoteBranchesOf_lines (out b : string) :
  In b (remoteBranchesOf out) ->
  exists line,
    In line (Js.split (ascii_of_nat 10) out) /\
    Js.includes "->" line = false /\ underOrigin line = true.
Proof.
  unfold remoteBranchesOf. intro Hin.
  destruct (collectBranches_In _ _ Hin) as (line & Hl & Hb).
  exists line. split; [exact Hl |]. now apply originBranchOf_line in Hb.
Qed.

Lemma remoteBranchesOf_none (out : string) :
  (forall line, In line (Js.split (ascii_of_nat 10) out) ->
                underOrigin line = false) ->
  remoteBranchesOf out = [].
Proof.
  intro H. destruct (remoteBranchesOf out) as [| b bs] eqn:E; [reflexivity |].
  destruct (remoteBranchesOf_lines out b) as (line & Hl & _ & U).
  - rewrite E. now left.
  - rewrite (H line Hl) in U. discriminate.
Qed.

(** C10.  In the fallback of [getTargetBranch] the candidates are read off
    the lines of [git branch -r] that start, after their indentation, with
    origin/ and hold no arrow; the name of the remote in use plays no part.
    So when the listing succeeds but none of its lines is under origin/ (the
    branches of a remote with another name), no prompt is shown: the [try]
    block throws the error that no remote branches were found and
    [getTargetBranch] fails. *)
Theorem C10_fallback_reads_origin_lines_only (w : World) (h t1 : list Event)
        (root : Path) (remote : string) (listing : GitResult) :
  run w h (advertisedHead root remote) = (None, t1) ->
  git w (h ++ t1) ["branch"; "-r"] root = Some listing ->
  exitOk listing = true ->
  Js.truthy (stdout listing) = true ->
  (forall b,
      In b (remoteBranchesOf (stdout listing)) ->
      exists line,
        In line (Js.split (ascii_of_nat 10) (stdout listing)) /\
        Js.includes "->" line = false /\ underOrigin line = true) /\
  ((forall line,
       In line (Js.split (ascii_of_nat 10) (stdout listing)) ->
       underOrigin line = false) ->
   run w (h ++ t1) (listAndPick root) =
   (inl noRemoteBranches, [EvGit ["branch"; "-r"] root (Some listing)]) /\
   run w h (getTargetBranch root remote) =
   (inl targetBranchFailed,
    t1 ++ [EvGit ["branch"; "-r"] root (Some listing)])).
Proof.
  intros A G Ok Tr. split.
  - intros b. apply remoteBranchesOf_lines.
  - intro No. apply remoteBranchesOf_none in No.
    assert (run w (h ++ t1) (listAndPick root) =
            (inl noRemoteBranches,
             [EvGit ["branch"; "-r"] root (Some listing)])) as L.
    { unfold listAndPick. rewrite run_bindE, run_runGitCommand, G, Ok, Tr, No.
      reflexivity. }
    split; [exact L |].
    unfold getTargetBranch. rewrite run_bind, A.
    unfold fallbackTargetBranch. rewrite run_tryCatch, L.
    reflexivity.
Qed.

Lemma C10_witness :
  (forall b,
      In b (remoteBranchesOf (stdout Demo.listingUpstream)) ->
      exists line,
        In line (Js.split (ascii_of_nat 10) (stdout Demo.listingUpstream)) /\
        Js.includes "->" line = false /\ underOrigin line = true) /\
  ((forall line,
       In line (Js.split (ascii_of_nat 10) (stdout Demo.listingUpstream)) ->
       underOrigin line = false) ->
   run (Demo.worldOf Demo.upstreamOnly)
       ([] ++ [EvGit ["remote"; "show"; "upstream"] Demo.root
                     (Demo.exit1 EmptyString "fatal: unable to access the remote")])
       (listAndPick Demo.root) =
   (inl noRemoteBranches,
    [EvGit ["branch"; "-r"] Demo.root (Some Demo.listingUpstream)]) /\
   run (Demo.worldOf Demo.upstreamOnly) []
       (getTargetBranch Demo.root "upstream") =
   (inl targetBranchFailed,
    [EvGit ["remote"; "show"; "upstream"] Demo.root
           (Demo.exit1 EmptyString "fatal: unable to access the remote")] ++
    [EvGit ["branch"; "-r"] Demo.root (Some Demo.listingUpstream)])).
Proof.
  apply (C10_fallback_reads_origin_lines_only
           (Demo.worldOf Demo.upstreamOnly) []
           [EvGit ["remote"; "show"; "upstream"] Demo.root
                  (Demo.exit1 EmptyString "fatal: unable to access the remote")]
           Demo.root "upstream" Demo.listingUpstream).
  - vm_compute. reflexivity.
  - vm_compute. reflexivity.
  - vm_compute. reflexivity.
  - vm_compute. reflexivity.
Defined.

(** The lines of the listing of the remote named upstream are not under
    origin/, and its resolution fails though the remote has branches. *)
Example upstream_has_no_origin_lines :
  forallb (fun line => negb (underOrigin line))
          (Js.split (ascii_of_nat 10) (stdout Demo.listingUpstream)) = true /\
  fst (run (Demo.worldOf Demo.upstreamOnly) []
           (getTargetBranch Demo.root "upstream")) = inl targetBranchFailed.
Proof. vm_compute. split; reflexivity. Qed.

(* ===================================================================== *)
(** ** The order of the branch query and the validation *)
(* ===================================================================== *)

(** C9 as stated fails: with a repository handle that gives the root, the
    branch query is the first request of the handler and no file access
    came before it. *)
Lemma C9_counterexample :
  ~ validatedBeforeBranchQuery
      (trace (Demo.worldOf (Demo.onBranch "feat/login")) Demo.handle None).
Proof.
  intro V.
  destruct (V [EvShow Information msgStarting] Demo.root
              (Demo.exit0 ("feat/login" +++ nl) EmptyString)
              (skipn 2 (trace (Demo.worldOf (Demo.onBranch "feat/login"))
                              Demo.handle None)))
    as (p & Hin).
  - vm_compute. reflexivity.
  - destruct Hin as [Hin | []]. discriminate.
Qed.

(** What [getCurrentBranch] does: one query, and the trimmed output
    exactly when the query exited with 0 and the trimmed output is not
    empty; otherwise it throws. *)
Lemma run_getCurrentBranch (w : World) (h : list Event) (root : Path) :
  let reply := git w h showCurrent root in
  exists res shows,
    run w h (getCurrentBranch root) =
    (res, EvGit showCurrent root reply :: shows) /\
    forallb isShow shows = true /\
    match reply with
    | Some r =>
        if exitOk r && Js.truthy (stdout r) && Js.truthy (Js.trim (stdout r))
        then res = inr (Js.trim (stdout r)) /\ shows = []
        else exists e, res = inl e
    | None => exists e, res = inl e
    end.
Proof.
  intro reply. unfold getCurrentBranch.
  rewrite run_tryCatch, run_bindE, run_runGitCommand. fold reply.
  unfold ret, throw.
  destruct reply as [r |].
  - destruct (exitOk r) eqn:Ok; cbn [andb].
    + destruct (Js.truthy (stdout r)); cbn [andb].
      * destruct (Js.truthy (Js.trim (stdout r))); cbn.
        -- do 2 eexists. split; [reflexivity |]. split; [reflexivity |]. auto.
        -- do 2 eexists. split; [reflexivity |]. split; [reflexivity |].
           eexists; reflexivity.
      * cbn. do 2 eexists. split; [reflexivity |]. split; [reflexivity |].
        eexists; reflexivity.
    + cbn. do 2 eexists. split; [reflexivity |]. split; [reflexivity |].
      eexists; reflexivity.
  - cbn. do 2 eexists. split; [reflexivity |]. split; [reflexivity |].
    eexists; reflexivity.
Qed.

Lemma accepted_truthy (s : string) :
  acceptedBranch s = true -> Js.truthy s = true.
Proof. destruct s; [discriminate | reflexivity]. Qed.

Lemma trim_truthy (s : string) :
  Js.truthy (Js.trim s) = true -> Js.truthy s = true.
Proof. destruct s; [discriminate | reflexivity]. Qed.

Lemma shows_no_access (shows : list Event) (p : Path) (ok : bool) :
  forallb isShow shows = true -> ~ In (EvAccess p ok) shows.
Proof.
  rewrite forallb_forall. intros H Hin. apply H in Hin. discriminate.
Qed.

(** C9, amended.  Once the root is located the handler queries the current
    branch at once (with a repository handle that gives the root this is
    its first request), before it checks that the root holds a .git entry.
    A file access after the query takes place only when the query exited
    with 0 and the trimmed branch name starts with feat, and in that case
    the check of the .git entry is the next request. *)
Theorem C9_branch_query_precedes_validation (w : World) (repo : Repository)
        (ed : option Path) (root : Path) (t1 : list Event) :
  run w started (locateRoot repo ed) = (Some root, t1) ->
  exists reply rest,
    trace w (Some repo) ed =
    started ++ t1 ++ EvGit showCurrent root reply :: rest /\
    (rootUri repo <> None -> t1 = []) /\
    (forall p ok,
        In (EvAccess p ok) rest ->
        exists r, reply = Some r /\ exitOk r = true /\
                  acceptedBranch (Js.trim (stdout r)) = true) /\
    (forall r,
        reply = Some r -> exitOk r = true ->
        acceptedBranch (Js.trim (stdout r)) = true ->
        exists ok rest',
          rest = EvAccess (root ++ [".git"]) ok :: rest').
Proof.
  intros E1.
  assert (rootUri repo <> None -> t1 = []) as Hd.
  { intro Hr. unfold locateRoot in E1.
    destruct (rootUri repo); [| congruence]. cbn in E1. now inversion E1. }
  unfold trace, createMergeRequest, show. cbn [run].
  change ([] ++ [EvShow Information msgStarting]) with started.
  rewrite run_bind, E1. unfold fromRoot. rewrite run_bindE.
  destruct (run_getCurrentBranch w (started ++ t1) root)
    as (res & shows & Eg & S & Out).
  cbv zeta in Eg, Out. rewrite Eg.
  set (reply := git w (started ++ t1) showCurrent root) in *.
  destruct reply as [r |] eqn:G.
  2:{ destruct Out as (e & ->). cbn.
      do 2 eexists. split; [reflexivity |]. split; [exact Hd |].
      split; [| discriminate].
      intros p ok Hin. exfalso. eapply shows_no_access; eauto. }
  destruct (exitOk r && Js.truthy (stdout r) && Js.truthy (Js.trim (stdout r)))
    eqn:Good.
  2:{ destruct Out as (e & ->). cbn.
      do 2 eexists. split; [reflexivity |]. split; [exact Hd |]. split.
      - intros p ok Hin. exfalso. eapply shows_no_access; eauto.
      - intros r' Hr Ok Acc. inversion Hr; subst r'.
        rewrite Ok, (accepted_truthy _ Acc),
                (trim_truthy _ (accepted_truthy _ Acc)) in Good.
        discriminate. }
  destruct Out as (-> & ->).
  apply andb_true_iff in Good as [Good _].
  apply andb_true_iff in Good as [Ok _].
  destruct (acceptedBranch (Js.trim (stdout r))) eqn:Acc; cbn [negb].
  - rewrite run_tryCatch. unfold automatedFlow at 1. cbn [run].
    match goal with
    | |- context [run w ?hh (if ?c then ?a else ?b)] =>
        destruct (run w hh (if c then a else b)) as [[e | []] tA]
    end.
    + unfold show, ret. cbn. do 2 eexists. split; [reflexivity |]. split; [exact Hd |]. split.
      * intros _ _ _. exists r. auto.
      * intros r' _ _ _. do 2 eexists. reflexivity.
    + cbn. do 2 eexists. split; [reflexivity |]. split; [exact Hd |]. split.
      * intros _ _ _. exists r. auto.
      * intros r' _ _ _. do 2 eexists. reflexivity.
  - cbn. do 2 eexists. split; [reflexivity |]. split; [exact Hd |]. split.
    + intros p ok [Hin | []]. discriminate.
    + intros r' Hr _ Acc'. inversion Hr; subst r'. congruence.
Qed.

Lemma C9_witness :
  exists reply rest,
    trace (Demo.worldOf (Demo.onBranch "feat/login")) Demo.handle None =
    started ++ [] ++ EvGit showCurrent Demo.root reply :: rest /\
    (rootUri (mkRepository (Some Demo.root)) <> None -> @nil Event = []) /\
    (forall p ok,
        In (EvAccess p ok) rest ->
        exists r, reply = Some r /\ exitOk r = true /\
                  acceptedBranch (Js.trim (stdout r)) = true) /\
    (forall r,
        reply = Some r -> exitOk r = true ->
        acceptedBranch (Js.trim (stdout r)) = true ->
        exists ok rest',
          rest = EvAccess (Demo.root ++ [".git"]) ok :: rest').
Proof.
  apply (C9_branch_query_precedes_validation
           (Demo.worldOf (Demo.onBranch "feat/login"))
           (mkRepository (Some Demo.root)) None Demo.root []).
  vm_compute. reflexivity.
Defined.

(* ===================================================================== *)
(** ** More on the handler: where a run stops *)
(* ===================================================================== *)

(** A run that arrives at step 6 continues with the events of steps 6 to
    9 and, if these throw, with the notification of the last [catch]. *)
Lemma reached_trace (w : World) (repository : option Repository)
      (ed : option Path) (root : Path) (cur : string) (origin : Remote)
      (target : string) (h : list Event) :
  Reached w repository ed root cur origin target h ->
  trace w repository ed =
  h ++ snd (run w h (syncAndPublish root origin target cur)) ++
  closing (fst (run w h (syncAndPublish root origin target cur))).
Proof.
  intros (repo & t1 & t2 & t3 & t4 & -> & E1 & E2 & Acc & Ac & E3 & E4 & ->).
  unfold trace, createMergeRequest, show. cbn [run].
  change ([] ++ [EvShow Information msgStarting]) with started.
  rewrite run_bind, E1. unfold fromRoot. rewrite run_bindE, E2, Acc.
  cbn [negb]. rewrite run_tryCatch. unfold automatedFlow. cbn [run].
  repeat rewrite <- app_assoc. rewrite Ac.
  rewrite run_bindE; repeat rewrite <- app_assoc. rewrite E3.
  rewrite run_bindE; repeat rewrite <- app_assoc. rewrite E4.
  repeat rewrite <- app_assoc.
  destruct (run w _ (syncAndPublish root origin target cur)) as [res tS].
  unfold started. destruct res as [e | []]; cbn;
    repeat (rewrite <- app_assoc; cbn); rewrite ?app_nil_r; reflexivity.
Qed.

Lemma opened_app (a b : list Event) : opened (a ++ b) = opened a ++ opened b.
Proof.
  induction a as [| e a IH]; [reflexivity |].
  destruct e; cbn [app opened]; rewrite ?IH; reflexivity.
Qed.

Lemma opened_shows (t : list Event) :
  forallb isShow t = true -> opened t = [].
Proof.
  induction t as [| e t IH]; [reflexivity |].
  cbn [forallb]. intro S. apply andb_true_iff in S as [Se S].
  destruct e; try discriminate. cbn [opened]. auto.
Qed.

Lemma opened_quiet (t : list Event) : none acts t = true -> opened t = [].
Proof.
  induction t as [| e t IH]; [reflexivity |].
  rewrite none_cons. intro N. apply andb_true_iff in N as [Ne N].
  destruct e; cbn [opened]; auto. discriminate.
Qed.

Lemma reached_quiet (w : World) (repository : option Repository)
      (ed : option Path) (root : Path) (cur : string) (origin : Remote)
      (target : string) (h : list Event) :
  Reached w repository ed root cur origin target h -> none acts h = true.
Proof.
  intros (repo & t1 & t2 & t3 & t4 & -> & E1 & E2 & Acc & Ac & E3 & E4 & ->).
  pose proof (locateRoot_quiet w repo ed started) as Q1.
  pose proof (getCurrentBranch_quiet w root (started ++ t1)) as Q2.
  pose proof (getOrigin_quiet w root
                (started ++ t1 ++ t2 ++ [EvAccess (root ++ [".git"]) true]))
    as Q3.
  pose proof (getTargetBranch_quiet w root (remoteName origin)
                (started ++ t1 ++ t2 ++ [EvAccess (root ++ [".git"]) true]
                 ++ t3)) as Q4.
  rewrite E1 in Q1. rewrite E2 in Q2. rewrite E3 in Q3. rewrite E4 in Q4.
  cbn [snd] in *. unfold started.
  rewrite !none_app, Q1, Q2, Q3, Q4. reflexivity.
Qed.

(** X1.  A fetch that does not exit with 0 ends the run: the handler shows
    the fetch error and issues neither the merge nor the push. *)
Theorem fetch_failure_stops (w : World) (repository : option Repository)
        (ed : option Path) (root : Path) (cur : string) (origin : Remote)
        (target : string) (h : list Event) (fr : GitResult) :
  Reached w repository ed root cur origin target h ->
  git w h ["fetch"; remoteName origin] root = Some fr ->
  exitOk fr = false ->
  trace w repository ed =
  h ++ [ EvGit ["fetch"; remoteName origin] root (Some fr);
         EvShow Error
           "Git fetch from origin failed. Check Output channel for details." ] /\
  none (isGit "merge") (trace w repository ed) = true /\
  none (isGit "push") (trace w repository ed) = true.
Proof.
  intros R Gf Of.
  assert (trace w repository ed =
          h ++ [ EvGit ["fetch"; remoteName origin] root (Some fr);
                 EvShow Error
                   "Git fetch from origin failed. Check Output channel for details." ])
    as T.
  { rewrite (reached_trace _ _ _ _ _ _ _ _ R).
    rewrite run_syncAndPublish. cbv zeta. rewrite Gf, Of. reflexivity. }
  pose proof (reached_quiet _ _ _ _ _ _ _ _ R) as Q.
  split; [exact T |]. rewrite T, !none_app. split.
  - rewrite (@none_weaken (isGit "merge") acts h); [reflexivity | | exact Q].
    intros e He. unfold acts. rewrite He. now rewrite !orb_true_r.
  - rewrite (@none_weaken _ _ _ acts_push Q). reflexivity.
Qed.

(** X2.  A merge that does not exit with 0 ends the run: one error
    notification follows, chosen from the text inspected at line 341, and
    no push is issued. *)
Theorem merge_failure_ends_run (w : World) (repository : option Repository)
        (ed : option Path) (root : Path) (cur : string) (origin : Remote)
        (target : string) (h : list Event) (fr mr : GitResult) :
  Reached w repository ed root cur origin target h ->
  git w h ["fetch"; remoteName origin] root = Some fr ->
  exitOk fr = true ->
  git w (h ++ [EvGit ["fetch"; remoteName origin] root (Some fr)])
      ["merge"; remoteName origin +++ "/" +++ target] root = Some mr ->
  exitOk mr = false ->
  trace w repository ed =
  h ++ [ EvGit ["fetch"; remoteName origin] root (Some fr);
         EvGit ["merge"; remoteName origin +++ "/" +++ target] root (Some mr);
         EvShow Error (mergeFailureMessage origin target mr) ] /\
  none (isGit "push") (trace w repository ed) = true.
Proof.
  intros R Gf Of Gm Om.
  assert (trace w repository ed =
          h ++ [ EvGit ["fetch"; remoteName origin] root (Some fr);
                 EvGit ["merge"; remoteName origin +++ "/" +++ target] root
                       (Some mr);
                 EvShow Error (mergeFailureMessage origin target mr) ]) as T.
  { rewrite (reached_trace _ _ _ _ _ _ _ _ R).
    rewrite (merge_failure_stops w h root origin target cur fr mr Gf Of Gm Om).
    reflexivity. }
  split; [exact T |].
  pose proof (reached_quiet _ _ _ _ _ _ _ _ R) as Q.
  rewrite T, none_app, (@none_weaken _ _ _ acts_push Q). reflexivity.
Qed.

(** X3.  When a failed merge left stderr empty and reported a conflict on
    stdout (either marker), the notification is the conflict notification
    that asks the user to resolve and run the command again. *)
Theorem conflict_on_stdout_alone_notified (w : World)
        (repository : option Repository) (ed : option Path) (root : Path)
        (cur : string) (origin : Remote) (target : string) (h : list Event)
        (fr mr : GitResult) :
  Reached w repository ed root cur origin target h ->
  git w h ["fetch"; remoteName origin] root = Some fr ->
  exitOk fr = true ->
  git w (h ++ [EvGit ["fetch"; remoteName origin] root (Some fr)])
      ["merge"; remoteName origin +++ "/" +++ target] root = Some mr ->
  exitOk mr = false ->
  stderr mr = EmptyString ->
  Js.includes "Merge conflict" (stdout mr) || Js.includes conflictMarker (stdout mr)
  = true ->
  trace w repository ed =
  h ++ [ EvGit ["fetch"; remoteName origin] root (Some fr);
         EvGit ["merge"; remoteName origin +++ "/" +++ target] root (Some mr);
         EvShow Error msgMergeConflict ].
Proof.
  intros R Gf Of Gm Om Se Mk.
  rewrite (reached_trace _ _ _ _ _ _ _ _ R).
  rewrite (merge_failure_stops w h root origin target cur fr mr Gf Of Gm Om).
  cbn [fst snd closing]. rewrite app_nil_r.
  assert (errorOutputOf mr = stdout mr) as EO.
  { unfold errorOutputOf, Js.orElse. rewrite Se.
    destruct (stdout mr); reflexivity. }
  unfold mergeFailureMessage. rewrite EO, Mk. reflexivity.
Qed.

(** X4.  A push that does not exit with 0 ends the run with an error that
    carries the exit code: no URL is opened and no checkout is issued. *)
Theorem push_failure_stops (w : World) (repository : option Repository)
        (ed : option Path) (root : Path) (cur : string) (origin : Remote)
        (target : string) (h : list Event) (fr mr pr : GitResult) :
  Reached w repository ed root cur origin target h ->
  git w h ["fetch"; remoteName origin] root = Some fr ->
  exitOk fr = true ->
  git w (h ++ [EvGit ["fetch"; remoteName origin] root (Some fr)])
      ["merge"; remoteName origin +++ "/" +++ target] root = Some mr ->
  exitOk mr = true ->
  git w (h ++ [EvGit ["fetch"; remoteName origin] root (Some fr);
               EvGit ["merge"; remoteName origin +++ "/" +++ target] root
                     (Some mr)])
      (pushArgs origin target cur) root = Some pr ->
  exitOk pr = false ->
  trace w repository ed =
  h ++ [ EvGit ["fetch"; remoteName origin] root (Some fr);
         EvGit ["merge"; remoteName origin +++ "/" +++ target] root (Some mr);
         EvGit (pushArgs origin target cur) root (Some pr);
         EvShow Error
           ("Failed to push or create Merge Request. Exit Code: " +++
            showExitCode (exitCode pr) +++
            ". Check Output channel for details.") ] /\
  opened (trace w repository ed) = [] /\
  none (isGit "checkout") (trace w repository ed) = true.
Proof.
  intros R Gf Of Gm Om Gp Op.
  assert (trace w repository ed =
          h ++ [ EvGit ["fetch"; remoteName origin] root (Some fr);
                 EvGit ["merge"; remoteName origin +++ "/" +++ target] root
                       (Some mr);
                 EvGit (pushArgs origin target cur) root (Some pr);
                 EvShow Error
                   ("Failed to push or create Merge Request. Exit Code: " +++
                    showExitCode (exitCode pr) +++
                    ". Check Output channel for details.") ]) as T.
  { rewrite (reached_trace _ _ _ _ _ _ _ _ R).
    rewrite run_syncAndPublish. cbv zeta. rewrite Gf, Of, Gm, Om.
    rewrite run_pushAndCreate. cbv zeta. rewrite Gp, Op. reflexivity. }
  pose proof (reached_quiet _ _ _ _ _ _ _ _ R) as Q.
  split; [exact T |]. rewrite T. split.
  - rewrite opened_app, (opened_quiet _ Q). reflexivity.
  - rewrite none_app, (@none_weaken _ _ _ acts_checkout Q). reflexivity.
Qed.

(* ===================================================================== *)
(** ** More on the handler: the browser and the checkout *)
(* ===================================================================== *)

Lemma run_switchToTarget_eq (w : World) (root : Path) (target : string)
      (h : list Event) :
  run w h (switchToTarget root target) =
  (inr tt,
   EvGit ["checkout"; target] root (git w h ["checkout"; target] root)
   :: afterCheckout target (git w h ["checkout"; target] root)).
Proof.
  unfold switchToTarget, afterCheckout.
  rewrite run_tryCatch, run_bindE, run_runGitCommand.
  destruct (git w h ["checkout"; target] root) as [r |].
  - destruct (exitOk r); reflexivity.
  - reflexivity.
Qed.

Lemma afterCheckout_shows (target : string) (reply : option GitResult) :
  forallb isShow (afterCheckout target reply) = true.
Proof.
  unfold afterCheckout. destruct reply as [r |]; [destruct (exitOk r) |];
    reflexivity.
Qed.

Lemma run_openCreated_eq (w : World) (root : Path) (target cur url : string)
      (h : list Event) :
  exists msg,
    let ok := openUrl w h url in
    let h' := h ++ [EvOpen url ok; EvShow Information msg] in
    let reply := git w h' ["checkout"; target] root in
    run w h (openCreated root target cur url) =
    (inr tt,
     EvOpen url ok :: EvShow Information msg ::
     EvGit ["checkout"; target] root reply :: afterCheckout target reply).
Proof.
  unfold openCreated, show. cbn [run].
  rewrite <- app_assoc. cbn [app].
  rewrite run_switchToTarget_eq. eexists. reflexivity.
Qed.

(** The URLs opened by steps 6 to 9: at most one. *)
Lemma syncAndPublish_opens_once (w : World) (h : list Event) (root : Path)
      (origin : Remote) (target cur : string) :
  length (opened (snd (run w h (syncAndPublish root origin target cur)))) <= 1.
Proof.
  rewrite run_syncAndPublish. cbv zeta.
  destruct (git w h _ root) as [fr |]; [| cbn; lia].
  destruct (exitOk fr); [| cbn; lia].
  destruct (git w (h ++ _) _ root) as [mr |]; [| cbn; lia].
  destruct (exitOk mr); [| cbn; lia].
  rewrite run_pushAndCreate. cbv zeta.
  destruct (git w (h ++ _) (pushArgs origin target cur) root) as [pr |];
    [| cbn; lia].
  destruct (exitOk pr); [| cbn; lia].
  destruct (mrUrlOf pr) as [url |].
  - match goal with
    | |- context [run w ?hh (openCreated _ _ _ _)] =>
        destruct (run_openCreated_eq w root target cur url hh) as (msg & E)
    end.
    cbv zeta in E. rewrite E. cbn [snd opened].
    rewrite (opened_shows _ (afterCheckout_shows _ _)). cbn. lia.
  - match goal with
    | |- context [run w ?hh (openListing _ _)] =>
        pose proof (run_openListing w root cur hh) as L;
        pose proof (getOrigin_quiet w root hh) as Q;
        destruct (run w hh (getOrigin root)) as [[e | o] tO]
    end; destruct L as (shows & -> & S); cbn [snd opened] in *;
      rewrite opened_app, (opened_quiet _ Q); cbn [opened app];
      rewrite (opened_shows _ S); cbn; lia.
Qed.

(** X5.  A run of the handler opens at most one URL. *)
Theorem at_most_one_url_opened (w : World) (repository : option Repository)
        (ed : option Path) :
  length (opened (trace w repository ed)) <= 1.
Proof.
  destruct (trace_cases w repository ed) as
      [Q | (root & cur & origin & target & h & res & tS & R & Qh & E5 & T)].
  - rewrite (opened_quiet _ Q). cbn. lia.
  - rewrite T, !opened_app, (opened_quiet _ Qh).
    rewrite (opened_shows _ (closing_shows res)), app_nil_r. cbn [app].
    pose proof (syncAndPublish_opens_once w h root origin target cur) as L.
    rewrite E5 in L. exact L.
Qed.

(** X6.  A checkout is issued only as the request that follows the opening
    of the URL of the merge request found in the output of a successful
    push, and only for the target branch; after it the handler only
    notifies: a checkout that exits with another code than 0 gives one
    warning, and the run still ends normally. *)
Theorem checkout_only_after_opened_url (w : World)
        (repository : option Repository) (ed : option Path)
        (pre post : list Event) (args : list string) (cwd : Path)
        (reply : option GitResult) :
  trace w repository ed = pre ++ EvGit args cwd reply :: post ->
  isGit "checkout" (EvGit args cwd reply) = true ->
  exists root cur origin target h pre0 pr url ok msg,
    Reached w repository ed root cur origin target h /\
    pre = pre0 ++ [ EvGit (pushArgs origin target cur) root (Some pr);
                    EvOpen url ok; EvShow Information msg ] /\
    exitOk pr = true /\ mrUrlOf pr = Some url /\
    args = ["checkout"; target] /\ cwd = root /\
    post = afterCheckout target reply /\
    fst (run w [] (createMergeRequest repository ed)) = inr tt.
Proof.
  intros E P.
  destruct (trace_cases w repository ed) as
      [Q | (root & cur & origin & target & h & res & tS & R & Qh & E5 & T)].
  { rewrite E in Q. exfalso.
    apply (in_not_none acts pre post (EvGit args cwd reply)); auto.
    now apply acts_checkout. }
  assert (none (isGit "checkout") h = true) as Ch
      by (apply (@none_weaken _ _ _ acts_checkout Qh)).
  assert (forall shows : list Event,
             tS = shows -> none (isGit "checkout") shows = true -> False) as No.
  { intros shows -> N. rewrite E in T.
    apply (in_not_none (isGit "checkout") pre post (EvGit args cwd reply)); auto.
    rewrite T, !none_app, Ch, N.
    apply (shows_none (isGit "checkout")); auto using closing_shows. }
  assert (fst (run w [] (createMergeRequest repository ed)) =
          match res with inl _ => inr tt | inr u => inr u end) as Fin.
  { destruct R as (repo & t1 & t2 & t3 & t4 & -> & E1 & E2 & Acc & Ac & E3 & E4 & ->).
    unfold createMergeRequest, show. cbn [run].
    change ([] ++ [EvShow Information msgStarting]) with started.
    rewrite run_bind, E1. unfold fromRoot. rewrite run_bindE, E2, Acc.
    cbn [negb]. rewrite run_tryCatch. unfold automatedFlow. cbn [run].
    repeat rewrite <- app_assoc. rewrite Ac.
    rewrite run_bindE; repeat rewrite <- app_assoc. rewrite E3.
    rewrite run_bindE; repeat rewrite <- app_assoc. rewrite E4.
    repeat rewrite <- app_assoc. rewrite E5.
    destruct res as [e | u]; reflexivity. }
  rewrite run_syncAndPublish in E5. cbv zeta in E5.
  destruct (git w h _ root) as [fr |] eqn:Gf.
  2:{ inversion E5; subst. exfalso. eapply No; reflexivity. }
  destruct (exitOk fr) eqn:Of.
  2:{ inversion E5; subst. exfalso. eapply No; reflexivity. }
  destruct (git w (h ++ _) _ root) as [mr |] eqn:Gm.
  2:{ inversion E5; subst. exfalso. eapply No; reflexivity. }
  destruct (exitOk mr) eqn:Om.
  2:{ inversion E5; subst. exfalso. eapply No; reflexivity. }
  rewrite run_pushAndCreate in E5. cbv zeta in E5.
  destruct (git w (h ++ _) (pushArgs origin target cur) root) as [pr |] eqn:Gp.
  2:{ inversion E5; subst. exfalso. eapply No; reflexivity. }
  destruct (exitOk pr) eqn:Op.
  2:{ inversion E5; subst. exfalso. eapply No; reflexivity. }
  destruct (mrUrlOf pr) as [url |] eqn:U.
  2:{ match type of E5 with
      | context [run w ?hh (openListing _ _)] =>
          destruct (openListing_no_git w root cur hh) as (_ & _ & N);
          destruct (run w hh (openListing root cur)) as [r t]
      end.
      cbn [snd] in N. inversion E5; subst. exfalso.
      eapply No; [reflexivity |]. rewrite !none_cons, N. reflexivity. }
  match type of E5 with
  | context [run w ?hh (openCreated _ _ _ _)] =>
      destruct (run_openCreated_eq w root target cur url hh) as (msg & Eo)
  end.
  cbv zeta in Eo. rewrite Eo in E5. inversion E5; subst res tS. clear E5.
  rewrite E in T.
  match type of T with
  | _ = h ++ (?ef :: ?em :: ?ep :: ?eo :: ?es :: ?ec :: ?after) ++ ?cl =>
      assert (pre = h ++ [ef; em; ep; eo; es] /\
              EvGit args cwd reply = ec /\
              post = after ++ cl) as (Hpre & Hev & Hpost)
  end.
  { apply (only_occurrence (isGit "checkout")); auto.
    - rewrite none_app, Ch. reflexivity.
    - rewrite none_app.
      rewrite (shows_none (isGit "checkout") _ (fun _ _ => eq_refl)
                          (afterCheckout_shows _ _)).
      reflexivity.
    - rewrite T. rewrite <- !app_assoc. reflexivity. }
  inversion Hev; subst args cwd.
  exists root, cur, origin, target, h.
  eexists (h ++ [_; _]), pr, url, _, msg.
  split; [exact R |]. split.
  { rewrite Hpre. rewrite <- !app_assoc. reflexivity. }
  repeat split; auto.
  rewrite Hpost. cbn [closing]. rewrite app_nil_r.
  match goal with H : reply = _ |- _ => rewrite <- H end. reflexivity.
Qed.

(* ===================================================================== *)
(** ** The git commands the handler can issue *)
(* ===================================================================== *)

Section Vocabulary.

Variable Q : list string -> Path -> Prop.

Lemma allGit_bind (A B : Type) (m : Prog A) (f : A -> Prog B) :
  allGit Q m -> (forall a, allGit Q (f a)) -> allGit Q (bind m f).
Proof.
  intros Hm Hf.
  induction m as [a | args cwd k IH | p k IH | p k IH | items k IH
                  | items k IH | url k IH | lvl msg k IH];
    cbn [bind allGit] in *; auto.
  destruct Hm as [Hq Hk]. split; auto.
Qed.

Lemma allGit_bindE (A B : Type) (m : M A) (f : A -> M B) :
  allGit Q m -> (forall a, allGit Q (f a)) -> allGit Q (bindE m f).
Proof.
  intros Hm Hf. apply allGit_bind; auto.
  intros [e | a]; cbn; auto.
Qed.

Lemma allGit_tryCatch (A : Type) (m : M A) (c : Exn -> M A) :
  allGit Q m -> (forall e, allGit Q (c e)) -> allGit Q (tryCatch m c).
Proof.
  intros Hm Hc. apply allGit_bind; auto.
  intros [e | a]; cbn; auto.
Qed.

Lemma allGit_runGitCommand (args : list string) (cwd : Path) (desc : string) :
  Q args cwd -> allGit Q (runGitCommand args cwd desc).
Proof.
  intro H. unfold runGitCommand. cbn. split; [exact H |].
  intros [r |]; cbn; exact I.
Qed.

Lemma allGit_run (A : Type) (p : Prog A) :
  allGit Q p ->
  forall (w : World) h args cwd reply,
    In (EvGit args cwd reply) (snd (run w h p)) -> Q args cwd.
Proof.
  induction p as [a | args0 cwd0 k IH | p0 k IH | p0 k IH | items k IH
                  | items k IH | url k IH | lvl msg k IH];
    intros Hall w h args cwd reply Hin; cbn [run allGit] in *.
  - destruct Hin.
  - destruct Hall as [Hq Hk].
    destruct (run w _ (k _)) as [a t] eqn:E. cbn [snd] in Hin.
    destruct Hin as [He | Hin]; [inversion He; subst; exact Hq |].
    eapply (IH _ (Hk _) w). rewrite E. exact Hin.
  - destruct (run w _ (k _)) as [a t] eqn:E. cbn [snd] in Hin.
    destruct Hin as [He | Hin]; [discriminate |].
    eapply (IH _ (Hall _) w). rewrite E. exact Hin.
  - destruct (run w _ (k _)) as [a t] eqn:E. cbn [snd] in Hin.
    destruct Hin as [He | Hin]; [discriminate |].
    eapply (IH _ (Hall _) w). rewrite E. exact Hin.
  - destruct (run w _ (k _)) as [a t] eqn:E. cbn [snd] in Hin.
    destruct Hin as [He | Hin]; [discriminate |].
    eapply (IH _ (Hall _) w). rewrite E. exact Hin.
  - destruct (run w _ (k _)) as [a t] eqn:E. cbn [snd] in Hin.
    destruct Hin as [He | Hin]; [discriminate |].
    eapply (IH _ (Hall _) w). rewrite E. exact Hin.
  - destruct (run w _ (k _)) as [a t] eqn:E. cbn [snd] in Hin.
    destruct Hin as [He | Hin]; [discriminate |].
    eapply (IH _ (Hall _) w). rewrite E. exact Hin.
  - destruct (run w _ k) as [a t] eqn:E. cbn [snd] in Hin.
    destruct Hin as [He | Hin]; [discriminate |].
    eapply (IH Hall w). rewrite E. exact Hin.
Qed.

End Vocabulary.

Lemma allGit_getOrigin (Q : list string -> Path -> Prop) (root : Path) :
  allGit Q (getOrigin root).
Proof.
  unfold getOrigin, selectRemote, ret, throw. cbn. intros [c |]; [| exact I].
  destruct (originRemotesOf c) as [| o1 [| o2 os]].
  - destruct (allRemotesOf c) as [| a1 [| a2 as']]; cbn; auto.
    intros r. destruct (picked _ r); cbn; auto.
    destruct (findByName _ _); cbn; auto.
  - cbn. auto.
  - cbn. intros r. destruct (picked _ r); cbn; auto.
    destruct (findByName _ _); cbn; auto.
Qed.

Lemma allGit_getTargetBranch (root : Path) (remote : string) :
  allGit (knownCommand root) (getTargetBranch root remote).
Proof.
  unfold getTargetBranch. apply allGit_bind.
  - unfold advertisedHead. apply allGit_bind.
    + apply allGit_runGitCommand. split; [reflexivity |].
      right; left. now exists remote.
    + intros [e | r]; cbn; auto.
      destruct (exitOk r && Js.truthy (stdout r)); cbn; auto.
      destruct (headBranchOf (stdout r)) as [b |]; cbn; auto.
      destruct (negb (String.eqb b "(unknown)")); cbn; auto.
  - intros [b |]; [cbn; auto |].
    unfold fallbackTargetBranch. apply allGit_tryCatch.
    + unfold listAndPick. apply allGit_bindE.
      * apply allGit_runGitCommand. split; [reflexivity |].
        right; right; left. reflexivity.
      * intros r. destruct (exitOk r && Js.truthy (stdout r)); cbn; auto.
        destruct (remoteBranchesOf (stdout r)) as [| b0 bs]; cbn; auto.
        intros reply. destruct (picked _ reply) as [sel |]; cbn; auto.
        destruct (Js.truthy sel); cbn; auto.
    + intros e. destruct (Js.includes _ e); cbn; auto.
Qed.

Lemma allGit_getCurrentBranch (root : Path) :
  allGit (knownCommand root) (getCurrentBranch root).
Proof.
  unfold getCurrentBranch. apply allGit_tryCatch.
  - apply allGit_bindE.
    + apply allGit_runGitCommand. split; [reflexivity | now left].
    + intros r. destruct (exitOk r && Js.truthy (stdout r)); cbn; auto.
      destruct (Js.truthy (Js.trim (stdout r))); cbn; auto.
  - intros e. cbn. auto.
Qed.

Lemma allGit_syncAndPublish (root : Path) (origin : Remote)
      (target cur : string) :
  allGit (knownCommand root) (syncAndPublish root origin target cur).
Proof.
  unfold syncAndPublish. apply allGit_bindE.
  { apply allGit_runGitCommand. split; [reflexivity |].
    do 3 right; left. now eexists. }
  intros fr. destruct (negb (exitOk fr)); [cbn; auto |].
  apply allGit_bindE.
  { apply allGit_runGitCommand. split; [reflexivity |].
    do 4 right; left. now eexists. }
  intros mr. destruct (negb (exitOk mr)); [cbn; auto |].
  unfold pushAndCreate. apply allGit_bindE.
  { apply allGit_runGitCommand. split; [reflexivity |].
    do 5 right; left. now exists origin, target, cur. }
  intros pr. destruct (exitOk pr); [| cbn; auto].
  destruct (mrUrlOf pr) as [url |].
  - unfold openCreated, show. cbn [allGit]. intros ok.
    unfold switchToTarget. apply allGit_tryCatch.
    + apply allGit_bindE.
      * apply allGit_runGitCommand. split; [reflexivity |].
        do 6 right. now eexists.
      * intros r. destruct (exitOk r); cbn; auto.
    + intros e. cbn. auto.
  - unfold openListing. apply allGit_tryCatch.
    + apply allGit_bindE; [apply allGit_getOrigin |].
      intros o. cbn. intros [|]; cbn; auto.
    + intros e. cbn. auto.
Qed.

Lemma allGit_fromRoot (root : Path) :
  allGit (knownCommand root) (fromRoot root).
Proof.
  unfold fromRoot. apply allGit_bindE; [apply allGit_getCurrentBranch |].
  intros cur. destruct (negb (acceptedBranch cur)); [cbn; auto |].
  apply allGit_tryCatch.
  - unfold automatedFlow. cbn [allGit]. intros [|]; [| cbn; auto].
    apply allGit_bindE; [apply allGit_getOrigin |]. intros origin.
    apply allGit_bindE; [apply allGit_getTargetBranch |]. intros target.
    apply allGit_syncAndPublish.
  - intros e. cbn. auto.
Qed.

Lemma allGit_locateRoot (repo : Repository) (ed : option Path) :
  allGit (fun _ _ => False) (locateRoot repo ed).
Proof.
  unfold locateRoot. destruct (rootUri repo); [exact I |].
  destruct ed as [file |]; [| exact I].
  induction (rev (dirname file)) as [| d up IH]; cbn; auto.
  intros [|]; cbn; auto.
Qed.


(* ===================================================================== *)
(** ** Locating the root (lines 264-291) *)
(* ===================================================================== *)

Lemma findGitRootRev_probes (w : World) (revDir : list string) :
  forall h,
  exists n,
    snd (run w h (findGitRootRev revDir)) =
    map (probe false) (firstn n (ancestorsRev revDir)) ++
    match fst (run w h (findGitRootRev revDir)) with
    | Some d => [probe true d]
    | None => []
    end /\
    match fst (run w h (findGitRootRev revDir)) with
    | Some d => nth_error (ancestorsRev revDir) n = Some d
    | None => n = length (ancestorsRev revDir)
    end.
Proof.
  induction revDir as [| d up IH]; intro h.
  - exists 0. cbn. auto.
  - cbn [findGitRootRev run ancestorsRev].
    destruct (access w h (rev (d :: up) ++ [".git"])) eqn:Ac.
    + exists 0. cbn. auto.
    + destruct (IH (h ++ [EvAccess (rev (d :: up) ++ [".git"]) false]))
        as (n & Et & En).
      destruct (run w _ (findGitRootRev up)) as [res t].
      cbn [fst snd] in *. exists (S n). cbn [firstn map app nth_error length].
      split; [rewrite Et; reflexivity |].
      destruct res; [exact En | now rewrite En].
Qed.

(** The directories probed are the directory and its parents by
    [dirname], down to the one below the root. *)
Lemma ancestors_step (dir : Path) :
  dir <> [] -> ancestors dir = dir :: ancestors (dirname dir).
Proof.
  intro Hne. unfold ancestors, dirname.
  destruct (exists_last Hne) as (up & x & ->).
  rewrite removelast_last, rev_app_distr. cbn [rev app ancestorsRev].
  rewrite rev_involutive. reflexivity.
Qed.

(** X8.  Without a root in the repository handle, the handler probes
    [.git] in the directory of the active file and then in each parent in
    turn, stops at the first directory where the probe succeeds and takes
    it as the root; the file-system root itself is never probed.  When
    every probe fails no root is found. *)
Theorem locateRoot_nearest_ancestor (w : World) (h : list Event)
        (activeFile : Path) :
  let dirs := ancestors (dirname activeFile) in
  let found := fst (run w h (locateRoot (mkRepository None) (Some activeFile))) in
  exists n,
    snd (run w h (locateRoot (mkRepository None) (Some activeFile))) =
    map (probe false) (firstn n dirs) ++
    match found with Some d => [probe true d] | None => [] end /\
    match found with
    | Some d => nth_error dirs n = Some d
    | None => n = length dirs
    end /\
    ~ In [] dirs /\
    (forall dir, dir <> [] -> ancestors dir = dir :: ancestors (dirname dir)).
Proof.
  intros dirs found. unfold found, dirs, locateRoot. cbn [rootUri].
  unfold ancestors.
  destruct (findGitRootRev_probes w (rev (dirname activeFile)) h)
    as (n & Et & En).
  exists n. split; [exact Et |]. split; [exact En |].
  split; [| exact ancestors_step].
  generalize (rev (dirname activeFile)). clear.
  induction l as [| d up IH]; cbn [ancestorsRev In]; [tauto |].
  intros [Hn | Hin]; [| tauto].
  cbn [rev] in Hn. destruct (rev up); discriminate.
Qed.

(* ===================================================================== *)
(** ** The current branch (lines 217-242) *)
(* ===================================================================== *)

Lemma trimEnd_idem (s : string) : Js.trimEnd (Js.trimEnd s) = Js.trimEnd s.
Proof.
  induction s as [| c s IH]; [reflexivity |].
  cbn [Js.trimEnd]. destruct (Js.trimEnd s) as [| d t] eqn:E.
  - destruct (Js.is_space c) eqn:Sc; cbn [Js.trimEnd]; [reflexivity |].
    now rewrite Sc.
  - cbn [Js.trimEnd] in *. rewrite IH. reflexivity.
Qed.

Lemma trimStart_head (s : string) :
  Js.stopsAt Js.is_space (Js.trimStart s) = true.
Proof.
  induction s as [| c s IH]; [reflexivity |].
  cbn [Js.trimStart]. destruct (Js.is_space c) eqn:Sc; [exact IH |].
  cbn. now rewrite Sc.
Qed.

Lemma trimStart_trimEnd (s : string) :
  Js.stopsAt Js.is_space s = true ->
  Js.trimStart (Js.trimEnd s) = Js.trimEnd s.
Proof.
  destruct s as [| c s]; [reflexivity |].
  cbn [Js.stopsAt]. intro Hc. apply negb_true_iff in Hc.
  cbn [Js.trimEnd]. destruct (Js.trimEnd s); rewrite ?Hc;
    cbn [Js.trimStart]; now rewrite Hc.
Qed.

Lemma trim_idem (s : string) : Js.trim (Js.trim s) = Js.trim s.
Proof.
  unfold Js.trim.
  rewrite (trimStart_trimEnd _ (trimStart_head s)).
  apply trimEnd_idem.
Qed.

(** X9.  [getCurrentBranch] issues one query.  A branch it returns is the
    trimmed output of a query that exited with 0: it is not empty and has
    no white space or line end around it.  Every error it throws starts
    with the words Failed to determine current branch. *)
Theorem getCurrentBranch_result (w : World) (h : list Event) (root : Path) :
  let reply := git w h showCurrent root in
  match fst (run w h (getCurrentBranch root)) with
  | inr cur =>
      exists r,
        reply = Some r /\ exitOk r = true /\ cur = Js.trim (stdout r) /\
        cur <> EmptyString /\ Js.trim cur = cur /\
        snd (run w h (getCurrentBranch root)) = [EvGit showCurrent root reply]
  | inl e =>
      exists inner, e = "Failed to determine current branch: " +++ inner
  end.
Proof.
  intro reply. unfold getCurrentBranch.
  rewrite run_tryCatch, run_bindE, run_runGitCommand. fold reply.
  unfold ret, throw.
  destruct reply as [r |].
  - destruct (exitOk r) eqn:Ok; cbn [andb].
    + destruct (Js.truthy (stdout r)); cbn [andb].
      * destruct (Js.truthy (Js.trim (stdout r))) eqn:Tr; cbn.
        -- exists r. repeat split; auto using trim_idem.
           intro E. rewrite E in Tr. discriminate.
        -- eexists; reflexivity.
      * cbn. eexists; reflexivity.
    + cbn. eexists; reflexivity.
  - cbn. eexists; reflexivity.
Qed.

Lemma getCurrentBranch_error (w : World) (h : list Event) (root : Path)
      (e : Exn) :
  fst (run w h (getCurrentBranch root)) = inl e ->
  exists inner, e = "Failed to determine current branch: " +++ inner.
Proof.
  unfold getCurrentBranch.
  rewrite run_tryCatch, run_bindE, run_runGitCommand.
  unfold ret, throw.
  destruct (git w h showCurrent root) as [r |]; cbn;
    [| intro H; inversion H; eexists; reflexivity].
  destruct (exitOk r && Js.truthy (stdout r)); cbn;
    [| intro H; inversion H; eexists; reflexivity].
  destruct (Js.truthy (Js.trim (stdout r))); cbn;
    intro H; inversion H; eexists; reflexivity.
Qed.

(** The handler's own [catch] turns every throw of the [try] block into a
    notification. *)
Lemma run_fromRoot_result (w : World) (h : list Event) (root : Path) :
  match fst (run w h (getCurrentBranch root)) with
  | inl e => fst (run w h (fromRoot root)) = inl e
  | inr _ => fst (run w h (fromRoot root)) = inr tt
  end.
Proof.
  unfold fromRoot. rewrite run_bindE.
  destruct (run w h (getCurrentBranch root)) as [[e | cur] t]; cbn [fst];
    [reflexivity |].
  destruct (negb (acceptedBranch cur)); [reflexivity |].
  rewrite run_tryCatch.
  destruct (run w _ (automatedFlow root cur)) as [[e | []] tA];
    reflexivity.
Qed.

(** X10.  The handler rejects in two cases only: when it is called without
    a repository (line 260 reads [repository.rootUri]), and when the
    current branch cannot be determined (the query of line 295 stands
    before the [try]).  Every other failure - no root, no .git, remote or
    target branch unresolved, fetch, merge, push, checkout - ends with a
    notification and a normal return. *)
Theorem handler_rejects_only_before_try (w : World)
        (repository : option Repository) (ed : option Path) (e : Exn) :
  fst (run w [] (createMergeRequest repository ed)) = inl e ->
  (repository = None /\
   e = "Cannot read properties of undefined (reading 'rootUri')") \/
  (exists repo root t1 inner,
      repository = Some repo /\
      run w started (locateRoot repo ed) = (Some root, t1) /\
      fst (run w (started ++ t1) (getCurrentBranch root)) = inl e /\
      e = "Failed to determine current branch: " +++ inner).
Proof.
  unfold createMergeRequest.
  destruct repository as [repo |];
    [| intro H; left; inversion H; auto].
  unfold show. cbn [run].
  change ([] ++ [EvShow Information msgStarting]) with started.
  rewrite run_bind.
  destruct (run w started (locateRoot repo ed)) as [[root |] t1] eqn:E1.
  - pose proof (run_fromRoot_result w (started ++ t1) root) as F.
    destruct (run w (started ++ t1) (fromRoot root)) as [res t] eqn:E2.
    cbn [fst]. intros ->. right.
    destruct (fst (run w (started ++ t1) (getCurrentBranch root)))
      as [e0 | cur] eqn:Eg; cbn [fst] in F; [| discriminate].
    inversion F; subst e0.
    destruct (getCurrentBranch_error _ _ _ _ Eg) as (inner & ->).
    exists repo, root, t1, inner. auto.
  - cbn. discriminate.
Qed.

(* ===================================================================== *)
(** ** Reading the remote off the configuration (lines 61-104) *)
(* ===================================================================== *)

Lemma append_cons (c : ascii) (a b : string) :
  String c a +++ b = String c (a +++ b).
Proof. reflexivity. Qed.

Lemma matchAt_lits (p : string) (r : Re.regex) (s : string)
      (caps : list string) :
  forall cur,
    Re.matchAt (Re.lits p ++ r) (p +++ s) cur caps =
    Re.matchAt r s (Re.pushAll cur p) caps.
Proof.
  induction p as [| c p IH]; intro cur.
  - change (EmptyString +++ s) with s. cbn [Re.lits list_ascii_of_string map app].
    destruct cur; cbn [Re.pushAll]; [now rewrite append_empty_r | reflexivity].
  - rewrite append_cons.
    cbn [Re.lits list_ascii_of_string map app Re.matchAt].
    rewrite Ascii.eqb_refl. fold (Re.lits p). rewrite IH, pushAll_push.
    reflexivity.
Qed.

Lemma matchAt_Lit (c : ascii) (r : Re.regex) (s : string)
      (cur : option string) (caps : list string) :
  Re.matchAt (Re.Lit c :: r) (String c s) cur caps =
  Re.matchAt r s (Re.push cur c) caps.
Proof. cbn [Re.matchAt]. now rewrite Ascii.eqb_refl. Qed.

Lemma matchAt_GOpen (r : Re.regex) (s : string) (cur : option string)
      (caps : list string) :
  Re.matchAt (Re.GOpen :: r) s cur caps =
  Re.matchAt r s (Some EmptyString) caps.
Proof. reflexivity. Qed.

Lemma matchAt_GClose_end (s g : string) (caps : list string) :
  Re.matchAt [Re.GClose] s (Some g) caps = Some (caps ++ [g], s).
Proof. reflexivity. Qed.

Lemma matchAt_StarLazy (p : ascii -> bool) (r : Re.regex) (s : string)
      (cur : option string) (caps : list string) :
  Re.matchAt (Re.StarLazy p :: r) s cur caps =
  match Re.matchAt r s cur caps with
  | Some m => Some m
  | None =>
      match s with
      | String x s' =>
          if p x then Re.matchAt (Re.StarLazy p :: r) s' (Re.push cur x) caps
          else None
      | EmptyString => None
      end
  end.
Proof. destruct s; reflexivity. Qed.

Lemma space_not_u (g : ascii) : Js.is_space g = true -> Ascii.eqb "u" g = false.
Proof.
  intro H. destruct (Ascii.eqb "u" g) eqn:E; [| reflexivity].
  apply Ascii.eqb_eq in E. subst g. discriminate.
Qed.

Lemma space_notBracket (g : ascii) :
  Js.is_space g = true -> Re.notBracket g = true.
Proof.
  intro H. unfold Re.notBracket. destruct (Ascii.eqb g "[") eqn:E;
    [| reflexivity].
  apply Ascii.eqb_eq in E. subst g. discriminate.
Qed.

(** The lazy star before the key url passes white space. *)
Lemma lazy_over_spaces (r : Re.regex) (s : string) (caps : list string)
      (m : list string * string) :
  forall gap cur,
    Js.every Js.is_space gap = true ->
    Re.matchAt (Re.Lit "u" :: r) s (Re.pushAll cur gap) caps = Some m ->
    Re.matchAt (Re.StarLazy Re.notBracket :: Re.Lit "u" :: r) (gap +++ s)
               cur caps = Some m.
Proof.
  induction gap as [| g gap IH]; intros cur Ev H.
  - change (EmptyString +++ s) with s. rewrite matchAt_StarLazy.
    assert (Re.pushAll cur EmptyString = cur) as E
        by (destruct cur; cbn; [now rewrite append_empty_r | reflexivity]).
    rewrite E in H. now rewrite H.
  - rewrite append_cons, matchAt_StarLazy.
    cbn [Js.every] in Ev. apply andb_true_iff in Ev as [Sg Ev].
    cbn [Re.matchAt]. rewrite (space_not_u _ Sg), (space_notBracket _ Sg).
    apply IH; [exact Ev |]. now rewrite pushAll_push.
Qed.

Lemma urlChar_not_space (c : ascii) :
  Re.urlChar c = true -> Js.is_space c = false.
Proof.
  unfold Re.urlChar. intro H. apply andb_true_iff in H as [H _].
  now apply negb_true_iff in H.
Qed.

(** The tail [url\s*=\s*([^\s#]+)] on a key, an equals sign and a URL. *)
Lemma urlTail_matches (sp1 sp2 : string) (u0 : ascii) (url rest : string)
      (caps : list string) :
  Js.every Js.is_space sp1 = true -> Js.every Js.is_space sp2 = true ->
  Re.urlChar u0 = true -> Js.every Re.urlChar url = true ->
  Js.stopsAt Re.urlChar rest = true ->
  Re.matchAt Re.urlTail
             ("url" +++ sp1 +++ String "=" (sp2 +++ String u0 url +++ rest))
             None caps =
  Some (caps ++ [String u0 url], rest).
Proof.
  intros H1 H2 Hu0 Hu Hr. unfold Re.urlTail.
  rewrite matchAt_lits. cbn [Re.pushAll].
  apply star_takes_all; [reflexivity | exact H1 |].
  cbn [Re.pushAll]. rewrite matchAt_Lit. cbn [Re.push].
  apply star_takes_all; [| exact H2 |].
  { rewrite append_cons. cbn [Js.stopsAt].
    now rewrite (urlChar_not_space _ Hu0). }
  cbn [Re.pushAll]. rewrite matchAt_GOpen, append_cons.
  rewrite matchAt_One by exact Hu0. cbn [Re.push].
  change (Some (EmptyString +++ String u0 EmptyString))
    with (Some (String u0 EmptyString)).
  apply star_takes_all; [exact Hr | exact Hu |].
  cbn [Re.pushAll]. rewrite matchAt_GClose_end, append_cons.
  change (EmptyString +++ url) with url. reflexivity.
Qed.

(** The expression for the remote origin on a section of origin. *)
Lemma remoteOriginRegex_matches (s0 : ascii) (ss gap sp1 sp2 : string)
      (u0 : ascii) (url rest : string) :
  Js.is_space s0 = true -> Js.every Js.is_space ss = true ->
  Js.every Js.is_space gap = true ->
  Js.every Js.is_space sp1 = true -> Js.every Js.is_space sp2 = true ->
  Re.urlChar u0 = true -> Js.every Re.urlChar url = true ->
  Js.stopsAt Re.urlChar rest = true ->
  Re.matchHere Re.remoteOriginRegex
               (originSection s0 ss gap sp1 sp2 (String u0 url +++ rest)) =
  Some ([String u0 url], rest).
Proof.
  intros Hs0 Hss Hgap H1 H2 Hu0 Hu Hr.
  unfold Re.matchHere, Re.remoteOriginRegex, originSection.
  rewrite matchAt_lits. cbn [Re.pushAll app].
  rewrite append_cons, matchAt_One by exact Hs0. cbn [Re.push].
  apply star_takes_all; [reflexivity | exact Hss |].
  cbn [Re.pushAll]. rewrite matchAt_Lit. cbn [Re.push].
  rewrite matchAt_lits. cbn [Re.pushAll app].
  rewrite !matchAt_Lit. cbn [Re.push].
  unfold Re.urlTail. cbn [Re.lits list_ascii_of_string map app].
  apply lazy_over_spaces; [exact Hgap |]. cbn [Re.pushAll].
  exact (urlTail_matches sp1 sp2 u0 url rest [] H1 H2 Hu0 Hu Hr).
Qed.

Lemma execAll_cons (r : Re.regex) (skip : nat) (c : ascii) (s' : string) :
  Re.execAll r skip (String c s') =
  match skip with
  | S n => Re.execAll r n s'
  | O =>
      match Re.matchHere r (String c s') with
      | Some (caps, rest) =>
          caps :: Re.execAll r (String.length (String c s') -
                                String.length rest - 1) s'
      | None => Re.execAll r 0 s'
      end
  end.
Proof. reflexivity. Qed.

Lemma execAll_skip (r : Re.regex) (rest : string) :
  forall a, Re.execAll r (String.length a) (a +++ rest) = Re.execAll r 0 rest.
Proof.
  induction a as [| c a IH]; [reflexivity |].
  rewrite append_cons, execAll_cons. exact IH.
Qed.

(** One turn of the loop over the matches: a match consumes its text and
    the search goes on in what is left. *)
Lemma execAll_match (r : Re.regex) (c : ascii) (a rest : string)
      (caps : list string) :
  Re.matchHere r (String c a +++ rest) = Some (caps, rest) ->
  Re.execAll r 0 (String c a +++ rest) = caps :: Re.execAll r 0 rest.
Proof.
  intro M. rewrite append_cons in *. rewrite execAll_cons, M.
  cbn [String.length]. rewrite length_append.
  replace (S (String.length a + String.length rest) - String.length rest - 1)
    with (String.length a) by lia.
  now rewrite execAll_skip.
Qed.

Lemma execAll_noStart (r : Re.regex) (s : string) :
  forall pre,
    noStart r pre s = true ->
    Re.execAll r 0 (pre +++ s) = Re.execAll r 0 s.
Proof.
  induction pre as [| c pre IH]; [reflexivity |].
  cbn [noStart]. rewrite append_cons.
  destruct (Re.matchHere r (String c (pre +++ s))) eqn:M; [discriminate |].
  intro N. rewrite execAll_cons, M. auto.
Qed.

Lemma originSection_app (s0 : ascii) (ss gap sp1 sp2 url rest : string) :
  originSection s0 ss gap sp1 sp2 (url +++ rest) =
  originSection s0 ss gap sp1 sp2 url +++ rest.
Proof.
  unfold originSection.
  repeat (rewrite ?append_assoc, ?append_cons). reflexivity.
Qed.

(** X11.  A configuration that holds one section of the remote origin -
    whatever stands before it, other remotes included - is resolved to the
    URL of that section without a prompt: the URL is the text after the
    equals sign of the key url up to the next white space or number
    sign. *)
Theorem getOrigin_reads_origin_section (w : World) (h : list Event)
        (root : Path) (pre : string) (s0 : ascii) (ss gap sp1 sp2 : string)
        (u0 : ascii) (url rest : string) :
  let section := originSection s0 ss gap sp1 sp2 (String u0 url +++ rest) in
  readFile w h (root ++ [".git"; "config"]) = Some (pre +++ section) ->
  Js.is_space s0 = true -> Js.every Js.is_space ss = true ->
  Js.every Js.is_space gap = true ->
  Js.every Js.is_space sp1 = true -> Js.every Js.is_space sp2 = true ->
  Re.urlChar u0 = true -> Js.every Re.urlChar url = true ->
  Js.stopsAt Re.urlChar rest = true ->
  noStart Re.remoteOriginRegex pre section = true ->
  Re.execAll Re.remoteOriginRegex 0 rest = [] ->
  run w h (getOrigin root) =
  (inr (mkRemote "origin" (String u0 url)),
   [EvReadFile (root ++ [".git"; "config"]) (Some (pre +++ section))]).
Proof.
  intros section Rd Hs0 Hss Hgap H1 H2 Hu0 Hu Hr Hpre Hrest.
  assert (originRemotesOf (pre +++ section) =
          [mkRemote "origin" (String u0 url)]) as EO.
  { unfold originRemotesOf. rewrite (execAll_noStart _ _ _ Hpre).
    pose proof (remoteOriginRegex_matches s0 ss gap sp1 sp2 u0 url rest
                  Hs0 Hss Hgap H1 H2 Hu0 Hu Hr) as M.
    subst section. rewrite originSection_app in *.
    change (originSection s0 ss gap sp1 sp2 (String u0 url))
      with (String "[" ("remote" +++ String s0 ss +++
              String Re.dq ("origin" +++ String Re.dq (String "]"
                (gap +++ "url" +++ sp1 +++ String "=" (sp2 +++ String u0 url))))))
      in *.
    rewrite (execAll_match _ _ _ _ _ M), Hrest. reflexivity. }
  unfold getOrigin. cbn [run]. rewrite Rd, EO. reflexivity.
Qed.

(** X12.  With several candidate remotes of pairwise different names the
    prompt lists one entry per candidate, in the order of the
    configuration, and the remote returned is the candidate at the place
    the user picked; a dismissed prompt throws an error that says the
    selection was cancelled by the user. *)
Theorem getOrigin_returns_pick_when_names_differ (w : World)
        (h : list Event) (root : Path) (configContent : string) :
  readFile w h (root ++ [".git"; "config"]) = Some configContent ->
  2 <= length (candidateRemotes configContent) ->
  NoDup (map remoteName (candidateRemotes configContent)) ->
  let remotes := candidateRemotes configContent in
  let read := EvReadFile (root ++ [".git"; "config"]) (Some configContent) in
  let reply := pick w (h ++ [read]) (remoteItems remotes) in
  snd (run w h (getOrigin root)) = [read; EvPick (remoteItems remotes) reply] /\
  map label (remoteItems remotes) = map remoteName remotes /\
  map description (remoteItems remotes) = map remoteUrl remotes /\
  match picked remotes reply with
  | Some r => fst (run w h (getOrigin root)) = inr r
  | None =>
      exists e, fst (run w h (getOrigin root)) = inl e /\
                Js.includes "cancelled by user" e = true
  end.
Proof.
  intros Rd Len ND remotes read reply.
  destruct (getOrigin_prompt w h root configContent Rd Len)
    as (res & E & _ & P).
  cbv zeta in E, P. fold remotes in E, P. fold read in E, P. fold reply in E, P.
  rewrite E. cbn [fst snd]. split; [reflexivity |].
  split; [unfold remoteItems; rewrite map_map; reflexivity |].
  split; [unfold remoteItems; rewrite map_map; reflexivity |].
  destruct (picked remotes reply) as [r |] eqn:Pk; [| exact P].
  rewrite P. unfold picked in Pk. destruct reply as [i |]; [| discriminate].
  now rewrite (findByName_distinct remotes i r ND Pk).
Qed.

(* ===================================================================== *)
(** ** Failures of the target branch (lines 160-208) *)
(* ===================================================================== *)

(** X13.  [getTargetBranch] fails in two ways only.  It throws that the
    selection was cancelled exactly when the list of branches was shown and
    no entry was picked; every other failure of the fallback (the listing
    could not be run or exited with another code than 0, printed nothing,
    or held no branch of origin) is thrown as the one error that the target
    branch could not be determined, and no list is shown.  A failure of
    [git remote show] alone is never an error: the listing is tried
    first. *)
Theorem getTargetBranch_failures (w : World) (h : list Event) (root : Path)
        (remote : string) (e : Exn) :
  fst (run w h (getTargetBranch root remote)) = inl e ->
  In (EvGit ["branch"; "-r"] root
            (git w (h ++ snd (run w h (advertisedHead root remote)))
                 ["branch"; "-r"] root))
     (snd (run w h (getTargetBranch root remote))) /\
  ((e = targetBranchCancelled /\
    exists items reply,
      In (EvPickStr items reply) (snd (run w h (getTargetBranch root remote))) /\
      items <> [] /\
      (picked items reply = None \/ picked items reply = Some EmptyString)) \/
   (e = targetBranchFailed /\
    forall items reply,
      ~ In (EvPickStr items reply)
           (snd (run w h (getTargetBranch root remote))))).
Proof.
  unfold getTargetBranch. rewrite run_bind.
  pose proof (run_advertisedHead w h root remote) as A. cbv zeta in A.
  assert (forall items reply,
             ~ In (EvPickStr items reply)
                  (snd (run w h (advertisedHead root remote)))) as NoPick.
  { intros items reply. rewrite A.
    destruct (git w h _ root); cbn; intuition discriminate. }
  destruct (run w h (advertisedHead root remote)) as [[b |] t1];
    cbn [fst snd] in *; [discriminate |].
  unfold fallbackTargetBranch, listAndPick.
  rewrite run_tryCatch, run_bindE, run_runGitCommand.
  destruct (git w (h ++ t1) ["branch"; "-r"] root) as [r2 |].
  2:{ cbn. intro H. inversion H; subst e. split; [apply in_or_app; right; now left |].
      right. split; [reflexivity |]. intros items reply Hin.
      apply in_app_or in Hin as [Hin | Hin]; [exact (NoPick _ _ Hin) |].
      cbn in Hin. intuition discriminate. }
  destruct (exitOk r2 && Js.truthy (stdout r2)).
  2:{ cbn. intro H. inversion H; subst e. split; [apply in_or_app; right; now left |].
      right. split; [reflexivity |]. intros items reply Hin.
      apply in_app_or in Hin as [Hin | Hin]; [exact (NoPick _ _ Hin) |].
      cbn in Hin. intuition discriminate. }
  destruct (remoteBranchesOf (stdout r2)) as [| b0 bs] eqn:EB.
  { cbn. intro H. inversion H; subst e. split; [apply in_or_app; right; now left |].
    right. split; [reflexivity |]. intros items reply Hin.
    apply in_app_or in Hin as [Hin | Hin]; [exact (NoPick _ _ Hin) |].
    cbn in Hin. intuition discriminate. }
  cbn [run app]. unfold ret, throw.
  destruct (picked (b0 :: bs) (pickStr w _ (b0 :: bs))) as [sel |] eqn:Pk.
  - destruct (Js.truthy sel) eqn:Tr.
    + cbn. discriminate.
    + cbn. intro H. inversion H; subst e.
      split; [apply in_or_app; right; now left |].
      left. split; [reflexivity |].
      exists (b0 :: bs), (pickStr w ((h ++ t1) ++ [EvGit ["branch"; "-r"] root (Some r2)]) (b0 :: bs)).
      split; [apply in_or_app; right; right; now left |].
      split; [discriminate |]. right. rewrite Pk.
      destruct sel; [reflexivity | discriminate].
  - cbn. intro H. inversion H; subst e.
    split; [apply in_or_app; right; now left |].
    left. split; [reflexivity |].
    exists (b0 :: bs), (pickStr w ((h ++ t1) ++ [EvGit ["branch"; "-r"] root (Some r2)]) (b0 :: bs)).
    split; [apply in_or_app; right; right; now left |].
    split; [discriminate |]. now left.
Qed.

(* ===================================================================== *)
(** ** Reading the listing of remote branches (lines 165-175) *)
(* ===================================================================== *)

Lemma split_cons (sep c : ascii) (s : string) :
  Js.split sep (String c s) =
  if Ascii.eqb c sep then EmptyString :: Js.split sep s
  else match Js.split sep s with
       | [] => [String c EmptyString]
       | l :: ls => String c l :: ls
       end.
Proof. reflexivity. Qed.

Lemma split_line (sep : ascii) (l : string) :
  Js.every (fun c => negb (Ascii.eqb c sep)) l = true ->
  Js.split sep l = [l].
Proof.
  induction l as [| c l IH]; [reflexivity |].
  cbn [Js.every]. intro H. apply andb_true_iff in H as [Hc H].
  apply negb_true_iff in Hc. rewrite split_cons, Hc, (IH H). reflexivity.
Qed.

Lemma split_line_then (sep : ascii) (l rest : string) :
  Js.every (fun c => negb (Ascii.eqb c sep)) l = true ->
  Js.split sep (l +++ String sep rest) = l :: Js.split sep rest.
Proof.
  induction l as [| c l IH].
  - intros _. change (EmptyString +++ String sep rest) with (String sep rest).
    rewrite split_cons, Ascii.eqb_refl. reflexivity.
  - cbn [Js.every]. intro H. apply andb_true_iff in H as [Hc H].
    apply negb_true_iff in Hc.
    rewrite append_cons, split_cons, Hc, (IH H). reflexivity.
Qed.

Lemma split_unlines (lines : list string) :
  lines <> [] ->
  Forall (fun l => Js.every (fun c => negb (Ascii.eqb c (ascii_of_nat 10))) l
                   = true) lines ->
  Js.split (ascii_of_nat 10) (unlines lines) = lines.
Proof.
  induction lines as [| l ls IH]; [congruence |].
  intros _ F. inversion F as [| ? ? Hl Hls]; subst.
  destruct ls as [| l2 ls].
  - cbn [unlines]. now apply split_line.
  - change (unlines (l :: l2 :: ls))
      with (l +++ String (ascii_of_nat 10) (unlines (l2 :: ls))).
    rewrite (split_line_then _ _ _ Hl), IH; auto. discriminate.
Qed.

Lemma every_weaken (p q : ascii -> bool) (s : string) :
  (forall c, p c = true -> q c = true) ->
  Js.every p s = true -> Js.every q s = true.
Proof.
  intro Hpq. induction s as [| c s IH]; [reflexivity |].
  cbn [Js.every]. intro H. apply andb_true_iff in H as [Hc H].
  now rewrite (Hpq c Hc), (IH H).
Qed.

Lemma non_space_not_nl (c : ascii) :
  Js.non_space c = true -> negb (Ascii.eqb c (ascii_of_nat 10)) = true.
Proof.
  intro H. apply negb_true_iff.
  destruct (Ascii.eqb c (ascii_of_nat 10)) eqn:E; [| reflexivity].
  apply Ascii.eqb_eq in E. subst c. discriminate.
Qed.

(** The expression of line 167 on the line of a branch of origin. *)
Lemma originBranchRegex_matches (b0 : ascii) (b : string) :
  Js.non_space b0 = true -> Js.every Js.non_space b = true ->
  Re.matchHere Re.originBranchRegex (originLine (String b0 b)) =
  Some ([String b0 b], EmptyString).
Proof.
  intros H0 Hb. unfold Re.matchHere, Re.originBranchRegex, originLine.
  cbn [app].
  change ("  origin/" +++ String b0 b)
    with ("  " +++ ("origin/" +++ String b0 b)).
  apply star_takes_all; [reflexivity | reflexivity |].
  cbn [Re.pushAll]. rewrite matchAt_lits. cbn [Re.pushAll].
  rewrite matchAt_GOpen, matchAt_One by exact H0. cbn [Re.push].
  change (Some (EmptyString +++ String b0 EmptyString))
    with (Some (String b0 EmptyString)).
  rewrite <- (append_empty_r b) at 1.
  apply star_takes_all; [reflexivity | exact Hb |].
  cbn [Re.pushAll]. rewrite matchAt_GClose_end, append_cons.
  change (EmptyString +++ b) with b. reflexivity.
Qed.

Lemma every_append (p : ascii -> bool) (a b : string) :
  Js.every p (a +++ b) = Js.every p a && Js.every p b.
Proof.
  induction a as [| c a IH]; [reflexivity |].
  rewrite append_cons. cbn [Js.every]. now rewrite IH, andb_assoc.
Qed.

Lemma originBranchOf_originLine (b : string) :
  branchName b = true ->
  Js.includes "->" (originLine b) = false ->
  originBranchOf (originLine b) = Some b.
Proof.
  unfold branchName. intros H Ha. apply andb_true_iff in H as [Tr Ev].
  destruct b as [| b0 b]; [discriminate |].
  cbn [Js.every] in Ev. apply andb_true_iff in Ev as [H0 Hb].
  unfold originBranchOf.
  rewrite Ha, (originBranchRegex_matches b0 b H0 Hb). reflexivity.
Qed.

(** X14.  The candidates read off a listing of remote branches are the
    branches of origin, in the order of the listing: a line that holds an
    arrow (the pointer of HEAD) is skipped, and the line of a branch of
    origin gives its name without the indentation and without origin/. *)
Theorem remoteBranchesOf_origin_listing (entries : list (string + string)) :
  entries <> [] ->
  forallb listingEntry entries = true ->
  remoteBranchesOf (unlines (map listingLine entries)) = branchesOf entries.
Proof.
  intros Hne Hall. unfold remoteBranchesOf.
  rewrite split_unlines.
  - clear Hne. induction entries as [| x xs IH]; [reflexivity |].
    cbn [forallb] in Hall. apply andb_true_iff in Hall as [Hx Hxs].
    cbn [map collectBranches branchesOf]. destruct x as [pointer | b].
    + cbn [listingLine listingEntry] in *.
      apply andb_true_iff in Hx as [Ha _].
      unfold originBranchOf. rewrite Ha. auto.
    + cbn [listingLine listingEntry] in *.
      apply andb_true_iff in Hx as [Hb Ha]. apply negb_true_iff in Ha.
      rewrite (originBranchOf_originLine b Hb Ha), (IH Hxs). reflexivity.
  - destruct entries; [congruence | discriminate].
  - clear Hne. induction entries as [| x xs IH]; [constructor |].
    cbn [forallb] in Hall. apply andb_true_iff in Hall as [Hx Hxs].
    cbn [map]. constructor; [| exact (IH Hxs)].
    destruct x as [pointer | b]; cbn [listingLine listingEntry] in *.
    + apply andb_true_iff in Hx as [_ Hn]. exact Hn.
    + apply andb_true_iff in Hx as [Hb _]. unfold branchName in Hb.
      apply andb_true_iff in Hb as [_ Ev]. unfold originLine.
      rewrite every_append. apply andb_true_iff. split; [reflexivity |].
      exact (every_weaken _ _ _ non_space_not_nl Ev).
Qed.

(* ===================================================================== *)
(** ** The properties above at concrete runs *)
(* ===================================================================== *)

Lemma fetch_failure_stops_witness :
  exists h fr,
    trace (Cases.worldOf Cases.fetchFails) Demo.handle None =
    h ++ [ EvGit ["fetch"; "origin"] Demo.root (Some fr);
           EvShow Error
             "Git fetch from origin failed. Check Output channel for details." ] /\
    none (isGit "merge") (trace (Cases.worldOf Cases.fetchFails) Demo.handle None)
    = true /\
    none (isGit "push") (trace (Cases.worldOf Cases.fetchFails) Demo.handle None)
    = true.
Proof.
  do 2 eexists.
  eapply (fetch_failure_stops (Cases.worldOf Cases.fetchFails) Demo.handle None
            Demo.root "feat/login" (mkRemote "origin" Demo.urlA) "main").
  - reached_here.
  - vm_compute. reflexivity.
  - vm_compute. reflexivity.
Defined.

Lemma merge_failure_ends_run_witness :
  exists h fr,
    trace (Demo.worldOf Demo.conflicting) Demo.handle None =
    h ++ [ EvGit ["fetch"; "origin"] Demo.root (Some fr);
           EvGit ["merge"; "origin" +++ "/" +++ "main"] Demo.root
                 (Some Demo.binaryConflict);
           EvShow Error
             (mergeFailureMessage (mkRemote "origin" Demo.urlA) "main"
                                  Demo.binaryConflict) ] /\
    none (isGit "push") (trace (Demo.worldOf Demo.conflicting) Demo.handle None)
    = true.
Proof.
  do 2 eexists.
  eapply (merge_failure_ends_run (Demo.worldOf Demo.conflicting) Demo.handle
            None Demo.root "feat/login" (mkRemote "origin" Demo.urlA) "main").
  - reached_here.
  - vm_compute. reflexivity.
  - vm_compute. reflexivity.
  - vm_compute. reflexivity.
  - vm_compute. reflexivity.
Defined.

Lemma conflict_on_stdout_alone_notified_witness :
  exists h fr,
    trace (Cases.worldOf Cases.mergeConflicts) Demo.handle None =
    h ++ [ EvGit ["fetch"; "origin"] Demo.root (Some fr);
           EvGit ["merge"; "origin" +++ "/" +++ "main"] Demo.root
                 (Some Cases.plainConflict);
           EvShow Error msgMergeConflict ].
Proof.
  do 2 eexists.
  eapply (conflict_on_stdout_alone_notified
            (Cases.worldOf Cases.mergeConflicts) Demo.handle None
            Demo.root "feat/login" (mkRemote "origin" Demo.urlA) "main").
  - reached_here.
  - vm_compute. reflexivity.
  - vm_compute. reflexivity.
  - vm_compute. reflexivity.
  - vm_compute. reflexivity.
  - vm_compute. reflexivity.
  - vm_compute. reflexivity.
Defined.

Lemma push_failure_stops_witness :
  exists h fr mr,
    trace (Cases.worldOf Cases.pushFails) Demo.handle None =
    h ++ [ EvGit ["fetch"; "origin"] Demo.root (Some fr);
           EvGit ["merge"; "origin" +++ "/" +++ "main"] Demo.root (Some mr);
           EvGit (pushArgs (mkRemote "origin" Demo.urlA) "main" "feat/login")
                 Demo.root (Some Cases.pushRejected);
           EvShow Error
             ("Failed to push or create Merge Request. Exit Code: " +++
              showExitCode (exitCode Cases.pushRejected) +++
              ". Check Output channel for details.") ] /\
    opened (trace (Cases.worldOf Cases.pushFails) Demo.handle None) = [] /\
    none (isGit "checkout")
         (trace (Cases.worldOf Cases.pushFails) Demo.handle None) = true.
Proof.
  do 3 eexists.
  eapply (push_failure_stops (Cases.worldOf Cases.pushFails) Demo.handle None
            Demo.root "feat/login" (mkRemote "origin" Demo.urlA) "main").
  - reached_here.
  - vm_compute. reflexivity.
  - vm_compute. reflexivity.
  - vm_compute. reflexivity.
  - vm_compute. reflexivity.
  - vm_compute. reflexivity.
  - vm_compute. reflexivity.
Defined.

Lemma checkout_only_after_opened_url_witness :
  exists root cur origin target h pre0 pr url ok msg,
    Reached (Cases.worldOf Cases.checkoutFails) Demo.handle None
            root cur origin target h /\
    firstn 10 (trace (Cases.worldOf Cases.checkoutFails) Demo.handle None) =
    pre0 ++ [ EvGit (pushArgs origin target cur) root (Some pr);
              EvOpen url ok; EvShow Information msg ] /\
    exitOk pr = true /\ mrUrlOf pr = Some url /\
    ["checkout"; "main"] = ["checkout"; target] /\ Demo.root = root /\
    [EvShow Warning (msgSwitchFailed "main")] =
    afterCheckout target (Some Cases.checkoutRefused) /\
    fst (run (Cases.worldOf Cases.checkoutFails) []
             (createMergeRequest Demo.handle None)) = inr tt.
Proof.
  apply (checkout_only_after_opened_url
           (Cases.worldOf Cases.checkoutFails) Demo.handle None
           (firstn 10 (trace (Cases.worldOf Cases.checkoutFails) Demo.handle
                             None))
           [EvShow Warning (msgSwitchFailed "main")]
           ["checkout"; "main"] Demo.root (Some Cases.checkoutRefused)).
  - vm_compute. reflexivity.
  - vm_compute. reflexivity.
Defined.


Lemma handler_rejects_only_before_try_witness :
  (Demo.handle = None /\
   "Failed to determine current branch: Failed to get current branch name." =
   "Cannot read properties of undefined (reading 'rootUri')") \/
  (exists repo root t1 inner,
      Demo.handle = Some repo /\
      run (Cases.worldOf Cases.detached) started (locateRoot repo None) =
      (Some root, t1) /\
      fst (run (Cases.worldOf Cases.detached) (started ++ t1)
               (getCurrentBranch root)) =
      inl "Failed to determine current branch: Failed to get current branch name." /\
      "Failed to determine current branch: Failed to get current branch name." =
      "Failed to determine current branch: " +++ inner).
Proof.
  apply (handler_rejects_only_before_try (Cases.worldOf Cases.detached)
           Demo.handle None).
  vm_compute. reflexivity.
Defined.

Lemma getOrigin_reads_origin_section_witness :
  run (Demo.worldOf (Demo.onBranch "feat/login")) [] (getOrigin Demo.root) =
  (inr (mkRemote "origin" (String "h" "ttps://example.com/group/proj.git")),
   [EvReadFile (Demo.root ++ [".git"; "config"])
      (Some (Demo.coreSection +++
             originSection " " EmptyString (nl +++ Demo.tab) " " " "
               (String "h" "ttps://example.com/group/proj.git" +++
                (nl +++ Demo.tab +++
                 "fetch = +refs/heads/*:refs/remotes/origin/*" +++ nl))))]).
Proof.
  apply (getOrigin_reads_origin_section
           (Demo.worldOf (Demo.onBranch "feat/login")) [] Demo.root
           Demo.coreSection " " EmptyString (nl +++ Demo.tab) " " " "
           "h" "ttps://example.com/group/proj.git"
           (nl +++ Demo.tab +++
            "fetch = +refs/heads/*:refs/remotes/origin/*" +++ nl)).
  - vm_compute. reflexivity.
  - vm_compute. reflexivity.
  - vm_compute. reflexivity.
  - vm_compute. reflexivity.
  - vm_compute. reflexivity.
  - vm_compute. reflexivity.
  - vm_compute. reflexivity.
  - vm_compute. reflexivity.
  - vm_compute. reflexivity.
  - vm_compute. reflexivity.
  - vm_compute. reflexivity.
Defined.

Lemma getOrigin_returns_pick_when_names_differ_witness :
  snd (run (Cases.worldOf Cases.pickFork) [] (getOrigin Demo.root)) =
  [ EvReadFile (Demo.root ++ [".git"; "config"]) (Some Cases.twoRemotes);
    EvPick (remoteItems (candidateRemotes Cases.twoRemotes))
           (pick (Cases.worldOf Cases.pickFork)
                 ([] ++ [EvReadFile (Demo.root ++ [".git"; "config"])
                                    (Some Cases.twoRemotes)])
                 (remoteItems (candidateRemotes Cases.twoRemotes))) ] /\
  map label (remoteItems (candidateRemotes Cases.twoRemotes)) =
  map remoteName (candidateRemotes Cases.twoRemotes) /\
  map description (remoteItems (candidateRemotes Cases.twoRemotes)) =
  map remoteUrl (candidateRemotes Cases.twoRemotes) /\
  match picked (candidateRemotes Cases.twoRemotes)
               (pick (Cases.worldOf Cases.pickFork)
                     ([] ++ [EvReadFile (Demo.root ++ [".git"; "config"])
                                        (Some Cases.twoRemotes)])
                     (remoteItems (candidateRemotes Cases.twoRemotes)))
  with
  | Some r =>
      fst (run (Cases.worldOf Cases.pickFork) [] (getOrigin Demo.root)) = inr r
  | None =>
      exists e,
        fst (run (Cases.worldOf Cases.pickFork) [] (getOrigin Demo.root)) = inl e /\
        Js.includes "cancelled by user" e = true
  end.
Proof.
  apply (getOrigin_returns_pick_when_names_differ
           (Cases.worldOf Cases.pickFork) [] Demo.root Cases.twoRemotes).
  - vm_compute. reflexivity.
  - vm_compute. lia.
  - vm_compute. repeat constructor; cbn; intuition discriminate.
Defined.

Lemma getTargetBranch_failures_witness :
  In (EvGit ["branch"; "-r"] Demo.root
            (git (Demo.worldOf Demo.upstreamOnly)
                 ([] ++ snd (run (Demo.worldOf Demo.upstreamOnly) []
                                 (advertisedHead Demo.root "upstream")))
                 ["branch"; "-r"] Demo.root))
     (snd (run (Demo.worldOf Demo.upstreamOnly) []
               (getTargetBranch Demo.root "upstream"))) /\
  ((targetBranchFailed = targetBranchCancelled /\
    exists items reply,
      In (EvPickStr items reply)
         (snd (run (Demo.worldOf Demo.upstreamOnly) []
                   (getTargetBranch Demo.root "upstream"))) /\
      items <> [] /\
      (picked items reply = None \/ picked items reply = Some EmptyString)) \/
   (targetBranchFailed = targetBranchFailed /\
    forall items reply,
      ~ In (EvPickStr items reply)
           (snd (run (Demo.worldOf Demo.upstreamOnly) []
                     (getTargetBranch Demo.root "upstream"))))).
Proof.
  apply (getTargetBranch_failures (Demo.worldOf Demo.upstreamOnly) []
           Demo.root "upstream" targetBranchFailed).
  vm_compute. reflexivity.
Defined.

Lemma remoteBranchesOf_origin_listing_witness :
  remoteBranchesOf
    (unlines (map listingLine
                  [ inl "  origin/HEAD -> origin/main";
                    inr "develop"; inr "feat/login"; inr "main" ])) =
  branchesOf [ inl "  origin/HEAD -> origin/main";
               inr "develop"; inr "feat/login"; inr "main" ].
Proof.
  apply (remoteBranchesOf_origin_listing
           [ inl "  origin/HEAD -> origin/main";
             inr "develop"; inr "feat/login"; inr "main" ]).
  - discriminate.
  - vm_compute. reflexivity.
Defined.

Lemma other_branch_stops_witness :
  trace (Demo.worldOf (Demo.onBranch "main")) (Some (mkRepository (Some Demo.root)))
        None =
  started ++ [] ++
  [EvGit showCurrent Demo.root (Demo.exit0 ("main" +++ nl) EmptyString)] ++
  [EvShow Error msgNotFeat] /\
  none acts (trace (Demo.worldOf (Demo.onBranch "main"))
                   (Some (mkRepository (Some Demo.root))) None) = true.
Proof.
  apply (other_branch_stops (Demo.worldOf (Demo.onBranch "main"))
           (mkRepository (Some Demo.root)) None Demo.root "main").
  - vm_compute. reflexivity.
  - vm_compute. reflexivity.
  - vm_compute. reflexivity.
Defined.

Lemma mrUrlOf_remote_line_witness :
  mrUrlOf (mkResult EmptyString
                    ("remote:   https://example.com/group/proj/-/merge_requests/42"
                     +++ nl +++ "To https://example.com/group/proj.git")
                    (Some 0%Z)) =
  Some ("https://" +++ String "e" "xample.com/group/proj/-/merge_requests/42").
Proof.
  apply (mrUrlOf_remote_line
           (mkResult EmptyString
                     ("remote:   https://example.com/group/proj/-/merge_requests/42"
                      +++ nl +++ "To https://example.com/group/proj.git")
                     (Some 0%Z))
           nl true " " "  " "e" "xample.com/group/proj/-/merge_requests/42"
           (nl +++ "To https://example.com/group/proj.git")).
  - vm_compute. reflexivity.
  - vm_compute. reflexivity.
  - vm_compute. reflexivity.
  - vm_compute. reflexivity.
  - vm_compute. reflexivity.
  - vm_compute. reflexivity.
  - intros a1 a2 E Ne.
    destruct a1 as [| c1 a1].
    + change (EmptyString +++ a2) with a2 in E. subst a2.
      vm_compute. reflexivity.
    + exfalso. inversion E as [[Hc Ha]].
      destruct a1; destruct a2; try discriminate. now apply Ne.
Defined.


(* ===================================================================== *)
(** ** Failures before the fetch (lines 281-324, 438-441) *)
(* ===================================================================== *)

(** From an accepted branch on, a run is the [try] block followed by what
    the [catch] adds, and the handler returns normally. *)
Lemma run_accepted (w : World) (repo : Repository) (ed : option Path)
      (root : Path) (cur : string) (t1 t2 : list Event) :
  run w started (locateRoot repo ed) = (Some root, t1) ->
  run w (started ++ t1) (getCurrentBranch root) = (inr cur, t2) ->
  acceptedBranch cur = true ->
  run w [] (createMergeRequest (Some repo) ed) =
  (inr tt,
   started ++ t1 ++ t2 ++
   snd (run w (started ++ t1 ++ t2) (automatedFlow root cur)) ++
   closing (fst (run w (started ++ t1 ++ t2) (automatedFlow root cur)))).
Proof.
  intros E1 E2 Acc.
  unfold createMergeRequest, show. cbn [run].
  change ([] ++ [EvShow Information msgStarting]) with started.
  rewrite run_bind, E1. unfold fromRoot. rewrite run_bindE, E2, Acc.
  cbn [negb]. rewrite run_tryCatch. repeat rewrite <- app_assoc.
  destruct (run w (started ++ t1 ++ t2) (automatedFlow root cur))
    as [[e | []] tA]; cbn [fst snd closing run app];
    unfold started; cbn [app]; rewrite ?app_nil_r; reflexivity.
Qed.

Lemma none_acts_shows (t : list Event) :
  forallb isShow t = true -> none acts t = true.
Proof.
  induction t as [| e t IH]; [reflexivity |].
  cbn [forallb]. intro S. apply andb_true_iff in S as [Se S].
  rewrite none_cons, (IH S). destruct e; try discriminate. reflexivity.
Qed.

(** X18.  When no root is found - the handle has none and there is no
    active file, or no directory above the active file holds [.git] - the
    handler shows that no repository was found and returns: no git command
    is issued, not even the query of the current branch. *)
Theorem no_root_notified (w : World) (repo : Repository) (ed : option Path)
        (t1 : list Event) :
  run w started (locateRoot repo ed) = (None, t1) ->
  run w [] (createMergeRequest (Some repo) ed) =
  (inr tt, started ++ t1 ++ [EvShow Error "No Git repository found."]) /\
  rootUri repo = None /\
  forall args cwd reply, ~ In (EvGit args cwd reply) (trace w (Some repo) ed).
Proof.
  intro E1.
  assert (run w [] (createMergeRequest (Some repo) ed) =
          (inr tt, started ++ t1 ++ [EvShow Error "No Git repository found."]))
    as T.
  { unfold createMergeRequest, show. cbn [run].
    change ([] ++ [EvShow Information msgStarting]) with started.
    rewrite run_bind, E1. reflexivity. }
  split; [exact T |]. split.
  - unfold locateRoot in E1. destruct (rootUri repo); [discriminate | reflexivity].
  - intros args cwd reply Hin. unfold trace in Hin. rewrite T in Hin.
    cbn [snd] in Hin. unfold started in Hin. cbn [app] in Hin.
    destruct Hin as [He | Hin]; [discriminate |].
    apply in_app_or in Hin as [Hin | [He | []]]; [| discriminate].
    pose proof (allGit_run _ _ _ (allGit_locateRoot repo ed) w started
                           args cwd reply) as K.
    rewrite E1 in K. exact (K Hin).
Qed.

(** X19.  When the probe of [.git] in the root fails (line 303), the
    handler shows that the workspace is not a Git repository and returns:
    the configuration is not read and nothing else is asked. *)
Theorem not_a_repository_notified (w : World) (repo : Repository)
        (ed : option Path) (root : Path) (cur : string)
        (t1 t2 : list Event) :
  run w started (locateRoot repo ed) = (Some root, t1) ->
  run w (started ++ t1) (getCurrentBranch root) = (inr cur, t2) ->
  acceptedBranch cur = true ->
  access w (started ++ t1 ++ t2) (root ++ [".git"]) = false ->
  run w [] (createMergeRequest (Some repo) ed) =
  (inr tt,
   started ++ t1 ++ t2 ++
   [ EvAccess (root ++ [".git"]) false;
     EvShow Error "Current workspace is not a Git repository." ]) /\
  none acts (trace w (Some repo) ed) = true.
Proof.
  intros E1 E2 Acc Ac.
  assert (run w [] (createMergeRequest (Some repo) ed) =
          (inr tt,
           started ++ t1 ++ t2 ++
           [ EvAccess (root ++ [".git"]) false;
             EvShow Error "Current workspace is not a Git repository." ])) as T.
  { rewrite (run_accepted w repo ed root cur t1 t2 E1 E2 Acc).
    unfold automatedFlow, show. cbn [run]. rewrite Ac. cbn [run fst snd closing].
    rewrite app_nil_r. reflexivity. }
  split; [exact T |]. unfold trace. rewrite T. cbn [snd].
  pose proof (locateRoot_quiet w repo ed started) as Q1.
  pose proof (getCurrentBranch_quiet w root (started ++ t1)) as Q2.
  rewrite E1 in Q1. rewrite E2 in Q2. cbn [snd] in *.
  unfold started. quiet.
Qed.

(** X15.  When the remote cannot be resolved - the configuration cannot be
    read, holds no remote, or the prompt is dismissed - the [catch] of line
    438 shows the error as a failure of the flow and the handler returns:
    the target branch is not asked for and nothing is fetched, merged,
    pushed or opened. *)
Theorem remote_failure_notified (w : World) (repo : Repository)
        (ed : option Path) (root : Path) (cur : string)
        (t1 t2 tO : list Event) (e : Exn) :
  run w started (locateRoot repo ed) = (Some root, t1) ->
  run w (started ++ t1) (getCurrentBranch root) = (inr cur, t2) ->
  acceptedBranch cur = true ->
  access w (started ++ t1 ++ t2) (root ++ [".git"]) = true ->
  run w (started ++ t1 ++ t2 ++ [EvAccess (root ++ [".git"]) true])
      (getOrigin root) = (inl e, tO) ->
  run w [] (createMergeRequest (Some repo) ed) =
  (inr tt,
   started ++ t1 ++ t2 ++ [EvAccess (root ++ [".git"]) true] ++ tO ++
   [EvShow Error (msgFlowFailed e)]) /\
  none acts (trace w (Some repo) ed) = true.
Proof.
  intros E1 E2 Acc Ac E3.
  assert (run w [] (createMergeRequest (Some repo) ed) =
          (inr tt,
           started ++ t1 ++ t2 ++ [EvAccess (root ++ [".git"]) true] ++ tO ++
           [EvShow Error (msgFlowFailed e)])) as T.
  { rewrite (run_accepted w repo ed root cur t1 t2 E1 E2 Acc).
    unfold automatedFlow. cbn [run]. rewrite Ac.
    rewrite run_bindE; repeat rewrite <- app_assoc. rewrite E3.
    cbn [fst snd closing app]. reflexivity. }
  split; [exact T |]. unfold trace. rewrite T. cbn [snd].
  pose proof (locateRoot_quiet w repo ed started) as Q1.
  pose proof (getCurrentBranch_quiet w root (started ++ t1)) as Q2.
  pose proof (getOrigin_quiet w root
                (started ++ t1 ++ t2 ++ [EvAccess (root ++ [".git"]) true]))
    as Q3.
  rewrite E1 in Q1. rewrite E2 in Q2. rewrite E3 in Q3. cbn [snd] in *.
  unfold started. quiet.
Qed.

Lemma getTargetBranch_throws (w : World) (h : list Event) (root : Path)
      (remote : string) :
  match fst (run w h (getTargetBranch root remote)) with
  | inl e => e = targetBranchCancelled \/ e = targetBranchFailed
  | inr _ => True
  end.
Proof.
  unfold getTargetBranch. rewrite run_bind.
  destruct (run w h (advertisedHead root remote)) as [[b |] t1];
    [cbn; exact I |].
  unfold fallbackTargetBranch, listAndPick.
  rewrite run_tryCatch, run_bindE, run_runGitCommand.
  destruct (git w (h ++ t1) ["branch"; "-r"] root) as [r2 |];
    [| vm_compute; now right].
  destruct (exitOk r2 && Js.truthy (stdout r2)); [| vm_compute; now right].
  destruct (remoteBranchesOf (stdout r2)) as [| b0 bs];
    [vm_compute; now right |].
  cbn [run app]. unfold ret, throw.
  destruct (picked (b0 :: bs) (pickStr w _ (b0 :: bs))) as [sel |];
    [destruct (Js.truthy sel); [exact I |] |]; vm_compute; now left.
Qed.

(** X16.  When the target branch cannot be determined, or its list is
    dismissed, the [catch] of line 438 shows the error as a failure of the
    flow and the handler returns: nothing is fetched, merged, pushed or
    opened. *)
Theorem target_failure_notified (w : World) (repo : Repository)
        (ed : option Path) (root : Path) (cur : string) (origin : Remote)
        (t1 t2 tO tT : list Event) (e : Exn) :
  run w started (locateRoot repo ed) = (Some root, t1) ->
  run w (started ++ t1) (getCurrentBranch root) = (inr cur, t2) ->
  acceptedBranch cur = true ->
  access w (started ++ t1 ++ t2) (root ++ [".git"]) = true ->
  run w (started ++ t1 ++ t2 ++ [EvAccess (root ++ [".git"]) true])
      (getOrigin root) = (inr origin, tO) ->
  run w (started ++ t1 ++ t2 ++ [EvAccess (root ++ [".git"]) true] ++ tO)
      (getTargetBranch root (remoteName origin)) = (inl e, tT) ->
  run w [] (createMergeRequest (Some repo) ed) =
  (inr tt,
   started ++ t1 ++ t2 ++ [EvAccess (root ++ [".git"]) true] ++ tO ++ tT ++
   [EvShow Error (msgFlowFailed e)]) /\
  (e = targetBranchCancelled \/ e = targetBranchFailed) /\
  none acts (trace w (Some repo) ed) = true.
Proof.
  intros E1 E2 Acc Ac E3 E4.
  assert (run w [] (createMergeRequest (Some repo) ed) =
          (inr tt,
           started ++ t1 ++ t2 ++ [EvAccess (root ++ [".git"]) true] ++ tO ++
           tT ++ [EvShow Error (msgFlowFailed e)])) as T.
  { rewrite (run_accepted w repo ed root cur t1 t2 E1 E2 Acc).
    unfold automatedFlow. cbn [run]. rewrite Ac.
    rewrite run_bindE; repeat rewrite <- app_assoc. rewrite E3.
    rewrite run_bindE; repeat rewrite <- app_assoc. rewrite E4.
    cbn [fst snd closing app]. repeat rewrite <- app_assoc. reflexivity. }
  split; [exact T |]. split.
  - pose proof (getTargetBranch_throws w
                  (started ++ t1 ++ t2 ++ [EvAccess (root ++ [".git"]) true]
                   ++ tO) root (remoteName origin)) as K.
    rewrite E4 in K. exact K.
  - unfold trace. rewrite T. cbn [snd].
    pose proof (locateRoot_quiet w repo ed started) as Q1.
    pose proof (getCurrentBranch_quiet w root (started ++ t1)) as Q2.
    pose proof (getOrigin_quiet w root
                  (started ++ t1 ++ t2 ++ [EvAccess (root ++ [".git"]) true]))
      as Q3.
    pose proof (getTargetBranch_quiet w root (remoteName origin)
                  (started ++ t1 ++ t2 ++ [EvAccess (root ++ [".git"]) true]
                   ++ tO)) as Q4.
    rewrite E1 in Q1. rewrite E2 in Q2. rewrite E3 in Q3. rewrite E4 in Q4.
    cbn [snd] in *. unfold started. quiet.
Qed.

(** X17.  A dismissed prompt for the remote is not a silent exit: the
    error of line 95 or 115 reaches the [catch] of line 438, which shows
    it as a failure of the flow, and the run ends there. *)
Theorem dismissed_remote_prompt_notified (w : World) (repo : Repository)
        (ed : option Path) (root : Path) (cur : string)
        (t1 t2 : list Event) (configContent : string) :
  let h0 := started ++ t1 ++ t2 ++ [EvAccess (root ++ [".git"]) true] in
  let read := EvReadFile (root ++ [".git"; "config"]) (Some configContent) in
  let items := remoteItems (candidateRemotes configContent) in
  let who := match originRemotesOf configContent with
             | [] => "Remote"
             | _ => "Origin"
             end in
  run w started (locateRoot repo ed) = (Some root, t1) ->
  run w (started ++ t1) (getCurrentBranch root) = (inr cur, t2) ->
  acceptedBranch cur = true ->
  access w (started ++ t1 ++ t2) (root ++ [".git"]) = true ->
  readFile w h0 (root ++ [".git"; "config"]) = Some configContent ->
  2 <= length (candidateRemotes configContent) ->
  pick w (h0 ++ [read]) items = None ->
  trace w (Some repo) ed =
  h0 ++ [ read; EvPick items None;
          EvShow Error ("GitLab MR Flow failed: " +++ who +++
                        " selection cancelled by user." +++
                        ". Check Output channel.") ].
Proof.
  intros h0 read items who E1 E2 Acc Ac Rd Len Pk.
  unfold trace. rewrite (run_accepted w repo ed root cur t1 t2 E1 E2 Acc).
  cbn [snd]. unfold automatedFlow. cbn [run]. rewrite Ac.
  rewrite run_bindE; repeat rewrite <- app_assoc. fold h0.
  unfold getOrigin. cbn [run]. rewrite Rd. fold read.
  subst items who. unfold candidateRemotes in *.
  destruct (originRemotesOf configContent) as [| o1 [| o2 os]].
  - destruct (allRemotesOf configContent) as [| a1 [| a2 as']];
      cbn [length] in Len; try lia.
    unfold selectRemote. cbn [run]. rewrite Pk. cbn [picked].
    unfold h0. repeat rewrite <- app_assoc. reflexivity.
  - cbn [length] in Len. lia.
  - unfold selectRemote. cbn [run]. rewrite Pk. cbn [picked].
    unfold h0. repeat rewrite <- app_assoc. reflexivity.
Qed.

Lemma no_root_notified_witness :
  exists t1,
    run (Cases.worldOf Cases.healthy) []
        (createMergeRequest (Some (mkRepository None)) (Some Cases.strayFile)) =
    (inr tt, started ++ t1 ++ [EvShow Error "No Git repository found."]) /\
    rootUri (mkRepository None) = None /\
    forall args cwd reply,
      ~ In (EvGit args cwd reply)
           (trace (Cases.worldOf Cases.healthy) (Some (mkRepository None))
                  (Some Cases.strayFile)).
Proof.
  eexists.
  apply (no_root_notified (Cases.worldOf Cases.healthy) (mkRepository None)
           (Some Cases.strayFile)).
  vm_compute. reflexivity.
Defined.

Lemma not_a_repository_notified_witness :
  exists t1 t2,
    run (Cases.worldOf Cases.healthy) []
        (createMergeRequest (Some (mkRepository (Some Cases.elsewhere))) None) =
    (inr tt,
     started ++ t1 ++ t2 ++
     [ EvAccess (Cases.elsewhere ++ [".git"]) false;
       EvShow Error "Current workspace is not a Git repository." ]) /\
    none acts (trace (Cases.worldOf Cases.healthy)
                     (Some (mkRepository (Some Cases.elsewhere))) None) = true.
Proof.
  do 2 eexists.
  eapply (not_a_repository_notified (Cases.worldOf Cases.healthy)
            (mkRepository (Some Cases.elsewhere)) None Cases.elsewhere
            "feat/login").
  - vm_compute. reflexivity.
  - vm_compute. reflexivity.
  - vm_compute. reflexivity.
  - vm_compute. reflexivity.
Defined.

Lemma remote_failure_notified_witness :
  exists t1 t2 tO,
    run (Cases.worldOf Cases.noRemote) [] (createMergeRequest Demo.handle None) =
    (inr tt,
     started ++ t1 ++ t2 ++ [EvAccess (Demo.root ++ [".git"]) true] ++ tO ++
     [EvShow Error (msgFlowFailed "No remote URLs found in .git/config.")]) /\
    none acts (trace (Cases.worldOf Cases.noRemote) Demo.handle None) = true.
Proof.
  do 3 eexists.
  eapply (remote_failure_notified (Cases.worldOf Cases.noRemote)
            (mkRepository (Some Demo.root)) None Demo.root "feat/login").
  - vm_compute. reflexivity.
  - vm_compute. reflexivity.
  - vm_compute. reflexivity.
  - vm_compute. reflexivity.
  - vm_compute. reflexivity.
Defined.

Lemma target_failure_notified_witness :
  exists t1 t2 tO tT,
    run (Demo.worldOf Demo.upstreamOnly) [] (createMergeRequest Demo.handle None) =
    (inr tt,
     started ++ t1 ++ t2 ++ [EvAccess (Demo.root ++ [".git"]) true] ++ tO ++
     tT ++ [EvShow Error (msgFlowFailed targetBranchFailed)]) /\
    (targetBranchFailed = targetBranchCancelled \/
     targetBranchFailed = targetBranchFailed) /\
    none acts (trace (Demo.worldOf Demo.upstreamOnly) Demo.handle None) = true.
Proof.
  do 4 eexists.
  eapply (target_failure_notified (Demo.worldOf Demo.upstreamOnly)
            (mkRepository (Some Demo.root)) None Demo.root "feat/login"
            (mkRemote "upstream" "https://example.com/group/proj.git")).
  - vm_compute. reflexivity.
  - vm_compute. reflexivity.
  - vm_compute. reflexivity.
  - vm_compute. reflexivity.
  - vm_compute. reflexivity.
  - vm_compute. reflexivity.
Defined.

Lemma dismissed_remote_prompt_notified_witness :
  trace (Cases.worldOf Cases.dismissed) Demo.handle None =
  (started ++ [] ++
   [EvGit showCurrent Demo.root (Demo.exit0 ("feat/login" +++ nl) EmptyString)] ++
   [EvAccess (Demo.root ++ [".git"]) true]) ++
  [ EvReadFile (Demo.root ++ [".git"; "config"]) (Some Cases.twoRemotes);
    EvPick (remoteItems (candidateRemotes Cases.twoRemotes)) None;
    EvShow Error ("GitLab MR Flow failed: " +++
                  match originRemotesOf Cases.twoRemotes with
                  | [] => "Remote"
                  | _ => "Origin"
                  end +++
                  " selection cancelled by user." +++
                  ". Check Output channel.") ].
Proof.
  apply (dismissed_remote_prompt_notified (Cases.worldOf Cases.dismissed)
           (mkRepository (Some Demo.root)) None Demo.root "feat/login" []
           [EvGit showCurrent Demo.root
                  (Demo.exit0 ("feat/login" +++ nl) EmptyString)]
           Cases.twoRemotes).
  - vm_compute. reflexivity.
  - vm_compute. reflexivity.
  - vm_compute. reflexivity.
  - vm_compute. reflexivity.
  - vm_compute. reflexivity.
  - vm_compute. lia.
  - vm_compute. reflexivity.
Defined.

(* ===================================================================== *)
(** ** The first version of the handler ([src/unnamed/part_002]) *)
(* ===================================================================== *)

Lemma neverOpens_bind (A B : Type) (m : Prog A) (f : A -> Prog B) :
  neverOpens m -> (forall a, neverOpens (f a)) -> neverOpens (bind m f).
Proof.
  intros Hm Hf.
  induction m as [a | args cwd k IH | p k IH | p k IH | items k IH
                  | items k IH | url k IH | lvl msg k IH];
    cbn [bind neverOpens] in *; auto.
Qed.

Lemma neverOpens_bindE (A B : Type) (m : M A) (f : A -> M B) :
  neverOpens m -> (forall a, neverOpens (f a)) -> neverOpens (bindE m f).
Proof.
  intros Hm Hf. apply neverOpens_bind; auto.
  intros [e | a]; cbn; auto.
Qed.

Lemma neverOpens_tryCatch (A : Type) (m : M A) (c : Exn -> M A) :
  neverOpens m -> (forall e, neverOpens (c e)) -> neverOpens (tryCatch m c).
Proof.
  intros Hm Hc. apply neverOpens_bind; auto.
  intros [e | a]; cbn; auto.
Qed.

Lemma neverOpens_runGitCommand (args : list string) (cwd : Path)
      (desc : string) :
  neverOpens (runGitCommand args cwd desc).
Proof. unfold runGitCommand. cbn. intros [r |]; cbn; exact I. Qed.

Lemma neverOpens_run (A : Type) (p : Prog A) :
  neverOpens p -> forall (w : World) h, opened (snd (run w h p)) = [].
Proof.
  induction p as [a | args0 cwd0 k IH | p0 k IH | p0 k IH | items k IH
                  | items k IH | url k IH | lvl msg k IH];
    intros Hn w h; cbn [run neverOpens] in *;
    try reflexivity; try (destruct Hn; fail).
  - specialize (IH _ (Hn (git w h args0 cwd0)) w
                   (h ++ [EvGit args0 cwd0 (git w h args0 cwd0)])).
    destruct (run w _ (k _)) as [a t]. exact IH.
  - specialize (IH _ (Hn (access w h p0)) w (h ++ [EvAccess p0 (access w h p0)])).
    destruct (run w _ (k _)) as [a t]. exact IH.
  - specialize (IH _ (Hn (readFile w h p0)) w
                   (h ++ [EvReadFile p0 (readFile w h p0)])).
    destruct (run w _ (k _)) as [a t]. exact IH.
  - specialize (IH _ (Hn (pick w h items)) w
                   (h ++ [EvPick items (pick w h items)])).
    destruct (run w _ (k _)) as [a t]. exact IH.
  - specialize (IH _ (Hn (pickStr w h items)) w
                   (h ++ [EvPickStr items (pickStr w h items)])).
    destruct (run w _ (k _)) as [a t]. exact IH.
  - specialize (IH Hn w (h ++ [EvShow lvl msg])).
    destruct (run w _ k) as [a t]. exact IH.
Qed.

Lemma neverOpens_getTargetBranch (root : Path) (remote : string) :
  neverOpens (getTargetBranch root remote).
Proof.
  unfold getTargetBranch. apply neverOpens_bind.
  - unfold advertisedHead. apply neverOpens_bind.
    + apply neverOpens_runGitCommand.
    + intros [e | r]; cbn; auto.
      destruct (exitOk r && Js.truthy (stdout r)); cbn; auto.
      destruct (headBranchOf (stdout r)) as [b |]; cbn; auto.
      destruct (negb (String.eqb b "(unknown)")); cbn; auto.
  - intros [b |]; [cbn; auto |].
    unfold fallbackTargetBranch. apply neverOpens_tryCatch.
    + unfold listAndPick. apply neverOpens_bindE.
      * apply neverOpens_runGitCommand.
      * intros r. destruct (exitOk r && Js.truthy (stdout r)); cbn; auto.
        destruct (remoteBranchesOf (stdout r)) as [| b0 bs]; cbn; auto.
        intros reply. destruct (picked _ reply) as [sel |]; cbn; auto.
        destruct (Js.truthy sel); cbn; auto.
    + intros e. destruct (Js.includes _ e); cbn; auto.
Qed.

Lemma neverOpens_getCurrentBranch (root : Path) :
  neverOpens (getCurrentBranch root).
Proof.
  unfold getCurrentBranch. apply neverOpens_tryCatch.
  - apply neverOpens_bindE; [apply neverOpens_runGitCommand |].
    intros r. destruct (exitOk r && Js.truthy (stdout r)); cbn; auto.
    destruct (Js.truthy (Js.trim (stdout r))); cbn; auto.
  - intros e. cbn. auto.
Qed.

Lemma neverOpens_getOriginUrl (root : Path) :
  neverOpens (First.getOriginUrl root).
Proof.
  unfold First.getOriginUrl, ret, throw. cbn. intros [c |]; [| exact I].
  destruct (First.originUrlsOf c) as [| o1 [| o2 os]]; cbn; auto.
  intros r. destruct (picked _ r) as [sel |]; cbn; auto.
  destruct (Js.truthy sel); cbn; auto.
Qed.

Lemma neverOpens_syncAndPush (root : Path) (target cur : string) :
  neverOpens (First.syncAndPush root target cur).
Proof.
  unfold First.syncAndPush.
  apply neverOpens_bindE; [apply neverOpens_runGitCommand |].
  intros fr. destruct (negb (exitOk fr)); [cbn; auto |].
  apply neverOpens_bindE; [apply neverOpens_runGitCommand |].
  intros mr. destruct (negb (exitOk mr)); [cbn; auto |].
  apply neverOpens_bindE; [apply neverOpens_runGitCommand |].
  intros pr. destruct (exitOk pr); cbn; auto.
Qed.

Lemma neverOpens_flow (folders : option (list Path)) :
  neverOpens (First.flow folders).
Proof.
  unfold First.flow. destruct folders as [[| root rest] |]; try (cbn; auto; fail).
  cbn [neverOpens]. intros [|]; [| cbn; auto].
  unfold First.fromRepository.
  apply neverOpens_bindE; [apply neverOpens_getOriginUrl |]. intros url.
  apply neverOpens_bindE; [apply neverOpens_getTargetBranch |]. intros target.
  apply neverOpens_bindE; [apply neverOpens_getCurrentBranch |]. intros cur.
  apply neverOpens_syncAndPush.
Qed.

(** The run of the first handler: the [try] block, then what its [catch]
    adds. *)
Lemma first_run (w : World) (folders : option (list Path)) :
  run w [] (First.createMergeRequest folders) =
  (inr tt,
   started ++ snd (run w started (First.flow folders)) ++
   closing (fst (run w started (First.flow folders)))).
Proof.
  unfold First.createMergeRequest, show. cbn [run].
  change ([] ++ [EvShow Information msgStarting]) with started.
  rewrite run_tryCatch.
  destruct (run w started (First.flow folders)) as [[e | []] t];
    cbn [fst snd closing run app]; rewrite ?app_nil_r; reflexivity.
Qed.

(** X20.  The first version of the handler never rejects and never opens
    a URL: its whole body stands in the [try] block, whose [catch] only
    notifies, and the version has no call of [openExternal]. *)
Theorem first_handler_contained (w : World) (folders : option (list Path)) :
  fst (run w [] (First.createMergeRequest folders)) = inr tt /\
  opened (First.trace w folders) = [].
Proof.
  unfold First.trace. rewrite first_run. cbn [fst snd].
  split; [reflexivity |].
  rewrite !opened_app.
  rewrite (neverOpens_run _ _ (neverOpens_flow folders) w started).
  rewrite (opened_shows _ (closing_shows _)). reflexivity.
Qed.

Lemma allGit_getTargetBranch_at (Q : list string -> Path -> Prop)
      (root : Path) (remote : string) :
  Q ["remote"; "show"; remote] root -> Q ["branch"; "-r"] root ->
  allGit Q (getTargetBranch root remote).
Proof.
  intros Q1 Q2. unfold getTargetBranch. apply allGit_bind.
  - unfold advertisedHead. apply allGit_bind.
    + now apply allGit_runGitCommand.
    + intros [e | r]; cbn; auto.
      destruct (exitOk r && Js.truthy (stdout r)); cbn; auto.
      destruct (headBranchOf (stdout r)) as [b |]; cbn; auto.
      destruct (negb (String.eqb b "(unknown)")); cbn; auto.
  - intros [b |]; [cbn; auto |].
    unfold fallbackTargetBranch. apply allGit_tryCatch.
    + unfold listAndPick. apply allGit_bindE.
      * now apply allGit_runGitCommand.
      * intros r. destruct (exitOk r && Js.truthy (stdout r)); cbn; auto.
        destruct (remoteBranchesOf (stdout r)) as [| b0 bs]; cbn; auto.
        intros reply. destruct (picked _ reply) as [sel |]; cbn; auto.
        destruct (Js.truthy sel); cbn; auto.
    + intros e. destruct (Js.includes _ e); cbn; auto.
Qed.

Lemma allGit_getCurrentBranch_at (Q : list string -> Path -> Prop)
      (root : Path) :
  Q showCurrent root -> allGit Q (getCurrentBranch root).
Proof.
  intro Q1. unfold getCurrentBranch. apply allGit_tryCatch.
  - apply allGit_bindE; [now apply allGit_runGitCommand |].
    intros r. destruct (exitOk r && Js.truthy (stdout r)); cbn; auto.
    destruct (Js.truthy (Js.trim (stdout r))); cbn; auto.
  - intros e. cbn. auto.
Qed.

Lemma allGit_getOriginUrl (Q : list string -> Path -> Prop) (root : Path) :
  allGit Q (First.getOriginUrl root).
Proof.
  unfold First.getOriginUrl, ret, throw. cbn. intros [c |]; [| exact I].
  destruct (First.originUrlsOf c) as [| o1 [| o2 os]]; cbn; auto.
  intros r. destruct (picked _ r) as [sel |]; cbn; auto.
  destruct (Js.truthy sel); cbn; auto.
Qed.

Lemma allGit_fromRepository (root : Path) :
  allGit (First.knownCommand root) (First.fromRepository root).
Proof.
  unfold First.fromRepository.
  apply allGit_bindE; [apply allGit_getOriginUrl |]. intros url.
  apply allGit_bindE.
  { apply allGit_getTargetBranch_at; (split; [reflexivity |]); auto. }
  intros target.
  apply allGit_bindE.
  { apply allGit_getCurrentBranch_at; (split; [reflexivity |]); auto. }
  intros cur. unfold First.syncAndPush.
  apply allGit_bindE.
  { apply allGit_runGitCommand. split; [reflexivity |]. auto 6. }
  intros fr. destruct (negb (exitOk fr)); [cbn; auto |].
  apply allGit_bindE.
  { apply allGit_runGitCommand. split; [reflexivity |].
    do 4 right. left. now exists target. }
  intros mr. destruct (negb (exitOk mr)); [cbn; auto |].
  apply allGit_bindE.
  { apply allGit_runGitCommand. split; [reflexivity |].
    do 5 right. now exists target, cur. }
  intros pr. destruct (exitOk pr); cbn; auto.
Qed.

(** X21.  Every git command of the first version is one of six - the
    branch query, [remote show origin], [branch -r], [fetch origin], a
    merge of a branch of origin, and a push to origin with the two options
    that create the merge request and name its target - and runs in the
    first workspace folder.  The version never checks out a branch and
    never pushes with the options for the source branch and the title. *)
Theorem first_commands_known (w : World) (folders : option (list Path))
        (args : list string) (cwd : Path) (reply : option GitResult) :
  In (EvGit args cwd reply) (First.trace w folders) ->
  exists root rest,
    folders = Some (root :: rest) /\
    First.knownCommand root args cwd /\
    isGit "checkout" (EvGit args cwd reply) = false /\
    forall origin target cur, args <> pushArgs origin target cur.
Proof.
  unfold First.trace. rewrite first_run. cbn [snd]. intro Hin.
  unfold started in Hin. cbn [app] in Hin.
  destruct Hin as [He | Hin]; [discriminate |].
  apply in_app_or in Hin as [Hin | Hin].
  2:{ destruct (fst (run w _ (First.flow folders))); cbn in Hin;
      intuition discriminate. }
  unfold First.flow in Hin.
  destruct folders as [[| root rest] |];
    try (cbn in Hin; intuition discriminate).
  cbn [run] in Hin.
  destruct (access w _ (root ++ [".git"])).
  2:{ cbn in Hin. intuition discriminate. }
  match type of Hin with
  | context [run w ?hh (First.fromRepository root)] =>
      pose proof (allGit_run _ _ _ (allGit_fromRepository root) w hh
                             args cwd reply) as K;
      destruct (run w hh (First.fromRepository root)) as [res t]
  end.
  cbn [snd] in *. destruct Hin as [He | Hin]; [discriminate |].
  specialize (K Hin). exists root, rest. split; [reflexivity |].
  split; [exact K |].
  destruct K as (_ & [-> | [-> | [-> | [-> | [(t0 & ->) | (t0 & c0 & ->)]]]]]);
    (split; [reflexivity |]); intros origin target cur; discriminate.
Qed.

Lemma fromRepository_reads_first (w : World) (h : list Event) (root : Path)
      (args : list string) (cwd : Path) (reply : option GitResult) :
  In (EvGit args cwd reply) (snd (run w h (First.fromRepository root))) ->
  exists config rest,
    snd (run w h (First.fromRepository root)) =
    EvReadFile (root ++ [".git"; "config"]) (Some config) :: rest.
Proof.
  unfold First.fromRepository. rewrite run_bindE.
  unfold First.getOriginUrl. cbn [run].
  destruct (readFile w h (root ++ [".git"; "config"])) as [config |].
  2:{ cbn. intuition discriminate. }
  intros _. exists config.
  destruct (run w _ (match First.originUrlsOf config with
                     | [] => _ | _ => _ end)) as [[e | url] tO].
  - eexists. reflexivity.
  - destruct (run w _ (_ <- First.getTargetBranch root ;; _)) as [res t].
    eexists. reflexivity.
Qed.

(** X22.  In the first version every git command comes after the
    validation: the probe of [.git] in the first workspace folder
    succeeded and the configuration was read before any git command is
    issued, the query of the current branch included. *)
Theorem first_validates_before_git (w : World) (folders : option (list Path))
        (pre post : list Event) (args : list string) (cwd : Path)
        (reply : option GitResult) :
  First.trace w folders = pre ++ EvGit args cwd reply :: post ->
  exists root rest config,
    folders = Some (root :: rest) /\
    In (EvAccess (root ++ [".git"]) true) pre /\
    In (EvReadFile (root ++ [".git"; "config"]) (Some config)) pre.
Proof.
  intro E.
  assert (In (EvGit args cwd reply) (First.trace w folders)) as Hin
      by (rewrite E; apply in_elt).
  unfold First.trace in *. rewrite first_run in *. cbn [snd] in *.
  unfold started in *. cbn [app] in *.
  destruct Hin as [He | Hin]; [discriminate |].
  apply in_app_or in Hin as [Hin | Hin].
  2:{ destruct (fst (run w _ (First.flow folders))); cbn in Hin;
      intuition discriminate. }
  unfold First.flow in *.
  destruct folders as [[| root rest] |];
    try (cbn in Hin; intuition discriminate).
  cbn [run] in *.
  destruct (access w _ (root ++ [".git"])).
  2:{ cbn in Hin. intuition discriminate. }
  match type of Hin with
  | context [run w ?hh (First.fromRepository root)] =>
      pose proof (fromRepository_reads_first w hh root args cwd reply) as K;
      destruct (run w hh (First.fromRepository root)) as [res t]
  end.
  cbn [fst snd] in *. destruct Hin as [He | Hin]; [discriminate |].
  destruct (K Hin) as (config & t' & ->).
  exists root, rest, config. split; [reflexivity |].
  destruct pre as [| p1 [| p2 [| p3 pre]]]; cbn [app] in E;
    try (inversion E; fail).
  inversion E; subst. cbn. auto.
Qed.

(** X23.  With several sections of origin in the configuration, the first
    version lists the URLs themselves, the same candidates in the same
    order as the later version, and returns the picked URL as it stands,
    also when several entries are alike; a dismissed list throws that the
    selection was cancelled by the user. *)
Theorem first_getOriginUrl_returns_pick (w : World) (h : list Event)
        (root : Path) (configContent : string) :
  readFile w h (root ++ [".git"; "config"]) = Some configContent ->
  2 <= length (First.originUrlsOf configContent) ->
  let urls := First.originUrlsOf configContent in
  let read := EvReadFile (root ++ [".git"; "config"]) (Some configContent) in
  let reply := pickStr w (h ++ [read]) urls in
  snd (run w h (First.getOriginUrl root)) = [read; EvPickStr urls reply] /\
  urls = map remoteUrl (originRemotesOf configContent) /\
  match picked urls reply with
  | Some url =>
      url <> EmptyString ->
      fst (run w h (First.getOriginUrl root)) = inr url
  | None =>
      fst (run w h (First.getOriginUrl root)) = inl First.originCancelled
  end.
Proof.
  intros Rd Len urls read reply.
  assert (urls = map remoteUrl (originRemotesOf configContent)) as Same.
  { unfold urls, First.originUrlsOf, originRemotesOf.
    rewrite map_map. reflexivity. }
  unfold First.getOriginUrl. cbn [run]. rewrite Rd. fold read.
  fold urls. fold urls in Len.
  destruct urls as [| u1 [| u2 us]] eqn:EU; cbn [length] in Len; try lia.
  cbn [run]. fold reply.
  destruct (picked (u1 :: u2 :: us) reply) as [url |] eqn:Pk.
  - destruct (Js.truthy url) eqn:Tr; cbn [fst snd run ret throw].
    + split; [reflexivity |]. split; [exact Same |]. reflexivity.
    + split; [reflexivity |]. split; [exact Same |].
      intro Ne. destruct url; [now destruct Ne | discriminate].
  - cbn [fst snd run ret throw]. split; [reflexivity |].
    split; [exact Same |]. reflexivity.
Qed.

Lemma first_commands_known_witness :
  exists root rest,
    Some [Demo.root] = Some (root :: rest) /\
    First.knownCommand root (First.pushArgs "main" "feat/login") Demo.root /\
    isGit "checkout"
          (EvGit (First.pushArgs "main" "feat/login") Demo.root
                 Demo.pushedWithUrl) = false /\
    forall origin target cur,
      First.pushArgs "main" "feat/login" <> pushArgs origin target cur.
Proof.
  apply (first_commands_known (Cases.worldOf Cases.healthy) (Some [Demo.root])
           (First.pushArgs "main" "feat/login") Demo.root Demo.pushedWithUrl).
  vm_compute. repeat (first [left; reflexivity | right]).
Defined.

Lemma first_validates_before_git_witness :
  exists root rest config,
    Some [Demo.root] = Some (root :: rest) /\
    In (EvAccess (root ++ [".git"]) true)
       [ EvShow Information msgStarting;
         EvAccess (Demo.root ++ [".git"]) true;
         EvReadFile (Demo.root ++ [".git"; "config"]) (Some Demo.oneOrigin) ] /\
    In (EvReadFile (root ++ [".git"; "config"]) (Some config))
       [ EvShow Information msgStarting;
         EvAccess (Demo.root ++ [".git"]) true;
         EvReadFile (Demo.root ++ [".git"; "config"]) (Some Demo.oneOrigin) ].
Proof.
  eapply (first_validates_before_git (Cases.worldOf Cases.healthy)
            (Some [Demo.root])
            [ EvShow Information msgStarting;
              EvAccess (Demo.root ++ [".git"]) true;
              EvReadFile (Demo.root ++ [".git"; "config"])
                         (Some Demo.oneOrigin) ]
            _ ["remote"; "show"; "origin"] Demo.root Demo.showMain).
  vm_compute. reflexivity.
Defined.

Lemma first_getOriginUrl_returns_pick_witness :
  snd (run (Demo.worldOf Demo.pickSecond) [] (First.getOriginUrl Demo.root)) =
  [ EvReadFile (Demo.root ++ [".git"; "config"]) (Some Demo.twoOrigins);
    EvPickStr (First.originUrlsOf Demo.twoOrigins)
              (pickStr (Demo.worldOf Demo.pickSecond)
                       ([] ++ [EvReadFile (Demo.root ++ [".git"; "config"])
                                          (Some Demo.twoOrigins)])
                       (First.originUrlsOf Demo.twoOrigins)) ] /\
  First.originUrlsOf Demo.twoOrigins =
  map remoteUrl (originRemotesOf Demo.twoOrigins) /\
  match picked (First.originUrlsOf Demo.twoOrigins)
               (pickStr (Demo.worldOf Demo.pickSecond)
                        ([] ++ [EvReadFile (Demo.root ++ [".git"; "config"])
                                           (Some Demo.twoOrigins)])
                        (First.originUrlsOf Demo.twoOrigins))
  with
  | Some url =>
      url <> EmptyString ->
      fst (run (Demo.worldOf Demo.pickSecond) [] (First.getOriginUrl Demo.root))
      = inr url
  | None =>
      fst (run (Demo.worldOf Demo.pickSecond) [] (First.getOriginUrl Demo.root))
      = inl First.originCancelled
  end.
Proof.
  apply (first_getOriginUrl_returns_pick (Demo.worldOf Demo.pickSecond) []
           Demo.root Demo.twoOrigins).
  - vm_compute. reflexivity.
  - vm_compute. lia.
Defined.

(** X24.  On a configuration with exactly one section of origin the two
    versions agree: both read the configuration, show no list, and resolve
    the remote to the URL of that section - the first version as the URL,
    the later one as the remote named origin with that URL. *)
Theorem single_origin_both_versions (w : World) (h : list Event)
        (root : Path) (configContent url : string) :
  readFile w h (root ++ [".git"; "config"]) = Some configContent ->
  First.originUrlsOf configContent = [url] ->
  let read := EvReadFile (root ++ [".git"; "config"]) (Some configContent) in
  run w h (First.getOriginUrl root) = (inr url, [read]) /\
  run w h (getOrigin root) = (inr (mkRemote "origin" url), [read]).
Proof.
  intros Rd One read.
  assert (originRemotesOf configContent = [mkRemote "origin" url]) as EO.
  { unfold originRemotesOf. unfold First.originUrlsOf in One.
    destruct (Re.execAll Re.remoteOriginRegex 0 configContent)
      as [| c1 [| c2 cs]]; try discriminate.
    cbn [map] in *. now inversion One. }
  split.
  - unfold First.getOriginUrl. cbn [run]. rewrite Rd, One. reflexivity.
  - unfold getOrigin. cbn [run]. rewrite Rd, EO. reflexivity.
Qed.

Lemma single_origin_both_versions_witness :
  run (Cases.worldOf Cases.healthy) [] (First.getOriginUrl Demo.root) =
  (inr Demo.urlA,
   [EvReadFile (Demo.root ++ [".git"; "config"]) (Some Demo.oneOrigin)]) /\
  run (Cases.worldOf Cases.healthy) [] (getOrigin Demo.root) =
  (inr (mkRemote "origin" Demo.urlA),
   [EvReadFile (Demo.root ++ [".git"; "config"]) (Some Demo.oneOrigin)]).
Proof.
  apply (single_origin_both_versions (Cases.worldOf Cases.healthy) []
           Demo.root Demo.oneOrigin Demo.urlA).
  - vm_compute. reflexivity.
  - vm_compute. reflexivity.
Defined.

(* ===================================================================== *)
(** ** The git commands of a run, with their arguments *)
(* ===================================================================== *)

Lemma allGit_syncAndPublish_at (root : Path) (origin : Remote)
      (target cur : string) :
  allGit (fun args cwd => cwd = root /\ publishCommand origin target cur args)
         (syncAndPublish root origin target cur).
Proof.
  unfold syncAndPublish, publishCommand. apply allGit_bindE.
  { apply allGit_runGitCommand. auto. }
  intros fr. destruct (negb (exitOk fr)); [cbn; auto |].
  apply allGit_bindE.
  { apply allGit_runGitCommand. auto. }
  intros mr. destruct (negb (exitOk mr)); [cbn; auto |].
  unfold pushAndCreate. apply allGit_bindE.
  { apply allGit_runGitCommand. auto. }
  intros pr. destruct (exitOk pr); [| cbn; auto].
  destruct (mrUrlOf pr) as [url |].
  - unfold openCreated, show. cbn [allGit]. intros ok.
    unfold switchToTarget. apply allGit_tryCatch.
    + apply allGit_bindE.
      * apply allGit_runGitCommand. auto 6.
      * intros r. destruct (exitOk r); cbn; auto.
    + intros e. cbn. auto.
  - unfold openListing. apply allGit_tryCatch.
    + apply allGit_bindE; [apply allGit_getOrigin |].
      intros o. cbn. intros [|]; cbn; auto.
    + intros e. cbn. auto.
Qed.

(** X7.  Every git command of every run is one of the seven commands of
    the source and runs in the root that step 1 located, and its arguments
    are the values the run resolved: apart from the query of the current
    branch, a command is issued only after the branch was accepted and
    [getOrigin] returned a remote; it is [remote show] of the name of that
    remote, [branch -r], or - once [getTargetBranch] returned a target -
    the fetch of that remote, the merge of the target of that remote, the
    push of lines 363-371 for that remote, target and current branch, or
    the checkout of that target. *)
Theorem git_commands_known (w : World) (repository : option Repository)
        (ed : option Path) (args : list string) (cwd : Path)
        (reply : option GitResult) :
  In (EvGit args cwd reply) (trace w repository ed) ->
  exists repo root t1,
    repository = Some repo /\
    run w started (locateRoot repo ed) = (Some root, t1) /\
    knownCommand root args cwd /\
    (args = showCurrent \/
     exists cur t2 origin t3,
       run w (started ++ t1) (getCurrentBranch root) = (inr cur, t2) /\
       acceptedBranch cur = true /\
       run w (started ++ t1 ++ t2 ++ [EvAccess (root ++ [".git"]) true])
           (getOrigin root) = (inr origin, t3) /\
       (args = ["remote"; "show"; remoteName origin] \/
        args = ["branch"; "-r"] \/
        exists target h,
          Reached w repository ed root cur origin target h /\
          publishCommand origin target cur args)).
Proof.
  intro Hin0.
  assert (exists repo root t1,
             repository = Some repo /\
             run w started (locateRoot repo ed) = (Some root, t1) /\
             knownCommand root args cwd) as (repo & root & t1 & -> & E1 & K).
  { revert Hin0. unfold trace, createMergeRequest.
    destruct repository as [repo |]; [| intros []].
    unfold show. cbn [run].
    change ([] ++ [EvShow Information msgStarting]) with started.
    rewrite run_bind.
    destruct (run w started (locateRoot repo ed)) as [found t1] eqn:E1.
    pose proof (allGit_run _ _ _ (allGit_locateRoot repo ed) w started args cwd
                           reply) as NoGit.
    rewrite E1 in NoGit. cbn [snd] in NoGit.
    destruct found as [root |].
    - destruct (run w (started ++ t1) (fromRoot root)) as [res t] eqn:E2.
      cbn [snd]. intros [He | Hin]; [discriminate |].
      apply in_app_or in Hin as [Hin | Hin]; [destruct (NoGit Hin) |].
      exists repo, root, t1. repeat split; auto;
        pose proof (allGit_run _ _ _ (allGit_fromRoot root) w (started ++ t1)
                               args cwd reply) as K;
        rewrite E2 in K; apply K; exact Hin.
    - cbn. intros [He | Hin]; [discriminate |].
      apply in_app_or in Hin as [Hin | [He | []]];
        [destruct (NoGit Hin) | discriminate]. }
  exists repo, root, t1. split; [reflexivity |]. split; [exact E1 |].
  split; [exact K |].
  pose proof (allGit_run _ _ _ (allGit_locateRoot repo ed) w started args cwd
                         reply) as NoGit.
  rewrite E1 in NoGit. cbn [snd] in NoGit.
  pose proof (allGit_run _ _ _
                (allGit_getCurrentBranch_at
                   (fun a c => a = showCurrent /\ c = root) root
                   (conj eq_refl eq_refl))
                w (started ++ t1) args cwd reply) as KC.
  destruct (run w (started ++ t1) (getCurrentBranch root)) as [[e | cur] t2]
    eqn:E2; cbn [snd] in KC.
  { revert Hin0. unfold trace, createMergeRequest, show. cbn [run].
    change ([] ++ [EvShow Information msgStarting]) with started.
    rewrite run_bind, E1. unfold fromRoot. rewrite run_bindE, E2.
    cbn [snd]. intros [He | Hin]; [discriminate |].
    apply in_app_or in Hin as [Hin | Hin]; [destruct (NoGit Hin) |].
    left. apply (KC Hin). }
  destruct (acceptedBranch cur) eqn:Acc.
  2:{ revert Hin0. unfold trace, createMergeRequest, show. cbn [run].
      change ([] ++ [EvShow Information msgStarting]) with started.
      rewrite run_bind, E1. unfold fromRoot. rewrite run_bindE, E2, Acc.
      cbn [negb run snd]. intros [He | Hin]; [discriminate |].
      apply in_app_or in Hin as [Hin | Hin]; [destruct (NoGit Hin) |].
      apply in_app_or in Hin as [Hin | [He | []]]; [| discriminate].
      left. apply (KC Hin). }
  unfold trace in Hin0.
  rewrite (run_accepted w repo ed root cur t1 t2 E1 E2 Acc) in Hin0.
  cbn [snd] in Hin0. unfold started in Hin0 at 1. cbn [app] in Hin0.
  destruct Hin0 as [He | Hin]; [discriminate |].
  apply in_app_or in Hin as [Hin | Hin]; [destruct (NoGit Hin) |].
  apply in_app_or in Hin as [Hin | Hin]; [left; apply (KC Hin) |].
  apply in_app_or in Hin as [Hin | Hin].
  2:{ destruct (fst (run w _ (automatedFlow root cur))); cbn in Hin;
      intuition discriminate. }
  right. unfold automatedFlow in Hin. cbn [run] in Hin.
  destruct (access w (started ++ t1 ++ t2) (root ++ [".git"])) eqn:Ac.
  2:{ cbn in Hin. intuition discriminate. }
  rewrite run_bindE in Hin. repeat rewrite <- app_assoc in Hin.
  pose proof (allGit_run _ _ _ (allGit_getOrigin (fun _ _ => False) root) w
                (started ++ t1 ++ t2 ++ [EvAccess (root ++ [".git"]) true])
                args cwd reply) as KO.
  destruct (run w (started ++ t1 ++ t2 ++ [EvAccess (root ++ [".git"]) true])
                (getOrigin root)) as [[e | origin] t3] eqn:E3;
    cbn [snd] in KO, Hin.
  { destruct Hin as [He | Hin]; [discriminate | destruct (KO Hin)]. }
  exists cur, t2, origin, t3.
  split; [first [reflexivity | exact E2] |]. split; [exact Acc |].
  split; [first [reflexivity | exact E3] |].
  rewrite run_bindE in Hin. repeat rewrite <- app_assoc in Hin.
  pose proof (allGit_run _ _ _
                (allGit_getTargetBranch_at
                   (fun a c => a = ["remote"; "show"; remoteName origin] \/
                               a = ["branch"; "-r"])
                   root (remoteName origin)
                   (or_introl eq_refl) (or_intror eq_refl))
                w (started ++ t1 ++ t2 ++
                   [EvAccess (root ++ [".git"]) true] ++ t3)
                args cwd reply) as KT.
  destruct (run w (started ++ t1 ++ t2 ++
                   [EvAccess (root ++ [".git"]) true] ++ t3)
                (getTargetBranch root (remoteName origin)))
    as [[e | target] t4] eqn:E4; cbn [snd] in KT, Hin.
  { destruct Hin as [He | Hin]; [discriminate |].
    apply in_app_or in Hin as [Hin | Hin]; [destruct (KO Hin) |].
    destruct (KT Hin) as [-> | ->]; auto. }
  repeat rewrite <- app_assoc in Hin.
  pose proof (allGit_run _ _ _
                (allGit_syncAndPublish_at root origin target cur) w
                (started ++ t1 ++ t2 ++
                 [EvAccess (root ++ [".git"]) true] ++ t3 ++ t4)
                args cwd reply) as KS.
  destruct (run w (started ++ t1 ++ t2 ++
                   [EvAccess (root ++ [".git"]) true] ++ t3 ++ t4)
                (syncAndPublish root origin target cur)) as [res tS];
    cbn [snd] in KS, Hin.
  destruct Hin as [He | Hin]; [discriminate |].
  apply in_app_or in Hin as [Hin | Hin]; [destruct (KO Hin) |].
  apply in_app_or in Hin as [Hin | Hin];
    [destruct (KT Hin) as [-> | ->]; auto |].
  right; right. exists target. eexists. split; [| exact (proj2 (KS Hin))].
  exists repo, t1, t2, t3, t4. repeat split; auto.
Qed.

Lemma git_commands_known_witness :
  exists repo root t1,
    Demo.handle = Some repo /\
    run (Cases.worldOf Cases.healthy) started (locateRoot repo None) =
    (Some root, t1) /\
    knownCommand root
      (pushArgs (mkRemote "origin" Demo.urlA) "main" "feat/login") Demo.root /\
    (pushArgs (mkRemote "origin" Demo.urlA) "main" "feat/login" = showCurrent \/
     exists cur t2 origin t3,
       run (Cases.worldOf Cases.healthy) (started ++ t1)
           (getCurrentBranch root) = (inr cur, t2) /\
       acceptedBranch cur = true /\
       run (Cases.worldOf Cases.healthy)
           (started ++ t1 ++ t2 ++ [EvAccess (root ++ [".git"]) true])
           (getOrigin root) = (inr origin, t3) /\
       (pushArgs (mkRemote "origin" Demo.urlA) "main" "feat/login" =
        ["remote"; "show"; remoteName origin] \/
        pushArgs (mkRemote "origin" Demo.urlA) "main" "feat/login" =
        ["branch"; "-r"] \/
        exists target h,
          Reached (Cases.worldOf Cases.healthy) Demo.handle None root cur
                  origin target h /\
          publishCommand origin target cur
            (pushArgs (mkRemote "origin" Demo.urlA) "main" "feat/login"))).
Proof.
  apply (git_commands_known (Cases.worldOf Cases.healthy) Demo.handle None
           (pushArgs (mkRemote "origin" Demo.urlA) "main" "feat/login")
           Demo.root Demo.pushedWithUrl).
  vm_compute. do 7 right. left. reflexivity.
Defined.

(* ===================================================================== *)
(** ** A push that prints no URL (lines 395-411) *)
(* ===================================================================== *)

(** The events of lines 396-410: the remote is resolved again; when that
    succeeds the listing made of its URL is asked to be opened and the
    outcome of the opening decides the notification; when it throws only
    the error is shown. *)
Lemma run_openListing_eq (w : World) (root : Path) (cur : string)
      (h : list Event) :
  run w h (openListing root cur) =
  (inr tt,
   match run w h (getOrigin root) with
   | (inr origin, tO) =>
       let url := constructedMrUrl (remoteUrl origin) in
       let ok := openUrl w (h ++ tO) url in
       tO ++ [ EvOpen url ok;
               if ok then EvShow Information (msgNavigated cur)
               else EvShow Error (msgNotConfirmed cur) ]
   | (inl _, tO) => tO ++ [EvShow Error (msgNotConfirmed cur)]
   end).
Proof.
  unfold openListing. rewrite run_tryCatch, run_bindE.
  destruct (run w h (getOrigin root)) as [[e | origin] tO].
  - reflexivity.
  - cbv zeta. cbn [run]. destruct (openUrl w (h ++ tO) _); cbn [run].
    + reflexivity.
    + cbn. rewrite <- app_assoc. reflexivity.
Qed.

(** C6 as stated fails: with two sections of origin the remote is resolved
    to the first one at step 3, its URL ends in .git, the push exits with
    0 and prints no URL - and the handler brings the prompt up again at
    line 398; when that prompt is dismissed nothing is opened. *)
Lemma C6_counterexample :
  ~ listingOpenedAfterPlainPush Cases.askedTwice Demo.handle None.
Proof.
  intro C.
  destruct (C Demo.root "feat/login" (mkRemote "origin" Demo.urlA) "main"
              (firstn 6 (trace Cases.askedTwice Demo.handle None))
              (firstn 8 (trace Cases.askedTwice Demo.handle None))
              (skipn 9 (trace Cases.askedTwice Demo.handle None))
              (mkResult EmptyString
                        ("To https://example.com/group/proj.git" +++ nl +++
                         " * [new branch]      feat/login -> feat/login" +++ nl)
                        (Some 0%Z))
              "https://example.com/group/proj")
    as (Hin & _).
  - exists (mkRepository (Some Demo.root)), [],
           (firstn 1 (skipn 1 (trace Cases.askedTwice Demo.handle None))),
           (firstn 2 (skipn 3 (trace Cases.askedTwice Demo.handle None))),
           (firstn 1 (skipn 5 (trace Cases.askedTwice Demo.handle None))).
    do 7 (split; [vm_compute; reflexivity |]). vm_compute. reflexivity.
  - vm_compute. reflexivity.
  - reflexivity.
  - vm_compute. reflexivity.
  - reflexivity.
  - vm_compute in Hin. exact Hin.
Qed.

(** C6.  After a push that exits with 0 and whose output holds no URL to
    take, no checkout is issued.  The handler resolves the remote again
    (line 398), which may bring the prompt up a second time.  When that
    gives a remote, the handler asks for the listing made of its URL to be
    opened - for a URL [base].git that is [base]/-/merge_requests - and for
    nothing else; the success notification follows when the opening
    succeeded, the error of line 408 when it failed.  When the second
    resolution throws, nothing is opened and the same error is shown.
    [first] is the remote of step 3, [cur] the current branch. *)
Theorem C6_listing_opened_no_checkout (w : World)
        (repository : option Repository) (ed : option Path)
        (pre post : list Event) (args : list string) (cwd : Path)
        (pushResult : GitResult) :
  trace w repository ed = pre ++ EvGit args cwd (Some pushResult) :: post ->
  isGit "push" (EvGit args cwd (Some pushResult)) = true ->
  exitOk pushResult = true ->
  mrUrlOf pushResult = None ->
  none (isGit "checkout") post = true /\
  exists first target cur h0,
    Reached w repository ed cwd cur first target h0 /\
    args = pushArgs first target cur /\
    match run w (pre ++ [EvGit args cwd (Some pushResult)]) (getOrigin cwd) with
    | (inr origin, tO) =>
        let url := constructedMrUrl (remoteUrl origin) in
        let ok := openUrl w ((pre ++ [EvGit args cwd (Some pushResult)]) ++ tO)
                          url in
        post = tO ++ [ EvOpen url ok;
                       if ok then EvShow Information (msgNavigated cur)
                       else EvShow Error (msgNotConfirmed cur) ] /\
        opened post = [url] /\
        forall base, remoteUrl origin = base +++ ".git" ->
                     url = base +++ "/-/merge_requests"
    | (inl _, tO) =>
        post = tO ++ [EvShow Error (msgNotConfirmed cur)] /\
        opened post = []
    end.
Proof.
  intros E P Ok U.
  destruct (trace_push w repository ed pre post args cwd _ E P)
    as (root & cur & first & target & h & fr & mr & res & rest &
        R & _ & _ & Epre & A & C & Rep & Run & Post).
  subst args cwd.
  rewrite run_pushAndCreate in Run. cbv zeta in Run.
  rewrite <- Rep, Ok, U in Run.
  rewrite run_openListing_eq in Run.
  pose proof (getOrigin_quiet w root
                (pre ++ [EvGit (pushArgs first target cur) root
                               (Some pushResult)])) as Q.
  destruct (run w (pre ++ [EvGit (pushArgs first target cur) root
                                 (Some pushResult)]) (getOrigin root))
    as [[e | origin] tO]; cbn [snd] in Q;
    injection Run as <- <-; cbn [closing] in Post;
    rewrite app_nil_r in Post.
  - split.
    + rewrite Post, none_app, (@none_weaken _ _ _ acts_checkout Q).
      reflexivity.
    + exists first, target, cur, h. split; [exact R |].
      split; [reflexivity |]. split; [exact Post |].
      rewrite Post, opened_app, (opened_quiet _ Q). reflexivity.
  - cbv zeta in Post. split.
    + rewrite Post, none_app, (@none_weaken _ _ _ acts_checkout Q).
      destruct (openUrl w _ _); reflexivity.
    + exists first, target, cur, h. split; [exact R |].
      split; [reflexivity |]. cbv zeta. split; [exact Post |]. split.
      * rewrite Post, opened_app, (opened_quiet _ Q).
        destruct (openUrl w _ _); reflexivity.
      * intros base B. rewrite B. apply constructedMrUrl_git.
Qed.

Lemma C6_witness :
  none (isGit "checkout")
       (skipn 8 (trace (Demo.worldOf Demo.plainPush) Demo.handle None)) = true /\
  exists first target cur h0,
    Reached (Demo.worldOf Demo.plainPush) Demo.handle None Demo.root cur first
            target h0 /\
    pushArgs (mkRemote "origin" Demo.urlA) "main" "feat/login" =
    pushArgs first target cur /\
    match
      run (Demo.worldOf Demo.plainPush)
          (firstn 7 (trace (Demo.worldOf Demo.plainPush) Demo.handle None) ++
           [EvGit (pushArgs (mkRemote "origin" Demo.urlA) "main" "feat/login")
                  Demo.root Demo.pushedPlain])
          (getOrigin Demo.root)
    with
    | (inr origin, tO) =>
        let url := constructedMrUrl (remoteUrl origin) in
        let ok :=
          openUrl (Demo.worldOf Demo.plainPush)
            ((firstn 7 (trace (Demo.worldOf Demo.plainPush) Demo.handle None) ++
              [EvGit (pushArgs (mkRemote "origin" Demo.urlA) "main"
                               "feat/login")
                     Demo.root Demo.pushedPlain]) ++ tO) url in
        skipn 8 (trace (Demo.worldOf Demo.plainPush) Demo.handle None) =
        tO ++ [ EvOpen url ok;
                if ok then EvShow Information (msgNavigated cur)
                else EvShow Error (msgNotConfirmed cur) ] /\
        opened (skipn 8 (trace (Demo.worldOf Demo.plainPush) Demo.handle None))
        = [url] /\
        forall base, remoteUrl origin = base +++ ".git" ->
                     url = base +++ "/-/merge_requests"
    | (inl _, tO) =>
        skipn 8 (trace (Demo.worldOf Demo.plainPush) Demo.handle None) =
        tO ++ [EvShow Error (msgNotConfirmed cur)] /\
        opened (skipn 8 (trace (Demo.worldOf Demo.plainPush) Demo.handle None))
        = []
    end.
Proof.
  apply (C6_listing_opened_no_checkout
           (Demo.worldOf Demo.plainPush) Demo.handle None
           (firstn 7 (trace (Demo.worldOf Demo.plainPush) Demo.handle None))
           (skipn 8 (trace (Demo.worldOf Demo.plainPush) Demo.handle None))
           (pushArgs (mkRemote "origin" Demo.urlA) "main" "feat/login")
           Demo.root
           (mkResult EmptyString
                     ("To https://example.com/group/proj.git" +++ nl +++
                      " * [new branch]      feat/login -> feat/login" +++ nl)
                     (Some 0%Z))).
  - vm_compute. reflexivity.
  - vm_compute. reflexivity.
  - vm_compute. reflexivity.
  - vm_compute. reflexivity.
Defined.

(** A remote given by its SSH address: what is made of it is no URL the
    editor can open; the opening fails and the run ends with the error of
    line 408, without a checkout. *)
Example ssh_remote_listing_not_opened :
  skipn 8 (trace Cases.cannotOpen Demo.handle None) =
  [ EvReadFile (Demo.root ++ [".git"; "config"]) (Some Cases.sshOrigin);
    EvOpen "git@mirror.example.com:group/proj/-/merge_requests" false;
    EvShow Error (msgNotConfirmed "feat/login") ].
Proof. vm_compute. reflexivity. Qed.

(* ===================================================================== *)
(** ** The target branch: the HEAD branch first (lines 136-198) *)
(* ===================================================================== *)

(** The expression of line 140 at the text HEAD branch:, white space and a
    word. *)
Lemma headBranchRegex_matches (ws : string) (b0 : ascii) (b after : string) :
  Js.every Js.is_space ws = true ->
  Js.non_space b0 = true -> Js.every Js.non_space b = true ->
  Js.stopsAt Js.non_space after = true ->
  Re.matchHere Re.headBranchRegex
    ("HEAD branch:" +++ ws +++ String b0 b +++ after) =
  Some ([String b0 b], after).
Proof.
  intros Hws H0 Hb Ha. unfold Re.matchHere, Re.headBranchRegex.
  rewrite matchAt_lits. cbn [Re.pushAll].
  apply star_takes_all; [| exact Hws |].
  { rewrite append_cons. cbn [Js.stopsAt]. exact H0. }
  cbn [Re.pushAll]. rewrite append_cons.
  rewrite matchAt_GOpen, matchAt_One by exact H0. cbn [Re.push].
  change (Some (EmptyString +++ String b0 EmptyString))
    with (Some (String b0 EmptyString)).
  apply star_takes_all; [exact Ha | exact Hb |].
  cbn [Re.pushAll]. rewrite matchAt_GClose_end, append_cons.
  change (EmptyString +++ b) with b. reflexivity.
Qed.

Lemma search_cons (r : Re.regex) (c : ascii) (s : string) :
  Re.search r (String c s) =
  match Re.matchHere r (String c s) with
  | Some (caps, _) => Some caps
  | None => Re.search r s
  end.
Proof. reflexivity. Qed.

Lemma search_here (r : Re.regex) (s : string) (caps : list string)
      (rest : string) :
  Re.matchHere r s = Some (caps, rest) -> Re.search r s = Some caps.
Proof.
  intro M. destruct s as [| c s].
  - change (Re.search r EmptyString)
      with (match Re.matchHere r EmptyString with
            | Some (caps0, _) => Some caps0
            | None => None
            end).
    now rewrite M.
  - now rewrite search_cons, M.
Qed.

Lemma search_noStart (r : Re.regex) (s : string) :
  forall pre,
    noStart r pre s = true -> Re.search r (pre +++ s) = Re.search r s.
Proof.
  induction pre as [| c pre IH]; [reflexivity |].
  cbn [noStart]. rewrite append_cons.
  destruct (Re.matchHere r (String c (pre +++ s))) eqn:M; [discriminate |].
  intro N. rewrite search_cons, M. auto.
Qed.

(** What [headBranchOf] reads in an output of [git remote show]: the word
    after the first HEAD branch: of the text. *)
Lemma headBranchOf_reports (before ws : string) (b0 : ascii)
      (b after : string) :
  noStart Re.headBranchRegex before
          ("HEAD branch:" +++ ws +++ String b0 b +++ after) = true ->
  Js.every Js.is_space ws = true ->
  Js.non_space b0 = true -> Js.every Js.non_space b = true ->
  Js.stopsAt Js.non_space after = true ->
  headBranchOf (before +++ "HEAD branch:" +++ ws +++ String b0 b +++ after) =
  Some (String b0 b).
Proof.
  intros N Hws H0 Hb Ha. unfold headBranchOf.
  rewrite (search_noStart _ _ _ N).
  rewrite (search_here _ _ _ _ (headBranchRegex_matches ws b0 b after
                                  Hws H0 Hb Ha)).
  reflexivity.
Qed.

(** The candidates of a listing made of pointer lines and lines of
    branches of origin. *)
Lemma collectBranches_listing (entries : list (string + string)) :
  forallb listingEntry entries = true ->
  collectBranches (map listingLine entries) = branchesOf entries.
Proof.
  induction entries as [| x xs IH]; [reflexivity |].
  cbn [forallb]. intro Hall. apply andb_true_iff in Hall as [Hx Hxs].
  cbn [map collectBranches branchesOf]. rewrite (IH Hxs).
  destruct x as [pointer | b]; cbn [listingLine listingEntry] in *.
  - apply andb_true_iff in Hx as [Ha _].
    unfold originBranchOf. now rewrite Ha.
  - apply andb_true_iff in Hx as [Hb Ha]. apply negb_true_iff in Ha.
    now rewrite (originBranchOf_originLine b Hb Ha).
Qed.

Lemma listing_lines (entries : list (string + string)) :
  forallb listingEntry entries = true ->
  Forall (fun l => Js.every (fun c => negb (Ascii.eqb c (ascii_of_nat 10))) l
                   = true) (map listingLine entries).
Proof.
  induction entries as [| x xs IH]; [constructor |].
  cbn [forallb]. intro Hall. apply andb_true_iff in Hall as [Hx Hxs].
  cbn [map]. constructor; [| exact (IH Hxs)].
  destruct x as [pointer | b]; cbn [listingLine listingEntry] in *.
  - apply andb_true_iff in Hx as [_ Hn]. exact Hn.
  - apply andb_true_iff in Hx as [Hb _]. unfold branchName in Hb.
    apply andb_true_iff in Hb as [_ Ev]. unfold originLine.
    rewrite every_append. apply andb_true_iff. split; [reflexivity |].
    exact (every_weaken _ _ _ non_space_not_nl Ev).
Qed.

Lemma branchesOf_named (entries : list (string + string)) (b : string) :
  forallb listingEntry entries = true ->
  In b (branchesOf entries) -> Js.truthy b = true.
Proof.
  induction entries as [| x xs IH]; [intros _ []|].
  cbn [forallb]. intro Hall. apply andb_true_iff in Hall as [Hx Hxs].
  destruct x as [pointer | b1]; cbn [branchesOf]; [now apply IH |].
  intros [-> | Hin]; [| now apply IH].
  cbn [listingEntry] in Hx. apply andb_true_iff in Hx as [Hb _].
  unfold branchName in Hb. now apply andb_true_iff in Hb as [Tr _].
Qed.

Lemma listing_truthy (entries : list (string + string)) :
  branchesOf entries <> [] ->
  Js.truthy (unlines (map listingLine entries)) = true.
Proof.
  destruct entries as [| x [| y ys]]; cbn [branchesOf map unlines].
  - congruence.
  - destruct x as [pointer | b]; cbn [branchesOf listingLine];
      [congruence | reflexivity].
  - intros _. destruct (listingLine x); reflexivity.
Qed.

(** [getTargetBranch] by its two attempts. *)
Lemma run_getTargetBranch (w : World) (h : list Event) (root : Path)
      (remote : string) :
  run w h (getTargetBranch root remote) =
  match run w h (advertisedHead root remote) with
  | (Some b, t1) => (inr b, t1)
  | (None, t1) =>
      (fst (run w (h ++ t1) (fallbackTargetBranch root)),
       t1 ++ snd (run w (h ++ t1) (fallbackTargetBranch root)))
  end.
Proof.
  unfold getTargetBranch. rewrite run_bind.
  destruct (run w h (advertisedHead root remote)) as [[b |] t1].
  - cbn. now rewrite app_nil_r.
  - destruct (run w (h ++ t1) (fallbackTargetBranch root)). reflexivity.
Qed.

(** The fallback on a listing that holds branches of origin: the list of
    these branches is shown, and the entry picked is returned. *)
Lemma run_fallback_listing (w : World) (h : list Event) (root : Path)
      (r2 : GitResult) (entries : list (string + string)) :
  git w h ["branch"; "-r"] root = Some r2 ->
  exitOk r2 = true ->
  stdout r2 = unlines (map listingLine entries) ->
  forallb listingEntry entries = true ->
  branchesOf entries <> [] ->
  let items := branchesOf entries in
  let answer := pickStr w (h ++ [EvGit ["branch"; "-r"] root (Some r2)]) items in
  run w h (fallbackTargetBranch root) =
  (match picked items answer with
   | Some b => inr b
   | None => inl targetBranchCancelled
   end,
   [EvGit ["branch"; "-r"] root (Some r2); EvPickStr items answer]).
Proof.
  intros G Ok Out Hall Hne items answer.
  assert (remoteBranchesOf (stdout r2) = items) as EB.
  { unfold remoteBranchesOf. rewrite Out, split_unlines.
    - now apply collectBranches_listing.
    - destruct entries; [now destruct Hne | discriminate].
    - now apply listing_lines. }
  unfold fallbackTargetBranch, listAndPick.
  rewrite run_tryCatch, run_bindE, run_runGitCommand, G, Ok.
  rewrite Out at 1. rewrite (listing_truthy _ Hne). cbn [andb].
  rewrite EB. fold items in Hne.
  pose proof (branchesOf_named entries) as Named. fold items in Named.
  destruct items as [| b0 bs] eqn:EI; [now destruct Hne |].
  cbn [run app]. fold answer. unfold ret, throw.
  destruct (picked (b0 :: bs) answer) as [sel |] eqn:Pk.
  - assert (Js.truthy sel = true) as Tr.
    { apply Named; [exact Hall |]. unfold picked in Pk.
      destruct answer as [i |]; [| discriminate].
      eapply nth_error_In. exact Pk. }
    rewrite Tr. reflexivity.
  - vm_compute. reflexivity.
Qed.

(** C8.  [getTargetBranch] first asks the remote for its HEAD branch
    ([git remote show]).  What counts as reported is the word that follows
    the first HEAD branch: of the output.  A reported branch other than
    (unknown) is returned at once, with no other event.  When (unknown) is
    reported the function does not return there: the listing of the remote
    branches ([git branch -r]) follows; a branch is returned only as the
    entry the user picked among the branches found in that listing, and
    on a listing that holds branches of origin the list of these branches
    is shown to the user and the entry picked is returned. *)
Theorem C8_head_first_unknown_absent (w : World) (h : list Event)
        (root : Path) (remote : string) :
  let showArgs := ["remote"; "show"; remote] in
  let reply := git w h showArgs root in
  let first := EvGit showArgs root reply in
  exists rest,
    snd (run w h (getTargetBranch root remote)) = first :: rest /\
    (forall r before ws b0 b after,
        reply = Some r ->
        stdout r = before +++ "HEAD branch:" +++ ws +++ String b0 b +++ after ->
        noStart Re.headBranchRegex before
                ("HEAD branch:" +++ ws +++ String b0 b +++ after) = true ->
        Js.every Js.is_space ws = true ->
        Js.non_space b0 = true -> Js.every Js.non_space b = true ->
        Js.stopsAt Js.non_space after = true ->
        headBranchOf (stdout r) = Some (String b0 b)) /\
    (forall r b,
        reply = Some r -> exitOk r = true ->
        headBranchOf (stdout r) = Some b -> b <> "(unknown)" ->
        run w h (getTargetBranch root remote) = (inr b, [first])) /\
    (forall r,
        reply = Some r -> exitOk r = true ->
        headBranchOf (stdout r) = Some "(unknown)" ->
        let reply2 := git w (h ++ [first]) ["branch"; "-r"] root in
        let second := EvGit ["branch"; "-r"] root reply2 in
        exists rest2,
          rest = second :: rest2 /\
          (forall b,
              fst (run w h (getTargetBranch root remote)) = inr b ->
              exists r2 i,
                reply2 = Some r2 /\
                rest2 = [EvPickStr (remoteBranchesOf (stdout r2)) (Some i)] /\
                nth_error (remoteBranchesOf (stdout r2)) i = Some b) /\
          (forall r2 entries,
              reply2 = Some r2 -> exitOk r2 = true ->
              stdout r2 = unlines (map listingLine entries) ->
              forallb listingEntry entries = true ->
              branchesOf entries <> [] ->
              let items := branchesOf entries in
              let answer := pickStr w (h ++ [first; second]) items in
              rest2 = [EvPickStr items answer] /\
              fst (run w h (getTargetBranch root remote)) =
              match picked items answer with
              | Some b => inr b
              | None => inl targetBranchCancelled
              end)).
Proof.
  intros showArgs reply first.
  pose proof (run_advertisedHead w h root remote) as A. cbv zeta in A.
  fold showArgs in A. fold reply in A.
  pose proof (run_getTargetBranch w h root remote) as T.
  assert (forall r b,
             reply = Some r -> exitOk r = true ->
             headBranchOf (stdout r) = Some b ->
             run w h (advertisedHead root remote) =
             (if String.eqb b "(unknown)" then None else Some b, [first]))
    as Head.
  { intros r b Hr Ok Hb. rewrite A. unfold first. rewrite Hr, Ok.
    assert (Js.truthy (stdout r) = true) as Tr
        by (destruct (stdout r); [discriminate | reflexivity]).
    rewrite Tr, Hb. cbn [andb].
    destruct (String.eqb b "(unknown)"); reflexivity. }
  exists (tl (snd (run w h (getTargetBranch root remote)))).
  split; [| split; [| split]].
  - rewrite T, A. unfold first.
    destruct reply as [r |].
    + destruct (if exitOk r && Js.truthy (stdout r) then _ else None);
        reflexivity.
    + reflexivity.
  - intros r before ws b0 b after _ Out N Hws H0 Hb Ha.
    rewrite Out. now apply headBranchOf_reports.
  - intros r b Hr Ok Hb Ne. rewrite T, (Head r b Hr Ok Hb).
    destruct (String.eqb b "(unknown)") eqn:Eq; [| reflexivity].
    apply String.eqb_eq in Eq. contradiction.
  - intros r Hr Ok Hb reply2 second.
    assert (run w h (getTargetBranch root remote) =
            (fst (run w (h ++ [first]) (fallbackTargetBranch root)),
             first :: snd (run w (h ++ [first]) (fallbackTargetBranch root))))
      as T2.
    { rewrite T, (Head r _ Hr Ok Hb). reflexivity. }
    rewrite T2. cbn [fst snd tl].
    destruct (run_fallbackTargetBranch w (h ++ [first]) root)
      as (rest2 & E2 & P2).
    fold reply2 in E2, P2. fold second in E2.
    exists rest2. split; [exact E2 |]. split; [exact P2 |].
    intros r2 entries G2 Ok2 Out Hall Hne.
    set (items := branchesOf entries).
    set (answer := pickStr w (h ++ [first; second]) items).
    pose proof (run_fallback_listing w (h ++ [first]) root r2 entries) as L.
    fold reply2 in L. specialize (L G2 Ok2 Out Hall Hne). cbv zeta in L.
    assert (answer =
            pickStr w ((h ++ [first]) ++
                       [EvGit ["branch"; "-r"] root (Some r2)]) items) as EA.
    { unfold answer, second. rewrite G2, <- app_assoc. reflexivity. }
    fold items in L. rewrite <- EA in L.
    rewrite L in E2 |- *. cbn [fst snd] in *.
    split; [| reflexivity].
    inversion E2. reflexivity.
Qed.

Lemma C8_witness :
  run (Demo.worldOf (Demo.onBranch "feat/login")) []
      (getTargetBranch Demo.root "origin") =
  (inr "main", [EvGit ["remote"; "show"; "origin"] Demo.root Demo.showMain]) /\
  run (Demo.worldOf Demo.unknownHead) [] (getTargetBranch Demo.root "origin") =
  (inr "develop",
   [ EvGit ["remote"; "show"; "origin"] Demo.root Demo.showUnknown;
     EvGit ["branch"; "-r"] Demo.root Demo.listingOrigin;
     EvPickStr ["main"; "develop"] (Some 1) ]).
Proof.
  split.
  - destruct (C8_head_first_unknown_absent
                (Demo.worldOf (Demo.onBranch "feat/login")) [] Demo.root
                "origin") as (rest & _ & Reads & Present & _).
    apply (Present (mkResult
                      ("* remote origin" +++ nl +++
                       "  Fetch URL: https://example.com/group/proj.git" +++ nl +++
                       "  HEAD branch: main" +++ nl) EmptyString (Some 0%Z))).
    + reflexivity.
    + reflexivity.
    + apply (Reads _ ("* remote origin" +++ nl +++
                      "  Fetch URL: https://example.com/group/proj.git" +++ nl +++
                      "  ")
                   " " "m"%char "ain" nl).
      * reflexivity.
      * vm_compute. reflexivity.
      * vm_compute. reflexivity.
      * vm_compute. reflexivity.
      * vm_compute. reflexivity.
      * vm_compute. reflexivity.
      * vm_compute. reflexivity.
    + discriminate.
  - destruct (C8_head_first_unknown_absent
                (Demo.worldOf Demo.unknownHead) [] Demo.root "origin")
      as (rest & Ev & Reads & _ & Unknown).
    destruct (Unknown (mkResult
                         ("* remote origin" +++ nl +++
                          "  Fetch URL: https://example.com/group/proj.git" +++ nl +++
                          "  HEAD branch: (unknown)" +++ nl)
                         EmptyString (Some 0%Z)))
      as (rest2 & Er & _ & Prompt).
    + reflexivity.
    + reflexivity.
    + apply (Reads _ ("* remote origin" +++ nl +++
                      "  Fetch URL: https://example.com/group/proj.git" +++ nl +++
                      "  ")
                   " " "("%char "unknown)" nl).
      * reflexivity.
      * vm_compute. reflexivity.
      * vm_compute. reflexivity.
      * vm_compute. reflexivity.
      * vm_compute. reflexivity.
      * vm_compute. reflexivity.
      * vm_compute. reflexivity.
    + destruct (Prompt (mkResult
                          ("  origin/HEAD -> origin/main" +++ nl +++
                           "  origin/main" +++ nl +++
                           "  origin/develop") EmptyString (Some 0%Z))
                       [ inl "  origin/HEAD -> origin/main";
                         inr "main"; inr "develop" ])
        as (Er2 & Res).
      * reflexivity.
      * reflexivity.
      * vm_compute. reflexivity.
      * vm_compute. reflexivity.
      * discriminate.
      * rewrite (surjective_pairing
                   (run (Demo.worldOf Demo.unknownHead) []
                        (getTargetBranch Demo.root "origin"))).
        rewrite Res, Ev, Er, Er2. vm_compute. reflexivity.
Defined.
